(** * Panorama to cubemap converter: projection, sampling and tiling

    A shallow embedding of the TypeScript converters

    - [Server]   : class ServerPanoramaConverter of the URL conversion route
                   (src/unnamed/part_000),
    - [ServerV0] : the logging variant of the same class (second document of
                   src/app/page.tsx); only [createTile] differs in behaviour,
    - [Client]   : class PanoramaConverter (src/components/panorama-converter.tsx),

    together with the properties stated about them, and, in the part "The
    rest of the sources", of the functions around them: the client
    conversion ([PanoramaConverter]), the printed tile keys and archive
    entries, the preview ([MarzipanoViewer]), the route handlers ([Route])
    and the API client ([ApiConverter]).

    Conventions of the embedding.

    - A JavaScript number that is always an integer in the code (sizes,
      loop counters, buffer indices, channel values) is a [Z].
    - Any other JavaScript number is a real: IEEE-754 rounding and the sign
      of zero are idealised away.  [NaN] is kept: a [number] is [option R]
      and [None] is NaN.  Infinities are never produced by the code below
      (the only division whose divisor can vanish is [y / |d|], and
      [|d| = 0] forces [y = 0]).
    - A Uint8ClampedArray is a [list Z]; a read outside the array gives
      [undefined] ([None]), a write outside is ignored, a stored value is
      clamped to [0..255] and NaN is stored as 0.
    - A method either returns or throws: [completion].  A method that
      calls the JPEG encoder also threads the list of the calls made so
      far: [M].
    - The canvas plumbing (creating canvases and contexts, [drawImage],
      [putImageData], fetching and decoding the image) is not modelled: an
      image is the pixel buffer [getImageData] returns for it, and the
      encoder and the archive writer are parameters.  Where the rest of the
      sources fetches, decodes, parses or prints, the collaborator is a
      parameter of the section that models the caller. *)

From Stdlib Require Import Reals Lra Lia ZArith QArith Ascii.
From stdpp Require Import list gmap strings pretty.

Local Open Scope Z_scope.

(** ** JavaScript values *)

Module JS.

Inductive error : Type :=
| EncodeError (quality : Q)
| ArchiveError
| TypeError.

Inductive completion (A : Type) : Type :=
| Return (a : A)
| Throw (e : error).
Arguments Return {A} a.
Arguments Throw {A} e.

(** [number]: a finite real or NaN. *)
Definition number : Type := option R.
Definition NaN : number := None.
Definition fin (r : R) : number := Some r.

(** [inum]: a number known to be an integer, or NaN. *)
Definition inum : Type := option Z.

Definition lift2 {A B C} (f : A -> B -> C) (a : option A) (b : option B) : option C :=
  match a, b with
  | Some x, Some y => Some (f x y)
  | _, _ => None
  end.

Definition nadd : number -> number -> number := lift2 Rplus.
Definition nsub : number -> number -> number := lift2 Rminus.
Definition nmul : number -> number -> number := lift2 Rmult.

(** [a / b].  [0 / 0] is NaN; a non-zero number is never divided by zero
    in the code below. *)
Definition ndiv (a b : number) : number :=
  match a, b with
  | Some x, Some y => if Req_dec_T y 0 then NaN else fin (x / y)
  | _, _ => NaN
  end.

Definition Math_min : number -> number -> number := lift2 Rmin.
Definition Math_max : number -> number -> number := lift2 Rmax.

Definition Math_floor (x : number) : inum := option_map Zfloor x.

(** [Math.round]: the nearest integer, ties towards +infinity. *)
Definition Math_round (x : number) : inum :=
  option_map (fun r => Zfloor (r + / 2)) x.

Definition Math_sqrt (x : R) : R := sqrt x.

(** [Math.atan2(y, x)] on finite reals. *)
Definition Math_atan2 (y x : R) : R :=
  if Rlt_dec 0 x then atan (y / x)
  else if Rlt_dec x 0 then
    if Rle_dec 0 y then atan (y / x) + PI else atan (y / x) - PI
  else if Rlt_dec 0 y then PI / 2
  else if Rlt_dec y 0 then - (PI / 2)
  else 0.

(** [Math.acos]: NaN outside [-1, 1]. *)
Definition Math_acos (x : number) : number :=
  match x with
  | Some r =>
      if Rlt_dec r (-1) then NaN
      else if Rlt_dec 1 r then NaN
      else fin (acos r)
  | None => NaN
  end.

Definition ofInt (i : inum) : number := option_map IZR i.

Definition iadd : inum -> inum -> inum := lift2 Z.add.
Definition imul : inum -> inum -> inum := lift2 Z.mul.
Definition imin : inum -> inum -> inum := lift2 Z.min.

(** *** Uint8ClampedArray *)

Definition buffer : Type := list Z.

(** [data[idx]] for an integer index; [None] is [undefined]. *)
Definition readIdx (data : buffer) (idx : Z) : option Z :=
  if idx <? 0 then None else data !! Z.to_nat idx.

(** [data[idx]] for a numeric index, which may be NaN. *)
Definition read (data : buffer) (idx : inum) : option Z :=
  match idx with
  | Some i => readIdx data i
  | None => None
  end.

Definition clamp8 (v : Z) : Z := Z.max 0 (Z.min 255 v).

(** Conversion of a stored value: NaN and [undefined] become 0. *)
Definition toUint8Clamp (v : option Z) : Z :=
  match v with
  | Some z => clamp8 z
  | None => 0
  end.

(** [data[idx] = v]. *)
Definition write (data : buffer) (idx : Z) (v : option Z) : buffer :=
  if idx <? 0 then data else <[Z.to_nat idx := toUint8Clamp v]> data.

(** [ctx.createImageData(w, h)] for positive [w] and [h]: transparent black. *)
Definition createImageData (w h : Z) : buffer :=
  replicate (Z.to_nat (w * h * 4)) 0.

(** *** Loops *)

(** [for (let i = start; i < start + fuel; i++) body]. *)
Fixpoint loop_from {St : Type} (fuel : nat) (i : Z) (body : Z -> St -> St) (s : St) : St :=
  match fuel with
  | O => s
  | S k => loop_from k (i + 1) body (body i s)
  end.

(** [for (let i = 0; i < n; i++) body]. *)
Definition for_range {St : Type} (n : Z) (body : Z -> St -> St) (s : St) : St :=
  loop_from (Z.to_nat n) 0 body s.

(** [for (let i = start; fuel iterations remain; i += step) body]. *)
Fixpoint loop_by {St : Type} (fuel : nat) (i step : Z) (body : Z -> St -> St) (s : St) : St :=
  match fuel with
  | O => s
  | S k => loop_by k (i + step) step body (body i s)
  end.

(** [for (let i = 0; i < n; i += step) body], for a positive [step]. *)
Definition for_step {St : Type} (n step : Z) (body : Z -> St -> St) (s : St) : St :=
  loop_by (Z.to_nat ((n + step - 1) / step)) 0 step body s.

(** The same loop when the body may throw. *)
Fixpoint loop_fromC {St : Type} (fuel : nat) (i : Z)
    (body : Z -> St -> completion St) (s : St) : completion St :=
  match fuel with
  | O => Return s
  | S k =>
      match body i s with
      | Return s' => loop_fromC k (i + 1) body s'
      | Throw e => Throw e
      end
  end.

Definition for_rangeC {St : Type} (n : Z) (body : Z -> St -> completion St) (s : St)
    : completion St :=
  loop_fromC (Z.to_nat n) 0 body s.

(** *** Calls to the JPEG encoder

    [canvas.convertToBlob] is an external collaborator.  Every call is
    recorded, in order, with the pixels on the canvas and the requested
    quality. *)

Record attempt : Type := mkAttempt {
  att_pixels : buffer;
  att_quality : Q;
}.

Definition history : Type := list attempt.

(** A method that may call the encoder and may throw. *)
Definition M (A : Type) : Type := history -> completion A * history.

Definition ret {A} (a : A) : M A := fun h => (Return a, h).
Definition throw {A} (e : error) : M A := fun h => (Throw e, h).
Definition bind {A B} (m : M A) (k : A -> M B) : M B :=
  fun h =>
    match m h with
    | (Return a, h') => k a h'
    | (Throw e, h') => (Throw e, h')
    end.
Definition liftC {A} (c : completion A) : M A := fun h => (c, h).

(** [try { m } catch (error) { handler }]. *)
Definition try_catch {A} (m : M A) (handler : error -> M A) : M A :=
  fun h =>
    match m h with
    | (Return a, h') => (Return a, h')
    | (Throw e, h') => handler e h'
    end.

Fixpoint loop_fromM {St : Type} (fuel : nat) (i : Z)
    (body : Z -> St -> M St) (s : St) : M St :=
  match fuel with
  | O => ret s
  | S k => bind (body i s) (loop_fromM k (i + 1) body)
  end.

Definition for_rangeM {St : Type} (n : Z) (body : Z -> St -> M St) (s : St) : M St :=
  loop_fromM (Z.to_nat n) 0 body s.

End JS.

Import JS.

(** ** Source images *)

(** What [getImageData(0, 0, img.width, img.height)] yields for [img]. *)
Record ImageBitmap : Type := mkImage {
  img_width : Z;
  img_height : Z;
  img_data : buffer;
}.

Definition is_byte (b : Z) : Prop := 0 <= b <= 255.

(** A decoded RGBA8 image with positive dimensions. *)
Record valid_image (img : ImageBitmap) : Prop := {
  valid_width : 0 < img_width img;
  valid_height : 0 < img_height img;
  valid_length : Z.of_nat (length (img_data img)) = img_width img * img_height img * 4;
  valid_bytes : Forall is_byte (img_data img);
}.

Record TileConfig : Type := mkConfig {
  tileSize : Z;
  size : Z;
  fallbackOnly : option bool;
}.

Definition pixel : Type := (option Z * option Z * option Z)%type.

(** ** The server converter (src/unnamed/part_000) *)

Module Server.

Definition tileConfigs : list TileConfig :=
  [ mkConfig 256 256 (Some true);
    mkConfig 512 512 None;
    mkConfig 512 1024 None;
    mkConfig 512 2048 None ].

Definition faceNames : list string := ["r"; "l"; "u"; "d"; "f"; "b"]%string.

(** The [switch (face)] of [faceUVToEquirectangular]. *)
Definition faceDirection (face : Z) (uc vc : R) : R * R * R :=
  match face with
  | 0 => (1, - vc, - uc)
  | 1 => (-1, - vc, uc)
  | 2 => (uc, 1, vc)
  | 3 => (uc, -1, - vc)
  | 4 => (uc, - vc, 1)
  | 5 => (- uc, - vc, -1)
  | _ => (0, 0, 0)
  end%R.

Definition faceUVToEquirectangular (face : Z) (u v : R) : completion (number * number) :=
  let uc := (2 * u - 1)%R in
  let vc := (2 * v - 1)%R in
  let '(x, y, z) := faceDirection face uc vc in
  let theta := Math_atan2 z x in
  let phi := Math_acos (ndiv (fin y) (fin (Math_sqrt (x * x + y * y + z * z)))) in
  let eqU := ((theta + PI) / (2 * PI))%R in
  let eqV := ndiv phi (fin PI) in
  Return (fin eqU, eqV).

Definition getPixel (imgData : buffer) (width : Z) (px py : inum) : pixel :=
  let idx := imul (iadd (imul py (Some width)) px) (Some 4) in
  (read imgData idx, read imgData (iadd idx (Some 1)), read imgData (iadd idx (Some 2))).

Definition interpolate (fx fy : number) (c1 c2 c3 c4 : option Z) : number :=
  let i1 := nadd (nmul (ofInt c1) (nsub (fin 1) fx)) (nmul (ofInt c2) fx) in
  let i2 := nadd (nmul (ofInt c3) (nsub (fin 1) fx)) (nmul (ofInt c4) fx) in
  nadd (nmul i1 (nsub (fin 1) fy)) (nmul i2 fy).

Definition sampleEquirectangularBilinear
    (imgData : buffer) (u v : number) (width height : Z) : pixel :=
  let u := Math_max (fin 0) (Math_min (fin 1) u) in
  let v := Math_max (fin 0) (Math_min (fin 1) v) in
  let x := nmul u (fin (IZR (width - 1))) in
  let y := nmul v (fin (IZR (height - 1))) in
  let x1 := Math_floor x in
  let y1 := Math_floor y in
  let x2 := imin (iadd x1 (Some 1)) (Some (width - 1)) in
  let y2 := imin (iadd y1 (Some 1)) (Some (height - 1)) in
  let fx := nsub x (ofInt x1) in
  let fy := nsub y (ofInt y1) in
  let p11 := getPixel imgData width x1 y1 in
  let p21 := getPixel imgData width x2 y1 in
  let p12 := getPixel imgData width x1 y2 in
  let p22 := getPixel imgData width x2 y2 in
  ( Math_round (interpolate fx fy p11.1.1 p21.1.1 p12.1.1 p22.1.1),
    Math_round (interpolate fx fy p11.1.2 p21.1.2 p12.1.2 p22.1.2),
    Math_round (interpolate fx fy p11.2 p21.2 p12.2 p22.2) ).

(** One iteration of the pixel loop of [generateCubeFace]. *)
Definition rasterStep (img : ImageBitmap) (face size y x : Z) (faceData : buffer)
    : completion buffer :=
  match faceUVToEquirectangular face (IZR x / IZR size) (IZR y / IZR size) with
  | Throw e => Throw e
  | Return (u, v) =>
      let pixel :=
        sampleEquirectangularBilinear (img_data img) u v (img_width img) (img_height img) in
      let idx := (y * size + x) * 4 in
      let faceData := write faceData idx pixel.1.1 in
      let faceData := write faceData (idx + 1) pixel.1.2 in
      let faceData := write faceData (idx + 2) pixel.2 in
      let faceData := write faceData (idx + 3) (Some 255) in
      Return faceData
  end.

Definition generateCubeFace (img : ImageBitmap) (face size : Z) : completion buffer :=
  let faceData := createImageData size size in
  for_rangeC size (fun y faceData =>
    for_rangeC size (fun x faceData => rasterStep img face size y x faceData) faceData)
    faceData.

(** [Math.ceil(config.size / config.tileSize)].  The table has no zero
    [tileSize], so the quotient is finite. *)
Definition tilesPerSide (config : TileConfig) : Z :=
  Zceil (IZR (size config) / IZR (tileSize config)).

(** The copy loop of [createTile]: the pixel buffer put on the tile canvas. *)
Definition tilePixels (faceImageData : buffer) (tileX tileY : Z) (config : TileConfig)
    (faceSize : Z) : buffer :=
  let sourceX := tileX * tileSize config in
  let sourceY := tileY * tileSize config in
  let sourceWidth := Z.min (tileSize config) (faceSize - sourceX) in
  let sourceHeight := Z.min (tileSize config) (faceSize - sourceY) in
  let tileData := createImageData (tileSize config) (tileSize config) in
  for_range sourceHeight (fun y tileData =>
    for_range sourceWidth (fun x tileData =>
      let sourceIdx := ((sourceY + y) * faceSize + (sourceX + x)) * 4 in
      let tileIdx := (y * tileSize config + x) * 4 in
      let tileData := write tileData tileIdx (readIdx faceImageData sourceIdx) in
      let tileData := write tileData (tileIdx + 1) (readIdx faceImageData (sourceIdx + 1)) in
      let tileData := write tileData (tileIdx + 2) (readIdx faceImageData (sourceIdx + 2)) in
      write tileData (tileIdx + 3) (readIdx faceImageData (sourceIdx + 3)))
      tileData)
    tileData.

(** A tile key [z/faceName/y/x], kept as the tuple it is printed from. *)
Definition tileKey : Type := (Z * string * Z * Z)%type.

Section Converter.

(** The external collaborators: the JPEG encoder of the canvas, which sees
    the earlier calls, the pixels and the quality, and the archive writer,
    which receives the tiles (stored under [key.jpg]) and the level table
    (stored in [config.json]). *)
Context {Blob Zip : Type}.
Variable convertToBlob : history -> buffer -> Q -> completion Blob.
Variable generateAsync : gmap tileKey Blob -> list TileConfig -> completion Zip.

Record Result : Type := mkResult {
  zipBuffer : Zip;
  totalTiles : Z;
  zoomLevels : Z;
  maxZoom : Z;
}.

(** [await canvas.convertToBlob({ type: "image/jpeg", quality })]. *)
Definition canvasConvertToBlob (pixels : buffer) (quality : Q) : M Blob :=
  fun h => (convertToBlob h pixels quality, h ++ [mkAttempt pixels quality]).

Definition createTile (faceImageData : buffer) (tileX tileY : Z) (config : TileConfig)
    (faceSize : Z) : M Blob :=
  let tileData := tilePixels faceImageData tileX tileY config faceSize in
  canvasConvertToBlob tileData 1.

Definition createZipFile (tiles : gmap tileKey Blob) : M Zip :=
  liftC (generateAsync tiles tileConfigs).

(** [this.tileConfigs[z]], whose fields are then read. *)
Definition configAt (z : Z) : M TileConfig :=
  match tileConfigs !! Z.to_nat z with
  | Some config => ret config
  | None => throw TypeError
  end.

(** The first loop of [processImage]. *)
Definition countTiles (maxZoom : Z) : M Z :=
  for_rangeM (maxZoom + 1) (fun z totalTiles =>
    bind (configAt z) (fun config =>
      let tilesPerSide := tilesPerSide config in
      ret (totalTiles + 6 * tilesPerSide * tilesPerSide)))
    0.

Definition faceNameAt (face : Z) : string :=
  default "undefined"%string (faceNames !! Z.to_nat face).

(** "Split face into tiles": the two inner loops of [processImage],
    parameterised by the tile method. *)
Definition sliceFace
    (createTile : buffer -> Z -> Z -> TileConfig -> Z -> M Blob)
    (faceImageData : buffer) (config : TileConfig) (faceSize z : Z) (faceName : string)
    (tilesPerSide : Z) (tiles : gmap tileKey Blob) : M (gmap tileKey Blob) :=
  for_rangeM tilesPerSide (fun y tiles =>
    for_rangeM tilesPerSide (fun x tiles =>
      bind (createTile faceImageData x y config faceSize) (fun tileBuffer =>
        ret (<[(z, faceName, y, x) := tileBuffer]> tiles)))
      tiles)
    tiles.

(** The second loop nest of [processImage]. *)
Definition generateTiles
    (createTile : buffer -> Z -> Z -> TileConfig -> Z -> M Blob)
    (img : ImageBitmap) (maxZoom : Z) : M (gmap tileKey Blob) :=
  for_rangeM (maxZoom + 1) (fun z tiles =>
    bind (configAt z) (fun config =>
      let tilesPerSide := tilesPerSide config in
      let faceSize := size config in
      for_rangeM 6 (fun face tiles =>
        bind (liftC (generateCubeFace img face faceSize)) (fun faceImageData =>
          let faceName := faceNameAt face in
          sliceFace createTile faceImageData config faceSize z faceName tilesPerSide tiles))
        tiles))
    ∅.

Definition processImageWith
    (createTile : buffer -> Z -> Z -> TileConfig -> Z -> M Blob)
    (img : ImageBitmap) : M Result :=
  let maxZoom := Z.of_nat (length tileConfigs) - 1 in
  let zoomLevels := maxZoom + 1 in
  bind (countTiles maxZoom) (fun totalTiles =>
    bind (generateTiles createTile img maxZoom) (fun tiles =>
      bind (createZipFile tiles) (fun zipBuffer =>
        ret (mkResult zipBuffer totalTiles zoomLevels maxZoom)))).

Definition processImage (img : ImageBitmap) : M Result :=
  processImageWith createTile img.

End Converter.
End Server.

(** ** The logging variant of the server converter (src/app/page.tsx)

    [tileConfigs], [faceNames], [faceUVToEquirectangular],
    [sampleEquirectangularBilinear], [generateCubeFace], [processImage] and
    [createZipFile] are, up to [console.log] calls and [catch] blocks that
    rethrow, the text of [Server]; they are shared with it.  [createTile]
    differs: it fills the tile with opaque black, guards the copy, and
    retries the encoder. *)

Module ServerV0.

(** The fill loop of [createTile]. *)
Definition fillBlack (tileData : buffer) : buffer :=
  for_step (Z.of_nat (length tileData)) 4 (fun i tileData =>
    let tileData := write tileData i (Some 0) in
    let tileData := write tileData (i + 1) (Some 0) in
    let tileData := write tileData (i + 2) (Some 0) in
    write tileData (i + 3) (Some 255))
    tileData.

(** The fill and copy loops of [createTile]. *)
Definition tilePixels (faceImageData : buffer) (tileX tileY : Z) (config : TileConfig)
    (faceSize : Z) : buffer :=
  let sourceX := tileX * tileSize config in
  let sourceY := tileY * tileSize config in
  let sourceWidth := Z.min (tileSize config) (faceSize - sourceX) in
  let sourceHeight := Z.min (tileSize config) (faceSize - sourceY) in
  let tileData := createImageData (tileSize config) (tileSize config) in
  let tileData := fillBlack tileData in
  for_range sourceHeight (fun y tileData =>
    for_range sourceWidth (fun x tileData =>
      let sourceIdx := ((sourceY + y) * faceSize + (sourceX + x)) * 4 in
      let tileIdx := (y * tileSize config + x) * 4 in
      if (0 <=? sourceIdx) && (sourceIdx <? Z.of_nat (length faceImageData) - 3) then
        let tileData := write tileData tileIdx (readIdx faceImageData sourceIdx) in
        let tileData := write tileData (tileIdx + 1) (readIdx faceImageData (sourceIdx + 1)) in
        let tileData := write tileData (tileIdx + 2) (readIdx faceImageData (sourceIdx + 2)) in
        write tileData (tileIdx + 3) (readIdx faceImageData (sourceIdx + 3))
      else tileData)
      tileData)
    tileData.

Section Converter.

Context {Blob Zip : Type}.
Variable convertToBlob : history -> buffer -> Q -> completion Blob.
Variable generateAsync : gmap Server.tileKey Blob -> list TileConfig -> completion Zip.

Definition createTile (faceImageData : buffer) (tileX tileY : Z) (config : TileConfig)
    (faceSize : Z) : M Blob :=
  try_catch
    (let tileData := tilePixels faceImageData tileX tileY config faceSize in
     try_catch
       (Server.canvasConvertToBlob convertToBlob tileData 1)
       (fun error =>
          (* Fallback: try with lower quality *)
          Server.canvasConvertToBlob convertToBlob tileData (9 # 10)))
    (fun error => throw error).

Definition processImage (img : ImageBitmap) : M (Server.Result (Zip := Zip)) :=
  try_catch
    (Server.processImageWith generateAsync createTile img)
    (fun error => throw error).

End Converter.

End ServerV0.

(** ** The client converter (src/components/panorama-converter.tsx) *)

Module Client.

Definition tileConfigs : list TileConfig :=
  [ mkConfig 256 256 (Some true);
    mkConfig 512 512 None;
    mkConfig 512 1024 None;
    mkConfig 512 2048 None ].

Definition faceNames : list string := ["r"; "l"; "u"; "d"; "f"; "b"]%string.

(** Convert cube face UV to 3D direction. *)
Definition faceDirection (face : Z) (uc vc : R) : R * R * R :=
  match face with
  | 0 => (1, - vc, - uc)
  | 1 => (-1, - vc, uc)
  | 2 => (uc, 1, vc)
  | 3 => (uc, -1, - vc)
  | 4 => (uc, - vc, 1)
  | 5 => (- uc, - vc, -1)
  | _ => (0, 0, 0)
  end%R.

Definition faceUVToEquirectangular (face : Z) (u v : R) : completion (number * number) :=
  let uc := (2 * u - 1)%R in
  let vc := (2 * v - 1)%R in
  let '(x, y, z) := faceDirection face uc vc in
  let theta := Math_atan2 z x in
  let phi := Math_acos (ndiv (fin y) (fin (Math_sqrt (x * x + y * y + z * z)))) in
  let eqU := ((theta + PI) / (2 * PI))%R in
  let eqV := ndiv phi (fin PI) in
  Return (fin eqU, eqV).

Definition getPixel (imgData : buffer) (width : Z) (px py : inum) : pixel :=
  let idx := imul (iadd (imul py (Some width)) px) (Some 4) in
  (read imgData idx, read imgData (iadd idx (Some 1)), read imgData (iadd idx (Some 2))).

Definition interpolate (fx fy : number) (c1 c2 c3 c4 : option Z) : number :=
  let i1 := nadd (nmul (ofInt c1) (nsub (fin 1) fx)) (nmul (ofInt c2) fx) in
  let i2 := nadd (nmul (ofInt c3) (nsub (fin 1) fx)) (nmul (ofInt c4) fx) in
  nadd (nmul i1 (nsub (fin 1) fy)) (nmul i2 fy).

Definition sampleEquirectangularBilinear
    (imgData : buffer) (u v : number) (width height : Z) : pixel :=
  let u := Math_max (fin 0) (Math_min (fin 1) u) in
  let v := Math_max (fin 0) (Math_min (fin 1) v) in
  let x := nmul u (fin (IZR (width - 1))) in
  let y := nmul v (fin (IZR (height - 1))) in
  let x1 := Math_floor x in
  let y1 := Math_floor y in
  let x2 := imin (iadd x1 (Some 1)) (Some (width - 1)) in
  let y2 := imin (iadd y1 (Some 1)) (Some (height - 1)) in
  let fx := nsub x (ofInt x1) in
  let fy := nsub y (ofInt y1) in
  let p11 := getPixel imgData width x1 y1 in
  let p21 := getPixel imgData width x2 y1 in
  let p12 := getPixel imgData width x1 y2 in
  let p22 := getPixel imgData width x2 y2 in
  ( Math_round (interpolate fx fy p11.1.1 p21.1.1 p12.1.1 p22.1.1),
    Math_round (interpolate fx fy p11.1.2 p21.1.2 p12.1.2 p22.1.2),
    Math_round (interpolate fx fy p11.2 p21.2 p12.2 p22.2) ).

(** Convert equirectangular to cube face with bilinear interpolation:
    one iteration of the pixel loop of [generateCubeFace]. *)
Definition rasterStep (img : ImageBitmap) (face size y x : Z) (faceData : buffer)
    : completion buffer :=
  match faceUVToEquirectangular face (IZR x / IZR size) (IZR y / IZR size) with
  | Throw e => Throw e
  | Return (u, v) =>
      let pixel :=
        sampleEquirectangularBilinear (img_data img) u v (img_width img) (img_height img) in
      let idx := (y * size + x) * 4 in
      let faceData := write faceData idx pixel.1.1 in
      let faceData := write faceData (idx + 1) pixel.1.2 in
      let faceData := write faceData (idx + 2) pixel.2 in
      let faceData := write faceData (idx + 3) (Some 255) in
      Return faceData
  end.

Definition generateCubeFace (img : ImageBitmap) (face size : Z) : completion buffer :=
  let faceData := createImageData size size in
  for_rangeC size (fun y faceData =>
    for_rangeC size (fun x faceData => rasterStep img face size y x faceData) faceData)
    faceData.

End Client.

(** * Vocabulary of the properties *)

(** Four consecutive writes, as every pixel store of the converters. *)
Definition write4 (data : buffer) (idx : Z) (r g b a : option Z) : buffer :=
  write (write (write (write data idx r) (idx + 1) g) (idx + 2) b) (idx + 3) a.

(** The mapping has no [throw]: it always returns a pair. *)
Definition equirect (face : Z) (u v : R) : number * number :=
  match Server.faceUVToEquirectangular face u v with
  | Return uv => uv
  | Throw _ => (NaN, NaN)
  end.

(** The sample for face pixel [(x, y)] when the face-local coordinate of
    pixel index [i] on a face of side [size] is [coord i size]. *)
Definition rasterVia (coord : Z -> Z -> R) (img : ImageBitmap) (face size x y : Z) : pixel :=
  let '(u, v) := equirect face (coord x size) (coord y size) in
  Server.sampleEquirectangularBilinear (img_data img) u v (img_width img) (img_height img).

(** The coordinate rule of the code: [x / size]. *)
Definition cornerCoord (i size : Z) : R := (IZR i / IZR size)%R.

(** The coordinate rule of pixel centres: [(x + 0.5) / size]. *)
Definition centreCoord (i size : Z) : R := ((IZR i + / 2) / IZR size)%R.

(** The four bytes of pixel [(x, y)] in a row-major RGBA buffer of row
    length [size]. *)
Definition rgbaAt (data : buffer) (size x y : Z)
    : option Z * option Z * option Z * option Z :=
  let idx := (y * size + x) * 4 in
  (readIdx data idx, readIdx data (idx + 1), readIdx data (idx + 2), readIdx data (idx + 3)).

(** What storing a sampled pixel with alpha 255 leaves in the array. *)
Definition stored (p : pixel) : option Z * option Z * option Z * option Z :=
  (Some (toUint8Clamp p.1.1), Some (toUint8Clamp p.1.2), Some (toUint8Clamp p.2), Some 255).

(** Pixels of linear index below [k] hold their final value. *)
Definition rasterInv (img : ImageBitmap) (face size k : Z) (faceData : buffer) : Prop :=
  Z.of_nat (length faceData) = size * size * 4 /\
  forall x y, 0 <= x < size -> 0 <= y < size -> y * size + x < k ->
    rgbaAt faceData size x y = stored (rasterVia cornerCoord img face size x y).

(** *** Bilinear sampler *)

(** [Math.max(0, Math.min(1, u))] on a finite [u]. *)
Definition clamp01 (u : R) : R := Rmax 0 (Rmin 1 u).

(** The corner indices along one axis of length [n], in the words of the
    specification: [x1 = floor(u * (n - 1))] and [x2 = min(x1 + 1, n - 1)],
    with [u] already clamped, and the fractional part [fx = x - x1]. *)
Definition cornerLo (u : R) (n : Z) : Z := Zfloor (clamp01 u * IZR (n - 1)).
Definition cornerHi (u : R) (n : Z) : Z := Z.min (cornerLo u n + 1) (n - 1).
Definition cornerFrac (u : R) (n : Z) : R :=
  (clamp01 u * IZR (n - 1) - IZR (cornerLo u n))%R.

(** The blend of the four pixels at [(x1, y1)], [(x2, y1)], [(x1, y2)],
    [(x2, y2)] with weights [fx], [fy]. *)
Definition blend (imgData : buffer) (width x1 y1 x2 y2 : Z) (fx fy : R) : pixel :=
  let p11 := Server.getPixel imgData width (Some x1) (Some y1) in
  let p21 := Server.getPixel imgData width (Some x2) (Some y1) in
  let p12 := Server.getPixel imgData width (Some x1) (Some y2) in
  let p22 := Server.getPixel imgData width (Some x2) (Some y2) in
  ( Math_round (Server.interpolate (fin fx) (fin fy) p11.1.1 p21.1.1 p12.1.1 p22.1.1),
    Math_round (Server.interpolate (fin fx) (fin fy) p11.1.2 p21.1.2 p12.1.2 p22.1.2),
    Math_round (Server.interpolate (fin fx) (fin fy) p11.2 p21.2 p12.2 p22.2) ).

(** A pixel read that stays inside a [width * height] RGBA buffer and
    yields three bytes. *)
Definition insideRead (imgData : buffer) (width height x y : Z) : Prop :=
  0 <= x <= width - 1 /\ 0 <= y <= height - 1 /\
  0 <= (y * width + x) * 4 /\
  (y * width + x) * 4 + 2 < Z.of_nat (length imgData) /\
  exists r g b, Server.getPixel imgData width (Some x) (Some y) = (Some r, Some g, Some b).

(** *** Direction table

    The six faces and their direction rule, in the words of the
    specification's table. *)

Inductive CubeFace : Type := right | left | up | down | front | back.

Definition faceOfId (id : Z) : option CubeFace :=
  if id =? 0 then Some right
  else if id =? 1 then Some left
  else if id =? 2 then Some up
  else if id =? 3 then Some down
  else if id =? 4 then Some front
  else if id =? 5 then Some back
  else None.

Definition tableDirection (f : CubeFace) (uc vc : R) : R * R * R :=
  match f with
  | right => (1, - vc, - uc)
  | left => (-1, - vc, uc)
  | up => (uc, 1, vc)
  | down => (uc, -1, - vc)
  | front => (uc, - vc, 1)
  | back => (- uc, - vc, -1)
  end%R.

(** The inverse projection of a direction, over the reals. *)
Definition eqU_of (x z : R) : R := ((Math_atan2 z x + PI) / (2 * PI))%R.
Definition eqV_of (x y z : R) : R := (acos (y / sqrt (x * x + y * y + z * z)) / PI)%R.

(** *** Test images *)

(** A 5 x 1 image, black except for its last pixel. *)
Definition seamImage : ImageBitmap :=
  mkImage 5 1
    [0; 0; 0; 255;  0; 0; 0; 255;  0; 0; 0; 255;  0; 0; 0; 255;  100; 100; 100; 255].

(** *** Tile slicer *)

(** [ceil(a / b)] on positive integers. *)
Definition ceilDiv (a b : Z) : Z := (a + b - 1) / b.

(** Source offset and copied extent of tile index [t] along one axis, in
    the words of the specification. *)
Definition tileOffset (t tileSize : Z) : Z := t * tileSize.
Definition tileExtent (t tileSize faceSize : Z) : Z :=
  Z.min tileSize (faceSize - tileOffset t tileSize).

(** The body of the copy loop: four bytes moved from the face to the tile. *)
Definition copyStep (face : buffer) (sourceX sourceY faceSize ts y x : Z) (tileData : buffer)
    : buffer :=
  let sourceIdx := ((sourceY + y) * faceSize + (sourceX + x)) * 4 in
  write4 tileData ((y * ts + x) * 4)
    (readIdx face sourceIdx) (readIdx face (sourceIdx + 1))
    (readIdx face (sourceIdx + 2)) (readIdx face (sourceIdx + 3)).

(** What a copy of face pixel [(px, py)] leaves in the tile. *)
Definition copied (face : buffer) (faceSize px py : Z)
    : option Z * option Z * option Z * option Z :=
  let idx := (py * faceSize + px) * 4 in
  (Some (toUint8Clamp (readIdx face idx)), Some (toUint8Clamp (readIdx face (idx + 1))),
   Some (toUint8Clamp (readIdx face (idx + 2))), Some (toUint8Clamp (readIdx face (idx + 3)))).

(** State of the tile when the pixels of linear index below [k] are done. *)
Definition copyInv (face init : buffer) (sourceX sourceY faceSize ts sw sh k : Z)
    (tileData : buffer) : Prop :=
  length tileData = length init /\
  (forall x y, 0 <= x < sw -> 0 <= y < sh -> y * ts + x < k ->
     rgbaAt tileData ts x y = copied face faceSize (sourceX + x) (sourceY + y)) /\
  (forall x y, 0 <= x < ts -> 0 <= y < ts -> sw <= x \/ sh <= y \/ k <= y * ts + x ->
     rgbaAt tileData ts x y = rgbaAt init ts x y).

(** A rasterized face: [faceSize * faceSize] RGBA pixels. *)
Definition face_buffer (face : buffer) (faceSize : Z) : Prop :=
  Z.of_nat (length face) = faceSize * faceSize * 4 /\ Forall is_byte face.

(** State of the tile when the first [j] pixels are filled with opaque black. *)
Definition fillInv (init : buffer) (j : Z) (tileData : buffer) : Prop :=
  length tileData = length init /\
  forall p c, 0 <= p < j -> 0 <= c < 4 ->
    readIdx tileData (p * 4 + c) = Some (if c =? 3 then 255 else 0).

(** *** Tile grid *)

(** The encoder calls made for the first [k] tiles of a face, in row-major
    order over an [n * n] grid: tile [i] is at column [i mod n], row [i / n]. *)
Definition gridAttempts (face : buffer) (config : TileConfig) (faceSize n k : Z) : history :=
  (fun i => mkAttempt (Server.tilePixels face (i mod n) (i / n) config faceSize) 1)
    <$> seqZ 0 k.

(** The key belongs to the [n * n] grid of face [faceName] at level [z]. *)
Definition inGrid (z : Z) (faceName : string) (n : Z) (key : Server.tileKey) : Prop :=
  exists x y, 0 <= x < n /\ 0 <= y < n /\ key = (z, faceName, y, x).

(** State of the tile table when the tiles of linear index below [k] are stored. *)
Definition sliceInv {Blob : Type} (z : Z) (faceName : string) (n : Z)
    (tiles0 : gmap Server.tileKey Blob) (k : Z) (tiles : gmap Server.tileKey Blob) : Prop :=
  (forall x y, 0 <= x < n -> 0 <= y < n -> y * n + x < k ->
     is_Some (tiles !! (z, faceName, y, x))) /\
  (forall key, ~ inGrid z faceName n key -> tiles !! key = tiles0 !! key).

(** *** Flat images *)

(** Every pixel of the image has the RGB value [(r, g, b)]. *)
Definition flat_image (img : ImageBitmap) (r g b : Z) : Prop :=
  valid_image img /\
  forall k, 0 <= k < img_width img * img_height img ->
    readIdx (img_data img) (k * 4) = Some r /\
    readIdx (img_data img) (k * 4 + 1) = Some g /\
    readIdx (img_data img) (k * 4 + 2) = Some b.

(** The 4 x 2 image whose pixels are all [(128, 64, 32)], opaque. *)
Definition flat42 : ImageBitmap :=
  mkImage 4 2 (concat (replicate 8 [128; 64; 32; 255])).

(** A 3 x 3 face with distinct bytes, for a 2 x 2 grid of tiles of side 2. *)
Definition face33 : buffer := Z.of_nat <$> seq 0 36.

(** *** Tile table of a conversion *)

(** Every tile of the levels below [z], and of the faces below [face] at
    level [z], is in the table. *)
Definition tilesDone {Blob : Type} (z face : Z) (tiles : gmap Server.tileKey Blob) : Prop :=
  forall z' config face' x y,
    Server.tileConfigs !! Z.to_nat z' = Some config ->
    0 <= z' -> 0 <= face' < 6 ->
    z' < z \/ (z' = z /\ face' < face) ->
    0 <= x < Server.tilesPerSide config -> 0 <= y < Server.tilesPerSide config ->
    is_Some (tiles !! (z', Server.faceNameAt face', y, x)).

(** An encoder that refuses maximum quality and accepts any other. *)
Definition pickyEncoder (h : history) (pixels : buffer) (quality : Q) : completion unit :=
  if Qeq_bool quality 1 then Throw (EncodeError quality) else Return tt.

(** An encoder and an archive writer that always succeed. *)
Definition anyEncoder (h : history) (pixels : buffer) (quality : Q) : completion unit :=
  Return tt.
Definition anyArchive (tiles : gmap Server.tileKey unit) (configs : list TileConfig)
    : completion unit :=
  Return tt.

(** * The rest of the sources

    The functions of the three source files that the modules above leave
    out, with the vocabulary of their properties. *)

(** [a % b] on integers: the remainder has the sign of [a], and [a % 0]
    is NaN. *)
Definition irem (a b : inum) : inum :=
  match a, b with
  | Some x, Some y => if y =? 0 then None else Some (Z.rem x y)
  | _, _ => None
  end.

(** ** The rest of class PanoramaConverter
    (src/components/panorama-converter.tsx) *)

Module ClientRest.

(** The nearest-pixel sampler. *)
Definition sampleEquirectangular
    (imgData : buffer) (u v : number) (width height : Z) : pixel :=
  let x := irem (Math_floor (nmul u (fin (IZR width)))) (Some width) in
  let y := irem (Math_floor (nmul v (fin (IZR height)))) (Some height) in
  let idx := imul (iadd (imul y (Some width)) x) (Some 4) in
  (read imgData idx, read imgData (iadd idx (Some 1)), read imgData (iadd idx (Some 2))).

End ClientRest.

(** *** Vocabulary *)

(** [r] lies between the least and the greatest of four values. *)
Definition within4 (a b c d r : Z) : Prop :=
  Z.min (Z.min a b) (Z.min c d) <= r <= Z.max (Z.max a b) (Z.max c d).

(** The column read by the nearest-pixel sampler for a finite [u] in
    [0, 1]: [floor(u * n) mod n]. *)
Definition nearestIndex (u : R) (n : Z) : Z := Zfloor (u * IZR n) mod n.

(** A 2 x 1 image with two different pixels. *)
Definition twoPixels : ImageBitmap := mkImage 2 1 [10; 20; 30; 255; 40; 50; 60; 255].

(** *** Tile table and encoder record of a whole conversion *)

(** The key of a tile of the level table: level [z], one of the six face
    names, a position of the grid of that level. *)
Definition gridKey (key : Server.tileKey) : Prop :=
  exists z config face x y,
    Server.tileConfigs !! Z.to_nat z = Some config /\
    0 <= z /\ 0 <= face < 6 /\
    0 <= x < Server.tilesPerSide config /\ 0 <= y < Server.tilesPerSide config /\
    key = (z, Server.faceNameAt face, y, x).

(** The key of a tile that the loops make before tile number [k] (in
    row-major order over a grid of [n] columns) of face [face] at level [z]. *)
Definition madeBefore (z face n k : Z) (key : Server.tileKey) : Prop :=
  exists z' config face' x y,
    Server.tileConfigs !! Z.to_nat z' = Some config /\
    0 <= z' /\ 0 <= face' < 6 /\
    0 <= x < Server.tilesPerSide config /\ 0 <= y < Server.tilesPerSide config /\
    key = (z', Server.faceNameAt face', y, x) /\
    (z' < z \/ (z' = z /\ (face' < face \/ (face' = face /\ y * n + x < k)))).

(** Number of tiles of the levels below [z]. *)
Definition tilesBefore (z : Z) : Z :=
  foldr Z.add 0
    (map (fun c => 6 * Server.tilesPerSide c * Server.tilesPerSide c)
       (take (Z.to_nat z) Server.tileConfigs)).

(** The table holds only keys made so far, and one tile for each. *)
Definition tableInv {Blob : Type} (z face n k count : Z)
    (tiles : gmap Server.tileKey Blob) : Prop :=
  (forall key, is_Some (tiles !! key) -> madeBefore z face n k key) /\
  Z.of_nat (base.size tiles) = count.

(** The encoder calls of one tile: on the route one call at quality 1.0;
    in the logging variant that call, or that call followed by one call at
    quality 0.9 with the same pixels. *)
Definition routeBlock (block : history) : Prop :=
  exists pixels, block = [mkAttempt pixels 1].
Definition retryBlock (block : history) : Prop :=
  exists pixels,
    block = [mkAttempt pixels 1] \/
    block = [mkAttempt pixels 1; mkAttempt pixels (9 # 10)].

(** [calls] is made of [n] blocks, one for each tile. *)
Definition callBlocks (B : history -> Prop) (calls : history) (n : Z) : Prop :=
  exists blocks, calls = concat blocks /\ Z.of_nat (length blocks) = n /\ Forall B blocks.

(** ** Printed tile keys and archive entries

    [processImage] keys the tile table by the template string
    [`${z}/${faceName}/${y}/${x}`]; [createZipFile] stores each tile under
    [`${tilePath}.jpg`] and the description of the levels under
    [config.json].  Integers print in decimal ([pretty]). *)

Definition numberToString (i : inum) : string :=
  match i with
  | Some z => pretty z
  | None => "NaN"
  end.

Definition tilePath (key : Server.tileKey) : string :=
  let '(z, faceName, y, x) := key in
  pretty z +:+ "/" +:+ faceName +:+ "/" +:+ pretty y +:+ "/" +:+ pretty x.

(** The object whose property names are the printed keys of [tiles]. *)
Definition printed {A : Type} (tiles : gmap Server.tileKey A) : gmap string A :=
  list_to_map ((fun entry => (tilePath entry.1, entry.2)) <$> map_to_list tiles).

(** The names given to [zip.file], tiles first (in the order of
    [Object.entries]), [config.json] last. *)
Definition zipFileNames {A : Type} (tiles : gmap Server.tileKey A) : list string :=
  ((fun entry => tilePath entry.1 +:+ ".jpg") <$> map_to_list tiles) ++ ["config.json"].

(** ** The preview (src/components/marzipano-viewer.tsx) *)

Module MarzipanoViewer.

(** [`${Math.floor(cubemapData.maxZoom / 2)}/4/0/0`]. *)
Definition frontTileKey (maxZoom : number) : string :=
  numberToString (Math_floor (ndiv maxZoom (fin 2))) +:+ "/4/0/0".

(** [cubemapData.tiles[frontTileKey]]: the image drawn when it is defined. *)
Definition tileData {A : Type} (tiles : gmap string A) (maxZoom : number) : option A :=
  tiles !! frontTileKey maxZoom.

End MarzipanoViewer.

(** *** Vocabulary *)

(** The string has no [/]. *)
Fixpoint noSlash (s : string) : bool :=
  match s with
  | EmptyString => true
  | String c s' => negb (Ascii.eqb c "/"%char) && noSlash s'
  end.

(** ** The conversion of class PanoramaConverter
    (src/components/panorama-converter.tsx)

    [tileConfigs], [faceNames] and [Math.ceil(config.size / config.tileSize)]
    are the text of the server's and are shared with it.  The tile canvas
    ([drawImage] of a region of the face canvas onto a blank canvas of side
    [tileSize], then [toDataURL("image/jpeg", 1.0)]) and the archive
    ([createZipFile]) are parameters that may throw; the calls of
    [onProgress] are recorded in order. *)

Definition bindC {A B : Type} (c : completion A) (k : A -> completion B) : completion B :=
  match c with
  | Return a => k a
  | Throw e => Throw e
  end.

Module PanoramaConverter.

(** The variables of [processImage] that the loops update, and the record
    of the arguments given to [onProgress]. *)
Record State : Type := mkState {
  st_tiles : gmap Server.tileKey string;
  st_processedTiles : Z;
  st_reports : list number;
}.

Record CubemapData : Type := mkCubemap {
  tiles : gmap Server.tileKey string;
  zipUrl : string;
  totalTiles : Z;
  zoomLevels : Z;
  maxZoom : Z;
  tileConfigs : list TileConfig;
}.

Section Converter.

Variable toDataURL : buffer -> Z -> Z -> Z -> Z -> Z -> completion string.
Variable createZipFile : gmap Server.tileKey string -> completion string.

Definition configAt (z : Z) : completion TileConfig :=
  match Client.tileConfigs !! Z.to_nat z with
  | Some config => Return config
  | None => Throw TypeError
  end.

(** The first loop of [processImage]. *)
Definition countTiles (maxZoom : Z) : completion Z :=
  for_rangeC (maxZoom + 1) (fun z totalTiles =>
    bindC (configAt z) (fun config =>
      let tilesPerSide := Server.tilesPerSide config in
      Return (totalTiles + 6 * tilesPerSide * tilesPerSide)))
    0.

(** [if (onProgress) onProgress((processedTiles / totalTiles) * 100)]. *)
Definition report (onProgress : bool) (processedTiles totalTiles : Z)
    (reports : list number) : list number :=
  if onProgress
  then reports ++ [nmul (ndiv (fin (IZR processedTiles)) (fin (IZR totalTiles))) (fin 100)]
  else reports.

(** The body of the innermost loop: one tile. *)
Definition tileStep (onProgress : bool) (totalTiles : Z) (faceCanvas : buffer)
    (config : TileConfig) (faceSize z : Z) (faceName : string) (y x : Z) (st : State)
    : completion State :=
  let sourceX := x * tileSize config in
  let sourceY := y * tileSize config in
  let sourceWidth := Z.min (tileSize config) (faceSize - sourceX) in
  let sourceHeight := Z.min (tileSize config) (faceSize - sourceY) in
  bindC (toDataURL faceCanvas sourceX sourceY sourceWidth sourceHeight (tileSize config))
    (fun dataUrl =>
       let tiles := <[(z, faceName, y, x) := dataUrl]> (st_tiles st) in
       let processedTiles := st_processedTiles st + 1 in
       Return (mkState tiles processedTiles
                 (report onProgress processedTiles totalTiles (st_reports st)))).

(** The second loop nest of [processImage]. *)
Definition generateTiles (onProgress : bool) (totalTiles : Z) (img : ImageBitmap)
    (maxZoom : Z) : completion State :=
  for_rangeC (maxZoom + 1) (fun z st =>
    bindC (configAt z) (fun config =>
      let tilesPerSide := Server.tilesPerSide config in
      let faceSize := size config in
      for_rangeC 6 (fun face st =>
        bindC (Client.generateCubeFace img face faceSize) (fun faceCanvas =>
          let faceName := Server.faceNameAt face in
          for_rangeC tilesPerSide (fun y st =>
            for_rangeC tilesPerSide (fun x st =>
              tileStep onProgress totalTiles faceCanvas config faceSize z faceName y x st)
              st)
            st))
        st))
    (mkState ∅ 0 []).

(** [processImage(img, onProgress)]: the returned object and the record
    of the progress reports. *)
Definition processImage (img : ImageBitmap) (onProgress : bool)
    : completion (CubemapData * list number) :=
  let maxZoom := Z.of_nat (length Client.tileConfigs) - 1 in
  let zoomLevels := maxZoom + 1 in
  bindC (countTiles maxZoom) (fun totalTiles =>
    bindC (generateTiles onProgress totalTiles img maxZoom) (fun st =>
      bindC (createZipFile (st_tiles st)) (fun zipUrl =>
        Return (mkCubemap (st_tiles st) zipUrl totalTiles zoomLevels maxZoom
                  Client.tileConfigs,
                st_reports st)))).

End Converter.

End PanoramaConverter.

(** *** Vocabulary *)

(** The progress reported after tile number [k] of 132. *)
Definition progressValue (k : Z) : number := fin (IZR k / 132 * 100).

(** State of the client loops before tile number [k] of face [face] at
    level [z], when [count] tiles are made: the table holds exactly the tiles
    made so far, the counter is [count] and one report was made for each. *)
Definition clientInv (onProgress : bool) (z face n k count : Z)
    (st : PanoramaConverter.State) : Prop :=
  (forall key, is_Some (PanoramaConverter.st_tiles st !! key) <-> madeBefore z face n k key) /\
  Z.of_nat (base.size (PanoramaConverter.st_tiles st)) = count /\
  PanoramaConverter.st_processedTiles st = count /\
  PanoramaConverter.st_reports st
    = (if onProgress then progressValue <$> seqZ 1 count else []).

(** A canvas encoder and an archive writer that always succeed. *)
Definition anyDataURL (faceCanvas : buffer) (sx sy sw sh ts : Z) : completion string :=
  Return "data:image/jpeg;base64,"%string.
Definition anyZipUrl (tiles : gmap Server.tileKey string) : completion string :=
  Return "blob:zip"%string.

(** ** The route: [convertFromUrl] and [POST]
    (src/unnamed/part_000 and src/app/page.tsx)

    The request body, the URL parser, [fetch], [createImageBitmap] and the
    environment (whether [OffscreenCanvas] exists and whether it gives a 2D
    context) are parameters.  A handler runs on the record of encoder calls
    and is fulfilled with a value or rejected with a thrown value. *)

Module Route.

(** A parsed JSON value. *)
#[warnings="-register-all"] Inductive json : Type :=
| JNull
| JBool (b : bool)
| JNumber (n : R)
| JString (s : string)
| JArray (items : list json)
| JObject (fields : list (string * json)).

(** A thrown value: an [Error] with its message, or anything else. *)
Inductive thrown : Type :=
| ErrorObject (message : string)
| OtherValue.

Inductive outcome (A : Type) : Type :=
| Fulfilled (a : A)
| Rejected (t : thrown).
Arguments Fulfilled {A} a.
Arguments Rejected {A} t.

Definition P (A : Type) : Type := history -> outcome A * history.

Definition retP {A} (a : A) : P A := fun h => (Fulfilled a, h).
Definition failP {A} (t : thrown) : P A := fun h => (Rejected t, h).
Definition liftP {A} (o : outcome A) : P A := fun h => (o, h).
Definition bindP {A B} (m : P A) (k : A -> P B) : P B :=
  fun h =>
    match m h with
    | (Fulfilled a, h') => k a h'
    | (Rejected t, h') => (Rejected t, h')
    end.
Definition try_catchP {A} (m : P A) (handler : thrown -> P A) : P A :=
  fun h =>
    match m h with
    | (Fulfilled a, h') => (Fulfilled a, h')
    | (Rejected t, h') => handler t h'
    end.

(** [error instanceof Error ? error.message : fallback]. *)
Definition messageOr (fallback : string) (t : thrown) : string :=
  match t with
  | ErrorObject message => message
  | OtherValue => fallback
  end.

(** The property [name] of a parsed object: the last member of that name. *)
Fixpoint getProp (name : string) (fields : list (string * json)) : option json :=
  match fields with
  | [] => None
  | (k, v) :: rest =>
      match getProp name rest with
      | Some w => Some w
      | None => if String.eqb k name then Some v else None
      end
  end.

(** [!!v] for a parsed value. *)
Definition truthy (v : json) : bool :=
  match v with
  | JNull => false
  | JBool b => b
  | JNumber n => if Req_dec_T n 0 then false else true
  | JString s => negb (String.eqb s "")
  | JArray _ => true
  | JObject _ => true
  end.

(** The double quote, for the one header that contains it. *)
Definition dquote : string := String "034"%char EmptyString.

Record FetchResponse {Bytes : Type} : Type := mkFetchResponse {
  ok : bool;
  status : Z;
  statusText : string;
  arrayBuffer : outcome Bytes;
}.
Arguments FetchResponse Bytes : clear implicits.

Inductive ResponseBody {Zip : Type} : Type :=
| JsonBody (members : list (string * string))
| ZipBody (zip : Zip).
Arguments ResponseBody Zip : clear implicits.

Record Response {Zip : Type} : Type := mkResponse {
  res_status : Z;
  res_body : ResponseBody Zip;
  res_headers : list (string * string);
}.
Arguments Response Zip : clear implicits.

(** [NextResponse.json(members, { status })]. *)
Definition jsonResponse {Zip : Type} (members : list (string * string)) (status : Z)
    : Response Zip :=
  mkResponse Zip status (JsonBody members) [].

(** The collaborators of the handler: [new URL(imageUrl)] does not
    throw, [fetch], [createImageBitmap], whether [OffscreenCanvas] exists and
    whether it gives a 2D context, the value that a failed conversion rejects
    with, the [TypeError] of reading a property of [null] and the
    [ReferenceError] of a missing [OffscreenCanvas]. *)
Record Env {Bytes : Type} : Type := mkEnv {
  urlValid : json -> bool;
  fetch : json -> outcome (FetchResponse Bytes);
  createImageBitmap : Bytes -> outcome ImageBitmap;
  hasOffscreenCanvas : bool;
  has2dContext : bool;
  thrownBy : error -> thrown;
  typeError : thrown;
  referenceError : thrown;
}.
Arguments Env Bytes : clear implicits.

Section Handler.

Context {Blob Zip Bytes : Type}.
Variable env : Env Bytes.
Variable convertToBlob : history -> buffer -> Q -> completion Blob.
Variable generateAsync : gmap Server.tileKey Blob -> list TileConfig -> completion Zip.

(** A conversion lifted to the handler. *)
Definition ofM {A} (m : M A) : P A :=
  fun h =>
    match m h with
    | (Return a, h') => (Fulfilled a, h')
    | (Throw e, h') => (Rejected (thrownBy env e), h')
    end.

(** [const { imageUrl } = body]. *)
Definition destructure (body : json) : outcome (option json) :=
  match body with
  | JNull => Rejected (typeError env)
  | JObject fields => Fulfilled (getProp "imageUrl" fields)
  | _ => Fulfilled None
  end.

Definition okResponse (result : Server.Result (Zip := Zip)) : Response Zip :=
  mkResponse Zip 200 (ZipBody (Server.zipBuffer result))
    [ ("Content-Type", "application/zip");
      ("Content-Disposition",
       "attachment; filename=" +:+ dquote +:+ "cubemap-tiles.zip" +:+ dquote);
      ("X-Total-Tiles", pretty (Server.totalTiles result));
      ("X-Zoom-Levels", pretty (Server.zoomLevels result));
      ("X-Max-Zoom", pretty (Server.maxZoom result)) ]%string.

(** [ServerPanoramaConverter.convertFromUrl] of src/unnamed/part_000,
    parameterised by [processImage].  Without a 2D context the first
    [generateCubeFace] of [processImage] throws on [sourceCtx.drawImage],
    before any encoder call. *)
Definition convertFromUrlWith
    (processImage : ImageBitmap -> M (Server.Result (Zip := Zip)))
    (imageUrl : json) : P (Server.Result (Zip := Zip)) :=
  bindP (liftP (fetch env imageUrl)) (fun response =>
    if negb (ok response)
    then failP (ErrorObject ("Failed to fetch image: " +:+ statusText response))
    else
      bindP (liftP (arrayBuffer response)) (fun imageBuffer =>
        if negb (hasOffscreenCanvas env) then failP (referenceError env)
        else
          bindP (liftP (createImageBitmap env imageBuffer)) (fun imageBitmap =>
            if negb (has2dContext env) then failP (typeError env)
            else ofM (processImage imageBitmap)))).

Definition convertFromUrl : json -> P (Server.Result (Zip := Zip)) :=
  convertFromUrlWith (Server.processImage convertToBlob generateAsync).

(** [POST] of src/unnamed/part_000, parameterised by [convertFromUrl];
    [request] is the outcome of [request.json()]. *)
Definition POSTWith (convertFromUrl : json -> P (Server.Result (Zip := Zip)))
    (request : outcome json) : P (Response Zip) :=
  try_catchP
    (bindP (liftP request) (fun body =>
       bindP (liftP (destructure body)) (fun imageUrl =>
         match imageUrl with
         | Some url =>
             if negb (truthy url)
             then retP (jsonResponse [("error", "Image URL is required")]%string 400)
             else if negb (urlValid env url)
             then retP (jsonResponse [("error", "Invalid URL format")]%string 400)
             else bindP (convertFromUrl url) (fun result => retP (okResponse result))
         | None => retP (jsonResponse [("error", "Image URL is required")]%string 400)
         end)))
    (fun error =>
       retP (jsonResponse [("error", "Failed to convert panorama image")]%string 500)).

Definition POST : outcome json -> P (Response Zip) := POSTWith convertFromUrl.

(** [convertFromUrl] of src/app/page.tsx. *)
Definition convertFromUrlV0With
    (processImage : ImageBitmap -> M (Server.Result (Zip := Zip)))
    (imageUrl : json) : P (Server.Result (Zip := Zip)) :=
  try_catchP
    (bindP (liftP (fetch env imageUrl)) (fun response =>
       if negb (ok response)
       then failP (ErrorObject ("Failed to fetch image: " +:+ pretty (status response)
                                +:+ " " +:+ statusText response))
       else
         bindP (liftP (arrayBuffer response)) (fun imageBuffer =>
           if negb (hasOffscreenCanvas env)
           then failP (ErrorObject "OffscreenCanvas is not available in this environment")
           else if negb (has2dContext env)
           then failP (ErrorObject "Failed to get 2D context from OffscreenCanvas")
           else
             bindP (try_catchP (liftP (createImageBitmap env imageBuffer))
                      (fun error =>
                         failP (ErrorObject ("Failed to create ImageBitmap: "
                                             +:+ messageOr "Unknown error" error))))
               (fun imageBitmap => ofM (processImage imageBitmap)))))
    (fun error => failP error).

Definition convertFromUrlV0 : json -> P (Server.Result (Zip := Zip)) :=
  convertFromUrlV0With (ServerV0.processImage convertToBlob generateAsync).

(** [POST] of src/app/page.tsx. *)
Definition POSTV0With (convertFromUrl : json -> P (Server.Result (Zip := Zip)))
    (request : outcome json) : P (Response Zip) :=
  try_catchP
    (match request with
     | Rejected _ =>
         retP (jsonResponse [("error", "Invalid JSON in request body")]%string 400)
     | Fulfilled body =>
         bindP (liftP (destructure body)) (fun imageUrl =>
           match imageUrl with
           | Some url =>
               if negb (truthy url)
               then retP (jsonResponse [("error", "Image URL is required")]%string 400)
               else if negb (urlValid env url)
               then retP (jsonResponse [("error", "Invalid URL format")]%string 400)
               else bindP (convertFromUrl url) (fun result => retP (okResponse result))
           | None => retP (jsonResponse [("error", "Image URL is required")]%string 400)
           end)
     end)
    (fun error =>
       retP (jsonResponse
               [("error", "Failed to convert panorama image");
                ("details", messageOr "Unknown error occurred" error)]%string
               500)).

Definition POSTV0 : outcome json -> P (Response Zip) := POSTV0With convertFromUrlV0.

End Handler.

End Route.

(** *** Vocabulary *)

(** The steps that a fulfilled [convertFromUrl] has taken. *)
Definition fetched {Bytes : Type} (env : Route.Env Bytes) (url : Route.json)
    (img : ImageBitmap) : Prop :=
  exists response imageBuffer,
    Route.fetch env url = Route.Fulfilled response /\ Route.ok response = true /\
    Route.arrayBuffer response = Route.Fulfilled imageBuffer /\
    Route.hasOffscreenCanvas env = true /\
    Route.createImageBitmap env imageBuffer = Route.Fulfilled img /\
    Route.has2dContext env = true.

(** The request passes the two checks of the handler with image URL [url]. *)
Definition accepted {Bytes : Type} (env : Route.Env Bytes)
    (request : Route.outcome Route.json) (url : Route.json) : Prop :=
  exists body,
    request = Route.Fulfilled body /\
    Route.destructure env body = Route.Fulfilled (Some url) /\
    Route.truthy url = true /\ Route.urlValid env url = true.

(** The request is answered by one of the two checks. *)
Definition refused {Zip Bytes : Type} (env : Route.Env Bytes)
    (request : Route.outcome Route.json) (resp : Route.Response Zip) : Prop :=
  exists body imageUrl,
    request = Route.Fulfilled body /\
    Route.destructure env body = Route.Fulfilled imageUrl /\
    ((resp = Route.jsonResponse [("error", "Image URL is required")]%string 400 /\
      (imageUrl = None \/ exists url, imageUrl = Some url /\ Route.truthy url = false)) \/
     (resp = Route.jsonResponse [("error", "Invalid URL format")]%string 400 /\
      exists url, imageUrl = Some url /\ Route.truthy url = true /\
                  Route.urlValid env url = false)).

(** The generic answer of the route to a failure. *)
Definition failedResponse {Zip : Type} : Route.Response Zip :=
  Route.jsonResponse [("error", "Failed to convert panorama image")]%string 500.

(** A body with an image URL, and collaborators that always succeed. *)
Definition goodBody : Route.json :=
  Route.JObject [("imageUrl", Route.JString "https://example.com/p.jpg")]%string.
Definition goodEnv : Route.Env unit :=
  Route.mkEnv unit (fun _ => true)
    (fun _ => Route.Fulfilled (Route.mkFetchResponse unit true 200 "OK" (Route.Fulfilled tt)))
    (fun _ => Route.Fulfilled flat42) true true
    (fun _ => Route.OtherValue) Route.OtherValue Route.OtherValue.

(** ** The API client (ApiConverter of src/components/marzipano-viewer.tsx)

    [String.prototype.trim], [Number.parseInt], [URL.createObjectURL] of the
    blob of the body, and the [fetch] of the conversion API are parameters;
    [handleConvert] runs from a state of the component to the state after its
    last update, with the messages given to [alert]. *)

Module ApiConverter.

Record Result : Type := mkResult {
  downloadUrl : string;
  totalTiles : inum;
  zoomLevels : inum;
  maxZoom : inum;
}.

Record State : Type := mkState {
  imageUrl : string;
  isConverting : bool;
  progress : Z;
  result : option Result;
}.

(** The first member of that name: [response.headers.get(name)] on the
    headers the handler sets, a member of a parsed object. *)
Fixpoint member (name : string) (members : list (string * string)) : option string :=
  match members with
  | [] => None
  | (k, v) :: rest => if String.eqb k name then Some v else member name rest
  end.

(** [value || fallback] for a string that may be missing. *)
Definition orElse (value : option string) (fallback : string) : string :=
  match value with
  | Some v => if String.eqb v "" then fallback else v
  | None => fallback
  end.

Section Handler.

Context {Zip : Type}.
Variable trim : string -> string.
Variable parseInt : string -> inum.
Variable createObjectURL : Route.ResponseBody Zip -> string.
Variable fetchApi : string -> Route.outcome (Route.Response Zip).
(** What [response.json()] rejects with on a body that is not JSON. *)
Variable jsonError : Route.thrown.

(** [response.ok]. *)
Definition ok (response : Route.Response Zip) : bool :=
  (200 <=? Route.res_status response) && (Route.res_status response <=? 299).

Definition handleConvert (st : State) : State * list string :=
  if String.eqb (trim (imageUrl st)) "" then (st, [])
  else
    let st1 := mkState (imageUrl st) true 0 None in
    let '(st2, alerts) :=
      match fetchApi (trim (imageUrl st)) with
      | Route.Rejected t => (st1, [Route.messageOr "Conversion failed" t])
      | Route.Fulfilled response =>
          if negb (ok response) then
            match Route.res_body response with
            | Route.JsonBody members =>
                (st1, [orElse (member "error" members) "Conversion failed"])
            | Route.ZipBody _ => (st1, [Route.messageOr "Conversion failed" jsonError])
            end
          else
            let headers := Route.res_headers response in
            let totalTiles := parseInt (orElse (member "X-Total-Tiles" headers) "0") in
            let zoomLevels := parseInt (orElse (member "X-Zoom-Levels" headers) "0") in
            let maxZoom := parseInt (orElse (member "X-Max-Zoom" headers) "0") in
            let downloadUrl := createObjectURL (Route.res_body response) in
            (mkState (imageUrl st) true 100
               (Some (mkResult downloadUrl totalTiles zoomLevels maxZoom)), [])
      end in
    (mkState (imageUrl st2) false (progress st2) (result st2), alerts).

End Handler.

End ApiConverter.

(** *** Vocabulary *)

(** The conversion API as the client reaches it: the answer of a handler
    to the body [{ imageUrl }], from the record [h] of encoder calls. *)
Definition apiOf {Zip : Type}
    (post : Route.outcome Route.json -> Route.P (Route.Response Zip)) (h : history)
    (imageUrl : string) : Route.outcome (Route.Response Zip) :=
  (post (Route.Fulfilled (Route.JObject [("imageUrl", Route.JString imageUrl)]%string)) h).1.

(** A [parseInt] that reads the three counts. *)
Definition parseCounts (s : string) : inum :=
  if String.eqb s "132" then Some 132
  else if String.eqb s "4" then Some 4
  else if String.eqb s "3" then Some 3
  else None.

(** * Properties *)

(** ** Loops *)

Section LoopInvariants.

Context {St : Type}.

Lemma loop_from_inv (P : Z -> St -> Prop) (body : Z -> St -> St) :
  forall (fuel : nat) (i : Z) (s : St),
    P i s ->
    (forall j t, i <= j < i + Z.of_nat fuel -> P j t -> P (j + 1) (body j t)) ->
    P (i + Z.of_nat fuel) (loop_from fuel i body s).
Proof.
  induction fuel as [|k IH]; intros i s Hs Hstep; simpl loop_from.
  - now replace (i + Z.of_nat 0) with i by lia.
  - replace (i + Z.of_nat (S k)) with ((i + 1) + Z.of_nat k) by lia.
    apply IH.
    + apply Hstep; [lia | exact Hs].
    + intros j t Hj. apply Hstep. lia.
Qed.

Lemma for_range_inv (P : Z -> St -> Prop) (body : Z -> St -> St) (n : Z) (s : St) :
  0 <= n ->
  P 0 s ->
  (forall j t, 0 <= j < n -> P j t -> P (j + 1) (body j t)) ->
  P n (for_range n body s).
Proof.
  intros Hn Hs Hstep. unfold for_range.
  replace n with (0 + Z.of_nat (Z.to_nat n)) at 1 by lia.
  apply loop_from_inv; [exact Hs|].
  intros j t Hj. apply Hstep. lia.
Qed.

Lemma for_range_neg (body : Z -> St -> St) (n : Z) (s : St) :
  n <= 0 -> for_range n body s = s.
Proof.
  intros Hn. unfold for_range. now replace (Z.to_nat n) with O by lia.
Qed.

Lemma loop_fromC_inv (P : Z -> St -> Prop) (body : Z -> St -> completion St) :
  forall (fuel : nat) (i : Z) (s : St),
    P i s ->
    (forall j t, i <= j < i + Z.of_nat fuel -> P j t ->
       exists t', body j t = Return t' /\ P (j + 1) t') ->
    exists s', loop_fromC fuel i body s = Return s' /\ P (i + Z.of_nat fuel) s'.
Proof.
  induction fuel as [|k IH]; intros i s Hs Hstep; simpl loop_fromC.
  - exists s. split; [reflexivity|]. now replace (i + Z.of_nat 0) with i by lia.
  - destruct (Hstep i s) as (t' & Hb & Ht'); [lia | exact Hs |].
    rewrite Hb.
    replace (i + Z.of_nat (S k)) with ((i + 1) + Z.of_nat k) by lia.
    apply IH; [exact Ht'|].
    intros j t Hj. apply Hstep. lia.
Qed.

Lemma for_rangeC_inv (P : Z -> St -> Prop) (body : Z -> St -> completion St)
    (n : Z) (s : St) :
  0 <= n ->
  P 0 s ->
  (forall j t, 0 <= j < n -> P j t -> exists t', body j t = Return t' /\ P (j + 1) t') ->
  exists s', for_rangeC n body s = Return s' /\ P n s'.
Proof.
  intros Hn Hs Hstep. unfold for_rangeC.
  pose proof (loop_fromC_inv P body (Z.to_nat n) 0 s Hs) as H.
  rewrite Z2Nat.id, Z.add_0_l in H by exact Hn.
  apply H. intros j t Hj. apply Hstep. lia.
Qed.

Lemma loop_fromM_inv (P : Z -> St -> history -> Prop) (body : Z -> St -> M St) :
  forall (fuel : nat) (i : Z) (s : St) (h : history),
    P i s h ->
    (forall j t g, i <= j < i + Z.of_nat fuel -> P j t g ->
       exists t' g', body j t g = (Return t', g') /\ P (j + 1) t' g') ->
    exists s' h',
      loop_fromM fuel i body s h = (Return s', h') /\ P (i + Z.of_nat fuel) s' h'.
Proof.
  induction fuel as [|k IH]; intros i s h Hs Hstep; simpl loop_fromM.
  - exists s, h. split; [reflexivity|]. now replace (i + Z.of_nat 0) with i by lia.
  - destruct (Hstep i s h) as (t' & g' & Hb & Ht'); [lia | exact Hs |].
    unfold bind at 1. rewrite Hb.
    replace (i + Z.of_nat (S k)) with ((i + 1) + Z.of_nat k) by lia.
    apply IH; [exact Ht'|].
    intros j t g Hj. apply Hstep. lia.
Qed.

Lemma for_rangeM_inv (P : Z -> St -> history -> Prop) (body : Z -> St -> M St)
    (n : Z) (s : St) (h : history) :
  0 <= n ->
  P 0 s h ->
  (forall j t g, 0 <= j < n -> P j t g ->
     exists t' g', body j t g = (Return t', g') /\ P (j + 1) t' g') ->
  exists s' h', for_rangeM n body s h = (Return s', h') /\ P n s' h'.
Proof.
  intros Hn Hs Hstep. unfold for_rangeM.
  pose proof (loop_fromM_inv P body (Z.to_nat n) 0 s h Hs) as H.
  rewrite Z2Nat.id, Z.add_0_l in H by exact Hn.
  apply H. intros j t g Hj. apply Hstep. lia.
Qed.

Lemma loop_by_inv (Q : Z -> St -> Prop) (body : Z -> St -> St) (step : Z) :
  forall (fuel : nat) (m : Z) (s : St),
    Q m s ->
    (forall j t, m <= j < m + Z.of_nat fuel -> Q j t -> Q (j + 1) (body (j * step) t)) ->
    Q (m + Z.of_nat fuel) (loop_by fuel (m * step) step body s).
Proof.
  induction fuel as [|k IH]; intros m s Hs Hstep; simpl loop_by.
  - now replace (m + Z.of_nat 0) with m by lia.
  - replace (m + Z.of_nat (S k)) with ((m + 1) + Z.of_nat k) by lia.
    replace (m * step + step) with ((m + 1) * step) by ring.
    apply IH.
    + apply Hstep; [lia | exact Hs].
    + intros j t Hj. apply Hstep. lia.
Qed.

End LoopInvariants.

(** ** Typed-array reads and writes *)

Lemma length_write (data : buffer) (idx : Z) (v : option Z) :
  length (write data idx v) = length data.
Proof.
  unfold write. destruct (idx <? 0); [reflexivity | apply length_insert].
Qed.

Lemma readIdx_write_eq (data : buffer) (idx : Z) (v : option Z) :
  0 <= idx < Z.of_nat (length data) ->
  readIdx (write data idx v) idx = Some (toUint8Clamp v).
Proof.
  intros H. unfold readIdx, write.
  destruct (Z.ltb_spec idx 0) as [Hneg|_]; [lia|].
  apply list_lookup_insert_eq. lia.
Qed.

Lemma readIdx_write_ne (data : buffer) (idx j : Z) (v : option Z) :
  idx <> j -> readIdx (write data idx v) j = readIdx data j.
Proof.
  intros H. unfold readIdx, write.
  destruct (Z.ltb_spec j 0) as [Hj|Hj]; [reflexivity|].
  destruct (Z.ltb_spec idx 0) as [Hi|Hi]; [reflexivity|].
  apply list_lookup_insert_ne. lia.
Qed.

Lemma readIdx_Some_range (data : buffer) (idx v : Z) :
  readIdx data idx = Some v -> 0 <= idx < Z.of_nat (length data).
Proof.
  unfold readIdx. destruct (Z.ltb_spec idx 0) as [Hi|Hi]; [discriminate|].
  intros H. apply lookup_lt_Some in H. lia.
Qed.

Lemma readIdx_in_range (data : buffer) (idx : Z) :
  0 <= idx < Z.of_nat (length data) -> exists v, readIdx data idx = Some v.
Proof.
  intros H. unfold readIdx. destruct (Z.ltb_spec idx 0) as [Hi|Hi]; [lia|].
  destruct (lookup_lt_is_Some_2 data (Z.to_nat idx)) as [v Hv]; [lia|]. eauto.
Qed.

Lemma length_createImageData (w h : Z) :
  Z.of_nat (length (createImageData w h)) = Z.max 0 (w * h * 4).
Proof. unfold createImageData. rewrite length_replicate. lia. Qed.

Lemma length_createImageData_square (n : Z) :
  Z.of_nat (length (createImageData n n)) = n * n * 4.
Proof. rewrite length_createImageData. assert (0 <= n * n) by nia. lia. Qed.

Lemma readIdx_createImageData (w h idx : Z) :
  0 <= idx < w * h * 4 -> readIdx (createImageData w h) idx = Some 0.
Proof.
  intros H. unfold readIdx, createImageData.
  destruct (Z.ltb_spec idx 0) as [Hi|Hi]; [lia|].
  apply lookup_replicate_2. lia.
Qed.

Lemma length_write4 data idx r g b a : length (write4 data idx r g b a) = length data.
Proof. unfold write4. now rewrite !length_write. Qed.

Lemma readIdx_write4_other data idx r g b a j :
  j < idx \/ idx + 3 < j -> readIdx (write4 data idx r g b a) j = readIdx data j.
Proof.
  intros H. unfold write4. rewrite !readIdx_write_ne by lia. reflexivity.
Qed.

Lemma readIdx_write4 data idx r g b a :
  0 <= idx -> idx + 3 < Z.of_nat (length data) ->
  readIdx (write4 data idx r g b a) idx = Some (toUint8Clamp r) /\
  readIdx (write4 data idx r g b a) (idx + 1) = Some (toUint8Clamp g) /\
  readIdx (write4 data idx r g b a) (idx + 2) = Some (toUint8Clamp b) /\
  readIdx (write4 data idx r g b a) (idx + 3) = Some (toUint8Clamp a).
Proof.
  intros H0 H3. unfold write4. repeat split.
  - rewrite !readIdx_write_ne by lia. apply readIdx_write_eq. lia.
  - rewrite !readIdx_write_ne by lia. apply readIdx_write_eq.
    rewrite !length_write. lia.
  - rewrite !readIdx_write_ne by lia. apply readIdx_write_eq.
    rewrite !length_write. lia.
  - apply readIdx_write_eq. rewrite !length_write. lia.
Qed.

(** ** Face rasterizer *)

Lemma faceUVToEquirectangular_returns (face : Z) (u v : R) :
  Server.faceUVToEquirectangular face u v = Return (equirect face u v).
Proof.
  unfold equirect, Server.faceUVToEquirectangular.
  destruct (Server.faceDirection face (2 * u - 1) (2 * v - 1)) as [[x y] z].
  reflexivity.
Qed.

Lemma row_major_inj (size x y x' y' : Z) :
  0 <= x < size -> 0 <= x' < size ->
  y' * size + x' = y * size + x -> x' = x /\ y' = y.
Proof.
  intros Hx Hx' Heq.
  assert (y' = y) by nia. subst y'. lia.
Qed.

Lemma row_major_bound (size x y : Z) :
  0 <= x < size -> 0 <= y < size -> 0 <= y * size + x < size * size.
Proof. intros Hx Hy. nia. Qed.

Lemma rasterStep_eq (img : ImageBitmap) (face size y x : Z) (faceData : buffer) :
  Server.rasterStep img face size y x faceData =
  let p := rasterVia cornerCoord img face size x y in
  Return (write4 faceData ((y * size + x) * 4) p.1.1 p.1.2 p.2 (Some 255)).
Proof.
  unfold Server.rasterStep, rasterVia, cornerCoord.
  rewrite faceUVToEquirectangular_returns.
  destruct (equirect face (IZR x / IZR size) (IZR y / IZR size)) as [u v].
  reflexivity.
Qed.

Lemma rasterStep_inv (img : ImageBitmap) (face size y x : Z) (faceData : buffer) :
  0 <= x < size -> 0 <= y < size ->
  rasterInv img face size (y * size + x) faceData ->
  exists faceData',
    Server.rasterStep img face size y x faceData = Return faceData' /\
    rasterInv img face size (y * size + (x + 1)) faceData'.
Proof.
  intros Hx Hy [Hlen Hdone].
  rewrite rasterStep_eq. cbv zeta.
  eexists. split; [reflexivity|].
  pose proof (row_major_bound size x y Hx Hy) as Hk.
  split; [now rewrite length_write4|].
  intros x' y' Hx' Hy' Hlt.
  destruct (Z.eq_dec (y' * size + x') (y * size + x)) as [Heq|Hne].
  - destruct (row_major_inj size x y x' y' Hx Hx' Heq) as [-> ->].
    unfold rgbaAt, stored.
    destruct (readIdx_write4 faceData ((y * size + x) * 4)
                (rasterVia cornerCoord img face size x y).1.1
                (rasterVia cornerCoord img face size x y).1.2
                (rasterVia cornerCoord img face size x y).2
                (Some 255)) as (H0 & H1 & H2 & H3); [lia | lia |].
    rewrite H0, H1, H2, H3. reflexivity.
  - unfold rgbaAt. rewrite !readIdx_write4_other by lia.
    apply Hdone; [exact Hx' | exact Hy' | lia].
Qed.

Lemma generateCubeFace_pixels (img : ImageBitmap) (face size : Z) :
  0 <= size ->
  exists faceData,
    Server.generateCubeFace img face size = Return faceData /\
    rasterInv img face size (size * size) faceData.
Proof.
  intros Hsize. unfold Server.generateCubeFace.
  destruct (for_rangeC_inv
              (fun y fd => rasterInv img face size (y * size) fd)
              (fun y fd =>
                 for_rangeC size (fun x fd' => Server.rasterStep img face size y x fd') fd)
              size (createImageData size size) Hsize) as (fd & Hrun & Hinv).
  - split; [apply length_createImageData_square|].
    intros x y Hx Hy Hlt. nia.
  - intros y fd Hy Hinv.
    destruct (for_rangeC_inv
                (fun x fd' => rasterInv img face size (y * size + x) fd')
                (fun x fd' => Server.rasterStep img face size y x fd')
                size fd Hsize) as (fd' & Hrun & Hinv').
    + now rewrite Z.add_0_r.
    + intros x t Hx Ht. now apply rasterStep_inv.
    + exists fd'. split; [exact Hrun|].
      now replace ((y + 1) * size) with (y * size + size) by lia.
  - exists fd. split; [exact Hrun|]. exact Hinv.
Qed.

(** ** The client copies of the mapping and of the sampler *)

Lemma client_faceUV_eq (face : Z) (u v : R) :
  Client.faceUVToEquirectangular face u v = Server.faceUVToEquirectangular face u v.
Proof.
  unfold Client.faceUVToEquirectangular, Server.faceUVToEquirectangular.
  assert (Hdir : Client.faceDirection face (2 * u - 1) (2 * v - 1)
                 = Server.faceDirection face (2 * u - 1) (2 * v - 1))
    by (destruct face as [|p|p]; reflexivity).
  now rewrite Hdir.
Qed.

Lemma client_sample_eq (imgData : buffer) (u v : number) (width height : Z) :
  Client.sampleEquirectangularBilinear imgData u v width height
  = Server.sampleEquirectangularBilinear imgData u v width height.
Proof.
  unfold Client.sampleEquirectangularBilinear, Server.sampleEquirectangularBilinear.
  reflexivity.
Qed.

(** ** Bilinear sampler *)

Lemma clamp01_bound (u : R) : (0 <= clamp01 u <= 1)%R.
Proof.
  unfold clamp01, Rmax, Rmin.
  destruct (Rle_dec 1 u); destruct (Rle_dec 0 _); lra.
Qed.

Lemma clamp01_id (u : R) : (0 <= u <= 1)%R -> clamp01 u = u.
Proof.
  intros H. unfold clamp01, Rmax, Rmin.
  destruct (Rle_dec 1 u); destruct (Rle_dec 0 _); lra.
Qed.

Lemma clamp01_low (u : R) : (u <= 0)%R -> clamp01 u = 0%R.
Proof.
  intros H. unfold clamp01, Rmax, Rmin.
  destruct (Rle_dec 1 u); destruct (Rle_dec 0 _); lra.
Qed.

Lemma clamp01_high (u : R) : (1 <= u)%R -> clamp01 u = 1%R.
Proof.
  intros H. unfold clamp01, Rmax, Rmin.
  destruct (Rle_dec 1 u); destruct (Rle_dec 0 _); lra.
Qed.

(** On finite coordinates the sampler is the blend at the corner indices. *)
Lemma sample_finite (imgData : buffer) (u v : R) (width height : Z) :
  Server.sampleEquirectangularBilinear imgData (fin u) (fin v) width height =
  blend imgData width
    (cornerLo u width) (cornerLo v height) (cornerHi u width) (cornerHi v height)
    (cornerFrac u width) (cornerFrac v height).
Proof. reflexivity. Qed.

(** A NaN coordinate makes every channel NaN. *)
Lemma sample_NaN_v (imgData : buffer) (u : number) (width height : Z) :
  Server.sampleEquirectangularBilinear imgData u NaN width height = (None, None, None).
Proof. destruct u as [u|]; reflexivity. Qed.

Lemma cornerLo_bound (u : R) (n : Z) : 1 <= n -> 0 <= cornerLo u n <= n - 1.
Proof.
  intros Hn. unfold cornerLo.
  pose proof (clamp01_bound u) as Hu.
  assert (Hn' : (0 <= IZR (n - 1))%R) by (apply IZR_le; lia).
  split.
  - apply Zfloor_lub. change (IZR 0) with 0%R. nra.
  - assert (H : Zfloor (clamp01 u * IZR (n - 1)) <= Zfloor (IZR (n - 1)))
      by (apply Zfloor_le; nra).
    now rewrite ZfloorZ in H.
Qed.

Lemma cornerHi_bound (u : R) (n : Z) : 1 <= n -> 0 <= cornerHi u n <= n - 1.
Proof.
  intros Hn. unfold cornerHi. pose proof (cornerLo_bound u n Hn). lia.
Qed.

Lemma cornerFrac_bound (u : R) (n : Z) : (0 <= cornerFrac u n < 1)%R.
Proof.
  unfold cornerFrac, cornerLo.
  pose proof (Zfloor_bound (clamp01 u * IZR (n - 1))). lra.
Qed.

Lemma getPixel_inside (imgData : buffer) (width height x y : Z) :
  Z.of_nat (length imgData) = width * height * 4 ->
  0 <= x <= width - 1 -> 0 <= y <= height - 1 ->
  insideRead imgData width height x y.
Proof.
  intros Hlen Hx Hy.
  assert (Hk : 0 <= y * width + x < width * height) by nia.
  unfold insideRead. repeat split; try lia.
  unfold Server.getPixel. simpl.
  destruct (readIdx_in_range imgData ((y * width + x) * 4)) as [r Hr]; [lia|].
  destruct (readIdx_in_range imgData ((y * width + x) * 4 + 1)) as [g Hg]; [lia|].
  destruct (readIdx_in_range imgData ((y * width + x) * 4 + 2)) as [b Hb]; [lia|].
  exists r, g, b. now rewrite Hr, Hg, Hb.
Qed.

Lemma round_int (c : Z) : Zfloor (IZR c + / 2) = c.
Proof. apply Zfloor_eq. lra. Qed.

Lemma interpolate_exact (c1 c2 c3 c4 : Z) :
  Math_round (Server.interpolate (fin 0) (fin 0) (Some c1) (Some c2) (Some c3) (Some c4))
  = Some c1.
Proof.
  unfold Server.interpolate, Math_round, nadd, nmul, nsub, ofInt, fin, lift2. simpl.
  f_equal. rewrite <- (round_int c1) at 2. f_equal. ring.
Qed.

Lemma interpolate_constant (c : Z) (fx fy : R) :
  Math_round (Server.interpolate (fin fx) (fin fy) (Some c) (Some c) (Some c) (Some c))
  = Some c.
Proof.
  unfold Server.interpolate, Math_round, nadd, nmul, nsub, ofInt, fin, lift2. simpl.
  f_equal. rewrite <- (round_int c) at 5. f_equal. ring.
Qed.

Lemma blend_exact (imgData : buffer) (width height x1 y1 x2 y2 : Z) :
  insideRead imgData width height x1 y1 ->
  insideRead imgData width height x2 y1 ->
  insideRead imgData width height x1 y2 ->
  insideRead imgData width height x2 y2 ->
  blend imgData width x1 y1 x2 y2 0 0 = Server.getPixel imgData width (Some x1) (Some y1).
Proof.
  intros (_ & _ & _ & _ & r1 & g1 & b1 & H11) (_ & _ & _ & _ & r2 & g2 & b2 & H21)
         (_ & _ & _ & _ & r3 & g3 & b3 & H12) (_ & _ & _ & _ & r4 & g4 & b4 & H22).
  unfold blend. rewrite H11, H21, H12, H22. cbn [fst snd].
  now rewrite !interpolate_exact.
Qed.

Lemma blend_constant (imgData : buffer) (width x1 y1 x2 y2 : Z) (fx fy : R) (r g b : Z) :
  Server.getPixel imgData width (Some x1) (Some y1) = (Some r, Some g, Some b) ->
  Server.getPixel imgData width (Some x2) (Some y1) = (Some r, Some g, Some b) ->
  Server.getPixel imgData width (Some x1) (Some y2) = (Some r, Some g, Some b) ->
  Server.getPixel imgData width (Some x2) (Some y2) = (Some r, Some g, Some b) ->
  blend imgData width x1 y1 x2 y2 fx fy = (Some r, Some g, Some b).
Proof.
  intros H11 H21 H12 H22.
  unfold blend. rewrite H11, H21, H12, H22. cbn [fst snd].
  now rewrite !interpolate_constant.
Qed.

Lemma cornerLo_low (u : R) (n : Z) : (u <= 0)%R -> cornerLo u n = 0.
Proof.
  intros H. unfold cornerLo. rewrite (clamp01_low u H), Rmult_0_l. apply (ZfloorZ 0).
Qed.

Lemma cornerFrac_low (u : R) (n : Z) : (u <= 0)%R -> cornerFrac u n = 0%R.
Proof.
  intros H. unfold cornerFrac. rewrite (cornerLo_low u n H), (clamp01_low u H). simpl. ring.
Qed.

Lemma cornerLo_high (u : R) (n : Z) : (1 <= u)%R -> cornerLo u n = n - 1.
Proof.
  intros H. unfold cornerLo. rewrite (clamp01_high u H), Rmult_1_l. apply ZfloorZ.
Qed.

Lemma cornerHi_high (u : R) (n : Z) : (1 <= u)%R -> cornerHi u n = n - 1.
Proof. intros H. unfold cornerHi. rewrite (cornerLo_high u n H). lia. Qed.

Lemma cornerFrac_high (u : R) (n : Z) : (1 <= u)%R -> cornerFrac u n = 0%R.
Proof.
  intros H. unfold cornerFrac. rewrite (cornerLo_high u n H), (clamp01_high u H). ring.
Qed.

(** C7: on real coordinates and a source of width and height at least 1,
    the sampler clamps [u] and [v] into [0, 1], takes
    [x1 = floor(u * (width - 1))], [y1 = floor(v * (height - 1))],
    [x2 = min(x1 + 1, width - 1)], [y2 = min(y1 + 1, height - 1)], and blends
    the pixels at those four corners; each corner lies in
    [0, width - 1] x [0, height - 1], the upper index is the lower one or its
    successor (the seam is clamped, not wrapped), and on a buffer of
    [width * height] RGBA pixels every read is inside the buffer. *)
Theorem sampler_reads_in_bounds (imgData : buffer) (u v : R) (width height : Z) :
  1 <= width -> 1 <= height ->
  let uc := Rmax 0 (Rmin 1 u) in
  let vc := Rmax 0 (Rmin 1 v) in
  let x1 := Zfloor (uc * IZR (width - 1)) in
  let y1 := Zfloor (vc * IZR (height - 1)) in
  let x2 := Z.min (x1 + 1) (width - 1) in
  let y2 := Z.min (y1 + 1) (height - 1) in
  let fx := (uc * IZR (width - 1) - IZR x1)%R in
  let fy := (vc * IZR (height - 1) - IZR y1)%R in
  (0 <= uc <= 1)%R /\ (0 <= vc <= 1)%R /\
  Server.sampleEquirectangularBilinear imgData (fin u) (fin v) width height
    = blend imgData width x1 y1 x2 y2 fx fy /\
  (0 <= x1 <= width - 1 /\ 0 <= x2 <= width - 1) /\
  (0 <= y1 <= height - 1 /\ 0 <= y2 <= height - 1) /\
  (x2 = x1 + 1 \/ (x2 = x1 /\ x1 = width - 1)) /\
  (y2 = y1 + 1 \/ (y2 = y1 /\ y1 = height - 1)) /\
  (Z.of_nat (length imgData) = width * height * 4 ->
   insideRead imgData width height x1 y1 /\
   insideRead imgData width height x2 y1 /\
   insideRead imgData width height x1 y2 /\
   insideRead imgData width height x2 y2).
Proof.
  intros Hw Hh uc vc x1 y1 x2 y2 fx fy.
  pose proof (cornerLo_bound u width Hw) as Hx1.
  pose proof (cornerLo_bound v height Hh) as Hy1.
  pose proof (cornerHi_bound u width Hw) as Hx2.
  pose proof (cornerHi_bound v height Hh) as Hy2.
  subst uc vc x1 y1 x2 y2 fx fy.
  change (Rmax 0 (Rmin 1 u)) with (clamp01 u).
  change (Rmax 0 (Rmin 1 v)) with (clamp01 v).
  change (Zfloor (clamp01 u * IZR (width - 1))) with (cornerLo u width).
  change (Zfloor (clamp01 v * IZR (height - 1))) with (cornerLo v height).
  split; [apply clamp01_bound|].
  split; [apply clamp01_bound|].
  split; [apply sample_finite|].
  split; [unfold cornerHi in Hx2; lia|].
  split; [unfold cornerHi in Hy2; lia|].
  split; [lia|].
  split; [lia|].
  change (Z.min (cornerLo u width + 1) (width - 1)) with (cornerHi u width).
  change (Z.min (cornerLo v height + 1) (height - 1)) with (cornerHi v height).
  intros Hlen.
  split; [|split; [|split]]; apply getPixel_inside; assumption.
Qed.

Lemma sampler_reads_in_bounds_witness :
  insideRead [10; 20; 30; 255] 1 1
    (Zfloor (Rmax 0 (Rmin 1 0) * IZR (1 - 1))) (Zfloor (Rmax 0 (Rmin 1 0) * IZR (1 - 1))).
Proof.
  assert (H1 : 1 <= 1) by lia.
  pose proof (sampler_reads_in_bounds [10; 20; 30; 255] 0 0 1 1 H1 H1) as H.
  cbv zeta in H.
  destruct H as (_ & _ & _ & _ & _ & _ & _ & H).
  destruct H as (H & _); [reflexivity | exact H].
Defined.

(** C8: on a [width * height] RGBA buffer with width and height at least 1,
    coordinates that clamp to [u = v = 0] return the pixel at [(0, 0)] and
    coordinates that clamp to [u = v = 1] return the pixel at
    [(width - 1, height - 1)], unblended: the fractional parts are 0, and at
    [u = v = 1] the four corner indices coincide. *)
Theorem sampler_corner_exact (imgData : buffer) (width height : Z) :
  1 <= width -> 1 <= height ->
  Z.of_nat (length imgData) = width * height * 4 ->
  (forall u v, (u <= 0)%R -> (v <= 0)%R ->
     cornerFrac u width = 0%R /\ cornerFrac v height = 0%R /\
     Server.sampleEquirectangularBilinear imgData (fin u) (fin v) width height
       = Server.getPixel imgData width (Some 0) (Some 0)) /\
  (forall u v, (1 <= u)%R -> (1 <= v)%R ->
     cornerFrac u width = 0%R /\ cornerFrac v height = 0%R /\
     cornerLo u width = width - 1 /\ cornerHi u width = width - 1 /\
     cornerLo v height = height - 1 /\ cornerHi v height = height - 1 /\
     Server.sampleEquirectangularBilinear imgData (fin u) (fin v) width height
       = Server.getPixel imgData width (Some (width - 1)) (Some (height - 1))) /\
  exists r g b,
    Server.sampleEquirectangularBilinear imgData (fin 0) (fin 0) width height
      = (Some r, Some g, Some b).
Proof.
  intros Hw Hh Hlen. split; [|split].
  - intros u v Hu Hv.
    split; [now apply cornerFrac_low|]. split; [now apply cornerFrac_low|].
    rewrite sample_finite.
    rewrite (cornerFrac_low u width Hu), (cornerFrac_low v height Hv).
    pose proof (cornerHi_bound u width Hw). pose proof (cornerHi_bound v height Hh).
    rewrite (cornerLo_low u width Hu), (cornerLo_low v height Hv).
    apply (blend_exact imgData width height); apply getPixel_inside; try assumption; lia.
  - intros u v Hu Hv.
    split; [now apply cornerFrac_high|]. split; [now apply cornerFrac_high|].
    split; [now apply cornerLo_high|]. split; [now apply cornerHi_high|].
    split; [now apply cornerLo_high|]. split; [now apply cornerHi_high|].
    rewrite sample_finite.
    rewrite (cornerFrac_high u width Hu), (cornerFrac_high v height Hv).
    rewrite (cornerLo_high u width Hu), (cornerLo_high v height Hv).
    rewrite (cornerHi_high u width Hu), (cornerHi_high v height Hv).
    apply (blend_exact imgData width height); apply getPixel_inside; try assumption; lia.
  - rewrite sample_finite.
    rewrite (cornerFrac_low 0 width), (cornerFrac_low 0 height) by lra.
    pose proof (cornerHi_bound 0 width Hw). pose proof (cornerHi_bound 0 height Hh).
    rewrite (cornerLo_low 0 width), (cornerLo_low 0 height) by lra.
    rewrite (blend_exact imgData width height)
      by (apply getPixel_inside; try assumption; lia).
    destruct (getPixel_inside imgData width height 0 0 Hlen) as (_ & _ & _ & _ & Hpx);
      [lia | lia | exact Hpx].
Qed.

Lemma sampler_corner_exact_witness :
  Server.sampleEquirectangularBilinear [10; 20; 30; 255; 40; 50; 60; 255] (fin 1) (fin 1) 2 1
  = (Some 40, Some 50, Some 60).
Proof.
  assert (H1 : 1 <= 1) by lia. assert (H2 : 1 <= 2) by lia.
  assert (Hlen : Z.of_nat (length [10; 20; 30; 255; 40; 50; 60; 255]) = 2 * 1 * 4)
    by reflexivity.
  destruct (sampler_corner_exact [10; 20; 30; 255; 40; 50; 60; 255] 2 1 H2 H1 Hlen)
    as (_ & H & _).
  destruct (H 1%R 1%R) as (_ & _ & _ & _ & _ & _ & Heq); [lra | lra |].
  rewrite Heq. reflexivity.
Defined.

(** ** Direction mapper and inverse projector *)

Lemma Math_atan2_bound (y x : R) : (- PI <= Math_atan2 y x <= PI)%R.
Proof.
  pose proof PI_RGT_0 as Hpi.
  pose proof (atan_bound (y / x)) as Hb.
  unfold Math_atan2.
  destruct (Rlt_dec 0 x) as [Hx|Hx]; [lra|].
  destruct (Rlt_dec x 0) as [Hx'|Hx'].
  - assert (Hinv : (/ x < 0)%R) by now apply Rinv_lt_0_compat.
    destruct (Rle_dec 0 y) as [Hy|Hy].
    + assert (Hq : (y / x <= 0)%R) by (unfold Rdiv; nra).
      assert (Ha : (atan (y / x) <= 0)%R).
      { destruct Hq as [Hq|Hq].
        - apply Rlt_le. rewrite <- atan_0. now apply atan_increasing.
        - rewrite Hq, atan_0. lra. }
      lra.
    + assert (Hq : (0 < y / x)%R) by (unfold Rdiv; nra).
      assert (Ha : (0 < atan (y / x))%R)
        by (rewrite <- atan_0; now apply atan_increasing).
      lra.
  - destruct (Rlt_dec 0 y); [lra|]. destruct (Rlt_dec y 0); lra.
Qed.

Lemma eqU_of_bound (x z : R) : (0 <= eqU_of x z <= 1)%R.
Proof.
  pose proof PI_RGT_0 as Hpi.
  pose proof (Math_atan2_bound z x) as Hb.
  unfold eqU_of. split.
  - apply Rmult_le_pos; [lra|]. apply Rlt_le, Rinv_0_lt_compat. lra.
  - apply (Rmult_le_reg_r (2 * PI)); [lra|].
    unfold Rdiv. rewrite Rmult_assoc, Rinv_l by lra. lra.
Qed.

Lemma eqV_of_bound (x y z : R) : (0 <= eqV_of x y z <= 1)%R.
Proof.
  pose proof PI_RGT_0 as Hpi.
  pose proof (acos_bound (y / sqrt (x * x + y * y + z * z))) as Hb.
  unfold eqV_of. split.
  - apply Rmult_le_pos; [lra|]. apply Rlt_le, Rinv_0_lt_compat. lra.
  - apply (Rmult_le_reg_r PI); [lra|].
    unfold Rdiv. rewrite Rmult_assoc, Rinv_l by lra. lra.
Qed.

(** The cosine of the polar angle of a non-zero direction is in [-1, 1]. *)
Lemma cos_polar_bound (x y z : R) :
  (0 < x * x + y * y + z * z)%R ->
  (0 < sqrt (x * x + y * y + z * z) /\
   -1 <= y / sqrt (x * x + y * y + z * z) <= 1)%R.
Proof.
  intros Hpos.
  set (d := sqrt (x * x + y * y + z * z)).
  assert (Hd : (0 < d)%R) by now apply sqrt_lt_R0.
  assert (Hdd : (d * d = x * x + y * y + z * z)%R) by (apply sqrt_sqrt; lra).
  assert (Hinv : (0 < / d)%R) by now apply Rinv_0_lt_compat.
  assert (Hone : (d * / d = 1)%R) by (apply Rinv_r; lra).
  assert (Hy : (- d <= y <= d)%R) by (split; nra).
  split; [exact Hd|]. unfold Rdiv. split; nra.
Qed.

(** The inverse projection of a non-zero direction is finite. *)
Lemma inverse_projection_finite (x y z : R) :
  (0 < x * x + y * y + z * z)%R ->
  ndiv (Math_acos (ndiv (fin y) (fin (Math_sqrt (x * x + y * y + z * z))))) (fin PI)
  = fin (eqV_of x y z).
Proof.
  intros Hpos. destruct (cos_polar_bound x y z Hpos) as [Hd Hc].
  unfold ndiv at 2, fin, Math_sqrt.
  destruct (Req_dec_T (sqrt (x * x + y * y + z * z)) 0) as [H0|_]; [lra|].
  unfold Math_acos, fin.
  destruct (Rlt_dec _ (-1)) as [Hlt|_]; [lra|].
  destruct (Rlt_dec 1 _) as [Hgt|_]; [lra|].
  unfold ndiv.
  destruct (Req_dec_T PI 0) as [H0|_]; [pose proof PI_RGT_0; lra|].
  reflexivity.
Qed.

Lemma faceOfId_range (face : Z) :
  0 <= face <= 5 ->
  face = 0 \/ face = 1 \/ face = 2 \/ face = 3 \/ face = 4 \/ face = 5.
Proof. lia. Qed.

Lemma table_direction_nonzero (f : CubeFace) (uc vc : R) :
  let '(x, y, z) := tableDirection f uc vc in (0 < x * x + y * y + z * z)%R.
Proof. destruct f; simpl; nra. Qed.

(** C3: for a face id in 0..5 and all real [u], [v] (in particular for
    [(u, v)] in the unit square), the mapping builds the direction of the
    table from [uc = 2u - 1], [vc = 2v - 1], returns
    [eqU = (atan2(z, x) + pi) / (2 pi)] and
    [eqV = acos(y / sqrt(x^2 + y^2 + z^2)) / pi], both finite, and
    [(eqU, eqV)] lies in the unit square. *)
Theorem faceUV_table_and_range (face : Z) (u v : R) :
  0 <= face <= 5 ->
  exists f,
    faceOfId face = Some f /\
    let uc := (2 * u - 1)%R in
    let vc := (2 * v - 1)%R in
    let '(x, y, z) := tableDirection f uc vc in
    Server.faceDirection face uc vc = (x, y, z) /\
    Server.faceUVToEquirectangular face u v
      = Return (fin ((Math_atan2 z x + PI) / (2 * PI)),
                fin (acos (y / sqrt (x * x + y * y + z * z)) / PI)) /\
    Client.faceUVToEquirectangular face u v
      = Return (fin ((Math_atan2 z x + PI) / (2 * PI)),
                fin (acos (y / sqrt (x * x + y * y + z * z)) / PI)) /\
    (0 <= (Math_atan2 z x + PI) / (2 * PI) <= 1)%R /\
    (0 <= acos (y / sqrt (x * x + y * y + z * z)) / PI <= 1)%R.
Proof.
  intros Hface.
  assert (Hgen : forall f,
            Server.faceDirection face (2 * u - 1) (2 * v - 1)
              = tableDirection f (2 * u - 1) (2 * v - 1) ->
            let '(x, y, z) := tableDirection f (2 * u - 1) (2 * v - 1) in
            Server.faceDirection face (2 * u - 1) (2 * v - 1) = (x, y, z) /\
            Server.faceUVToEquirectangular face u v
              = Return (fin ((Math_atan2 z x + PI) / (2 * PI)),
                        fin (acos (y / sqrt (x * x + y * y + z * z)) / PI)) /\
            Client.faceUVToEquirectangular face u v
              = Return (fin ((Math_atan2 z x + PI) / (2 * PI)),
                        fin (acos (y / sqrt (x * x + y * y + z * z)) / PI)) /\
            (0 <= (Math_atan2 z x + PI) / (2 * PI) <= 1)%R /\
            (0 <= acos (y / sqrt (x * x + y * y + z * z)) / PI <= 1)%R).
  { intros f Hdir.
    pose proof (table_direction_nonzero f (2 * u - 1) (2 * v - 1)) as Hnz.
    pose proof (client_faceUV_eq face u v) as Hclient.
    unfold Server.faceUVToEquirectangular in Hclient |- *. rewrite Hdir in Hclient |- *.
    destruct (tableDirection f (2 * u - 1) (2 * v - 1)) as [[x y] z].
    rewrite (inverse_projection_finite x y z Hnz) in Hclient |- *.
    split; [reflexivity|].
    split; [reflexivity|].
    split; [exact Hclient|].
    split; [apply (eqU_of_bound x z) | apply (eqV_of_bound x y z)]. }
  destruct (faceOfId_range face Hface) as [->|[->|[->|[->|[->| ->]]]]].
  - exists right. split; [reflexivity|]. now apply Hgen.
  - exists left. split; [reflexivity|]. now apply Hgen.
  - exists up. split; [reflexivity|]. now apply Hgen.
  - exists down. split; [reflexivity|]. now apply Hgen.
  - exists front. split; [reflexivity|]. now apply Hgen.
  - exists back. split; [reflexivity|]. now apply Hgen.
Qed.

Lemma faceUV_table_and_range_witness :
  exists f, faceOfId 4 = Some f /\
    Server.faceDirection 4 (2 * (1 / 2) - 1) (2 * (1 / 2) - 1)
      = tableDirection f (2 * (1 / 2) - 1) (2 * (1 / 2) - 1).
Proof.
  assert (H : 0 <= 4 <= 5) by lia.
  destruct (faceUV_table_and_range 4 (1 / 2) (1 / 2) H) as (f & Hf & Hrest).
  exists f. split; [exact Hf|].
  cbv zeta in Hrest.
  destruct (tableDirection f (2 * (1 / 2) - 1) (2 * (1 / 2) - 1)) as [[x y] z].
  exact (proj1 Hrest).
Defined.

(** ** Face ids outside 0..5 *)

Lemma faceDirection_default (face : Z) (uc vc : R) :
  face < 0 \/ 5 < face -> Server.faceDirection face uc vc = (0, 0, 0)%R.
Proof.
  intros H. destruct face as [|p|p]; [lia | | reflexivity].
  do 3 (destruct p as [p|p|]; try reflexivity; try lia).
Qed.

Lemma Math_atan2_origin : Math_atan2 0 0 = 0%R.
Proof.
  unfold Math_atan2.
  destruct (Rlt_dec 0 0) as [H|_]; [lra|].
  destruct (Rlt_dec 0 0) as [H|_]; [lra|].
  reflexivity.
Qed.

Lemma degenerate_projection :
  ndiv (Math_acos (ndiv (fin 0) (fin (Math_sqrt (0 * 0 + 0 * 0 + 0 * 0))))) (fin PI) = NaN.
Proof.
  unfold Math_sqrt. replace (0 * 0 + 0 * 0 + 0 * 0)%R with 0%R by ring.
  rewrite sqrt_0. unfold ndiv at 2, fin.
  destruct (Req_dec_T 0 0) as [_|H]; [reflexivity | contradiction].
Qed.

Lemma faceUV_default (face : Z) (u v : R) :
  face < 0 \/ 5 < face ->
  Server.faceUVToEquirectangular face u v = Return (fin (1 / 2), NaN).
Proof.
  intros H. unfold Server.faceUVToEquirectangular.
  rewrite (faceDirection_default face _ _ H).
  rewrite degenerate_projection, Math_atan2_origin.
  do 2 f_equal. unfold fin. f_equal. field. apply PI_neq0.
Qed.

(** C4, as the code behaves: a face id outside 0..5 raises no error.  The
    direction is set to [(0, 0, 0)], no check rejects it, and the mapping
    (server and client) returns [eqU = 0.5] and [eqV = NaN]; the rasterizer
    called with such a face completes and stores opaque black for every
    pixel. *)
Theorem face_out_of_range_is_silent (face : Z) (u v : R) :
  face < 0 \/ 5 < face ->
  Server.faceDirection face (2 * u - 1) (2 * v - 1) = (0, 0, 0)%R /\
  Server.faceUVToEquirectangular face u v = Return (fin (1 / 2), NaN) /\
  Client.faceUVToEquirectangular face u v = Return (fin (1 / 2), NaN) /\
  (forall e, Server.faceUVToEquirectangular face u v <> Throw e) /\
  forall img size x y, 0 <= x < size -> 0 <= y < size ->
    exists faceData,
      Server.generateCubeFace img face size = Return faceData /\
      rgbaAt faceData size x y = (Some 0, Some 0, Some 0, Some 255).
Proof.
  intros H.
  split; [now apply faceDirection_default|].
  split; [now apply faceUV_default|].
  split; [pose proof (client_faceUV_eq face u v) as Hclient;
          now rewrite (faceUV_default face u v H) in Hclient|].
  split; [intros e; rewrite (faceUV_default face u v H); discriminate|].
  intros img size x y Hx Hy.
  destruct (generateCubeFace_pixels img face size) as (fd & Hrun & _ & Hpx); [lia|].
  exists fd. split; [exact Hrun|].
  rewrite (Hpx x y Hx Hy) by nia.
  unfold rasterVia, equirect. rewrite (faceUV_default face _ _ H).
  now rewrite sample_NaN_v.
Qed.

Lemma face_out_of_range_is_silent_witness :
  Server.faceUVToEquirectangular 6 0 0 = Return (fin (1 / 2), NaN).
Proof.
  assert (H : 6 < 0 \/ 5 < 6) by lia.
  exact (proj1 (proj2 (face_out_of_range_is_silent 6 0 0 H))).
Defined.

(** C4, as stated, fails at face id 6: the call returns a pair instead of
    throwing, and the degenerate direction is not rejected. *)
Lemma face_out_of_range_not_fatal :
  Server.faceDirection 6 (2 * 0 - 1) (2 * 0 - 1) = (0, 0, 0)%R /\
  ~ (exists e, Server.faceUVToEquirectangular 6 0 0 = Throw e).
Proof.
  split; [reflexivity|].
  intros [e He]. rewrite faceUV_default in He by lia. discriminate.
Qed.

(** ** Sampled channels are bytes *)

Lemma clamp8_byte (v : Z) : is_byte v -> clamp8 v = v.
Proof. unfold is_byte, clamp8. lia. Qed.

Lemma lerp_range (a b t lo hi : R) :
  (lo <= a <= hi)%R -> (lo <= b <= hi)%R -> (0 <= t <= 1)%R ->
  (lo <= a * (1 - t) + b * t <= hi)%R.
Proof. intros Ha Hb Ht. split; nra. Qed.

Lemma interpolate_byte (c1 c2 c3 c4 : Z) (fx fy : R) :
  is_byte c1 -> is_byte c2 -> is_byte c3 -> is_byte c4 ->
  (0 <= fx <= 1)%R -> (0 <= fy <= 1)%R ->
  exists c,
    Math_round (Server.interpolate (fin fx) (fin fy) (Some c1) (Some c2) (Some c3) (Some c4))
    = Some c /\ is_byte c.
Proof.
  intros H1 H2 H3 H4 Hfx Hfy.
  unfold Server.interpolate, Math_round, nadd, nmul, nsub, ofInt, fin, lift2. simpl.
  eexists. split; [reflexivity|].
  assert (Hb : forall c, is_byte c -> (0 <= IZR c <= 255)%R).
  { intros c [Hlo Hhi]. split; [now apply (IZR_le 0) | now apply (IZR_le c 255)]. }
  pose proof (lerp_range (IZR c1) (IZR c2) fx 0 255 (Hb _ H1) (Hb _ H2) Hfx) as Hi1.
  pose proof (lerp_range (IZR c3) (IZR c4) fx 0 255 (Hb _ H3) (Hb _ H4) Hfx) as Hi2.
  pose proof (lerp_range _ _ fy 0 255 Hi1 Hi2 Hfy) as Hv.
  set (v := (((IZR c1 * (1 - fx) + IZR c2 * fx) * (1 - fy)
             + (IZR c3 * (1 - fx) + IZR c4 * fx) * fy))%R) in *.
  pose proof (Zfloor_bound (v + / 2)) as Hfl.
  split.
  - apply Zfloor_lub. change (IZR 0) with 0%R. lra.
  - assert (Hlt : Zfloor (v + / 2) < 256) by (apply lt_IZR; lra). lia.
Qed.

Lemma getPixel_bytes (imgData : buffer) (width height x y : Z) :
  Z.of_nat (length imgData) = width * height * 4 -> Forall is_byte imgData ->
  0 <= x <= width - 1 -> 0 <= y <= height - 1 ->
  exists r g b,
    Server.getPixel imgData width (Some x) (Some y) = (Some r, Some g, Some b) /\
    is_byte r /\ is_byte g /\ is_byte b.
Proof.
  intros Hlen Hbytes Hx Hy.
  destruct (getPixel_inside imgData width height x y Hlen Hx Hy)
    as (_ & _ & _ & _ & r & g & b & Hpx).
  exists r, g, b. split; [exact Hpx|].
  unfold Server.getPixel in Hpx. simpl in Hpx. injection Hpx as Hr Hg Hb.
  rewrite Forall_lookup in Hbytes.
  unfold readIdx in Hr, Hg, Hb.
  destruct (_ <? 0) in Hr; [discriminate|].
  destruct (_ <? 0) in Hg; [discriminate|].
  destruct (_ <? 0) in Hb; [discriminate|].
  repeat split; eapply Hbytes; eassumption.
Qed.

(** On a valid image and finite coordinates every sampled channel is a
    byte, so storing it in the face changes nothing. *)
Lemma sample_bytes (img : ImageBitmap) (u v : R) :
  valid_image img ->
  exists r g b,
    Server.sampleEquirectangularBilinear (img_data img) (fin u) (fin v)
      (img_width img) (img_height img) = (Some r, Some g, Some b) /\
    is_byte r /\ is_byte g /\ is_byte b.
Proof.
  intros [Hw Hh Hlen Hbytes].
  rewrite sample_finite.
  pose proof (cornerLo_bound u (img_width img) ltac:(lia)) as Hx1.
  pose proof (cornerHi_bound u (img_width img) ltac:(lia)) as Hx2.
  pose proof (cornerLo_bound v (img_height img) ltac:(lia)) as Hy1.
  pose proof (cornerHi_bound v (img_height img) ltac:(lia)) as Hy2.
  pose proof (cornerFrac_bound u (img_width img)) as Hfx.
  pose proof (cornerFrac_bound v (img_height img)) as Hfy.
  destruct (getPixel_bytes _ _ _ _ _ Hlen Hbytes Hx1 Hy1)
    as (r1 & g1 & b1 & H11 & Hr1 & Hg1 & Hb1).
  destruct (getPixel_bytes _ _ _ _ _ Hlen Hbytes Hx2 Hy1)
    as (r2 & g2 & b2 & H21 & Hr2 & Hg2 & Hb2).
  destruct (getPixel_bytes _ _ _ _ _ Hlen Hbytes Hx1 Hy2)
    as (r3 & g3 & b3 & H12 & Hr3 & Hg3 & Hb3).
  destruct (getPixel_bytes _ _ _ _ _ Hlen Hbytes Hx2 Hy2)
    as (r4 & g4 & b4 & H22 & Hr4 & Hg4 & Hb4).
  unfold blend. rewrite H11, H21, H12, H22. cbn [fst snd].
  destruct (interpolate_byte r1 r2 r3 r4
              (cornerFrac u (img_width img)) (cornerFrac v (img_height img))
              Hr1 Hr2 Hr3 Hr4 ltac:(lra) ltac:(lra)) as (r & -> & Hr).
  destruct (interpolate_byte g1 g2 g3 g4
              (cornerFrac u (img_width img)) (cornerFrac v (img_height img))
              Hg1 Hg2 Hg3 Hg4 ltac:(lra) ltac:(lra)) as (g & -> & Hg).
  destruct (interpolate_byte b1 b2 b3 b4
              (cornerFrac u (img_width img)) (cornerFrac v (img_height img))
              Hb1 Hb2 Hb3 Hb4 ltac:(lra) ltac:(lra)) as (b & -> & Hb).
  exists r, g, b. auto.
Qed.

(** ** The rasterizer samples at [x / size], not at pixel centres *)

Lemma faceDirection_nonzero (face : Z) (uc vc : R) :
  0 <= face <= 5 ->
  let '(x, y, z) := Server.faceDirection face uc vc in (0 < x * x + y * y + z * z)%R.
Proof.
  intros Hface.
  destruct (faceOfId_range face Hface) as [->|[->|[->|[->|[->| ->]]]]]; simpl; nra.
Qed.

Lemma equirect_valid_face (face : Z) (u v : R) :
  0 <= face <= 5 ->
  let '(x, y, z) := Server.faceDirection face (2 * u - 1) (2 * v - 1) in
  equirect face u v = (fin (eqU_of x z), fin (eqV_of x y z)).
Proof.
  intros Hface.
  pose proof (faceDirection_nonzero face (2 * u - 1) (2 * v - 1) Hface) as Hnz.
  unfold equirect, Server.faceUVToEquirectangular.
  destruct (Server.faceDirection face (2 * u - 1) (2 * v - 1)) as [[x y] z].
  now rewrite (inverse_projection_finite x y z Hnz).
Qed.

Lemma eqU_of_back_left : eqU_of (-1) 1 = (7 / 8)%R.
Proof.
  unfold eqU_of, Math_atan2.
  destruct (Rlt_dec 0 (-1)) as [H|_]; [lra|].
  destruct (Rlt_dec (-1) 0) as [_|H]; [|lra].
  destruct (Rle_dec 0 1) as [_|H]; [|lra].
  replace (1 / -1)%R with (Ropp 1) by field.
  rewrite atan_opp, atan_1. field. apply PI_neq0.
Qed.

Lemma eqU_of_front : eqU_of 0 1 = (3 / 4)%R.
Proof.
  unfold eqU_of, Math_atan2.
  destruct (Rlt_dec 0 0) as [H|_]; [lra|].
  destruct (Rlt_dec 0 0) as [H|_]; [lra|].
  destruct (Rlt_dec 0 1) as [_|H]; [|lra].
  field. apply PI_neq0.
Qed.

(** On an image of height 1 the vertical corner indices and weight vanish. *)
Lemma cornerLo_row (v : R) : cornerLo v 1 = 0.
Proof. unfold cornerLo. change (1 - 1) with 0. rewrite Rmult_0_r. apply (ZfloorZ 0). Qed.

Lemma cornerHi_row (v : R) : cornerHi v 1 = 0.
Proof. unfold cornerHi. rewrite cornerLo_row. reflexivity. Qed.

Lemma cornerFrac_row (v : R) : cornerFrac v 1 = 0%R.
Proof. unfold cornerFrac. rewrite cornerLo_row. change (1 - 1) with 0. ring. Qed.

Lemma seamImage_corner_sample (v : R) :
  Server.sampleEquirectangularBilinear (img_data seamImage) (fin (7 / 8)) (fin v) 5 1
  = (Some 50, Some 50, Some 50).
Proof.
  rewrite sample_finite, cornerLo_row, cornerHi_row, cornerFrac_row.
  assert (Hlo : cornerLo (7 / 8) 5 = 3).
  { unfold cornerLo. rewrite clamp01_id by lra. apply Zfloor_eq.
    change (5 - 1) with 4. lra. }
  assert (Hfrac : cornerFrac (7 / 8) 5 = (1 / 2)%R).
  { unfold cornerFrac. rewrite Hlo, clamp01_id by lra. change (5 - 1) with 4. lra. }
  unfold cornerHi. rewrite Hlo, Hfrac.
  assert (Hmix : Math_round
            (Server.interpolate (fin (1 / 2)) (fin 0) (Some 0) (Some 100) (Some 0) (Some 100))
          = Some 50).
  { unfold Server.interpolate, Math_round, nadd, nmul, nsub, ofInt, fin, lift2. simpl.
    f_equal. apply Zfloor_eq. lra. }
  change (Z.min (3 + 1) (5 - 1)) with 4.
  assert (Hp3 : Server.getPixel (img_data seamImage) 5 (Some 3) (Some 0)
                = (Some 0, Some 0, Some 0)) by reflexivity.
  assert (Hp4 : Server.getPixel (img_data seamImage) 5 (Some 4) (Some 0)
                = (Some 100, Some 100, Some 100)) by reflexivity.
  unfold blend. rewrite Hp3, Hp4. cbn [fst snd]. now rewrite Hmix.
Qed.

Lemma seamImage_centre_sample (v : R) :
  Server.sampleEquirectangularBilinear (img_data seamImage) (fin (3 / 4)) (fin v) 5 1
  = (Some 0, Some 0, Some 0).
Proof.
  rewrite sample_finite, cornerLo_row, cornerHi_row, cornerFrac_row.
  assert (Hlo : cornerLo (3 / 4) 5 = 3).
  { unfold cornerLo. rewrite clamp01_id by lra. apply Zfloor_eq.
    change (5 - 1) with 4. lra. }
  assert (Hfrac : cornerFrac (3 / 4) 5 = 0%R).
  { unfold cornerFrac. rewrite Hlo, clamp01_id by lra. change (5 - 1) with 4. lra. }
  unfold cornerHi. rewrite Hlo, Hfrac.
  change (Z.min (3 + 1) (5 - 1)) with 4.
  assert (Hp3 : Server.getPixel (img_data seamImage) 5 (Some 3) (Some 0)
                = (Some 0, Some 0, Some 0)) by reflexivity.
  assert (Hp4 : Server.getPixel (img_data seamImage) 5 (Some 4) (Some 0)
                = (Some 100, Some 100, Some 100)) by reflexivity.
  unfold blend. rewrite Hp3, Hp4. cbn [fst snd]. now rewrite !interpolate_exact.
Qed.

Lemma seamImage_code_pixel :
  rasterVia cornerCoord seamImage 4 1 0 0 = (Some 50, Some 50, Some 50).
Proof.
  unfold rasterVia.
  pose proof (equirect_valid_face 4 (cornerCoord 0 1) (cornerCoord 0 1)) as H.
  simpl Server.faceDirection in H. rewrite H by lia. clear H.
  replace (2 * cornerCoord 0 1 - 1)%R with (-1)%R by (unfold cornerCoord; simpl; field).
  rewrite eqU_of_back_left. apply seamImage_corner_sample.
Qed.

Lemma seamImage_centre_pixel :
  rasterVia centreCoord seamImage 4 1 0 0 = (Some 0, Some 0, Some 0).
Proof.
  unfold rasterVia.
  pose proof (equirect_valid_face 4 (centreCoord 0 1) (centreCoord 0 1)) as H.
  simpl Server.faceDirection in H. rewrite H by lia. clear H.
  replace (2 * centreCoord 0 1 - 1)%R with 0%R by (unfold centreCoord; simpl; field).
  rewrite eqU_of_front. apply seamImage_centre_sample.
Qed.

(** C2, as the code behaves: pixel [(x, y)] of a face of side [faceSize]
    is computed from the face-local coordinates [u = x / faceSize] and
    [v = y / faceSize] (the corner of the pixel, not its centre), mapped by
    the direction mapper and inverse projector and sampled bilinearly over
    the full source image; the RGB is stored with alpha 255 (unchanged by
    the byte conversion of the array when the image is valid and the face
    id is in 0..5).  The client rasterizer produces the same buffer. *)
Theorem rasterizer_pixel (img : ImageBitmap) (face size x y : Z) :
  0 <= x < size -> 0 <= y < size ->
  exists faceData u v,
    Server.generateCubeFace img face size = Return faceData /\
    Client.generateCubeFace img face size = Return faceData /\
    Z.of_nat (length faceData) = size * size * 4 /\
    Server.faceUVToEquirectangular face (IZR x / IZR size) (IZR y / IZR size)
      = Return (u, v) /\
    let p := Server.sampleEquirectangularBilinear
               (img_data img) u v (img_width img) (img_height img) in
    rgbaAt faceData size x y
      = (Some (toUint8Clamp p.1.1), Some (toUint8Clamp p.1.2), Some (toUint8Clamp p.2),
         Some 255) /\
    (valid_image img -> 0 <= face <= 5 ->
     rgbaAt faceData size x y = (p.1.1, p.1.2, p.2, Some 255)).
Proof.
  intros Hx Hy.
  destruct (generateCubeFace_pixels img face size) as (fd & Hrun & Hlen & Hpx); [lia|].
  exists fd, (equirect face (cornerCoord x size) (cornerCoord y size)).1,
         (equirect face (cornerCoord x size) (cornerCoord y size)).2.
  split; [exact Hrun|]. split; [exact Hrun|]. split; [exact Hlen|].
  split; [rewrite faceUVToEquirectangular_returns; unfold cornerCoord;
          now destruct (equirect face _ _)|].
  cbv zeta. rewrite (Hpx x y Hx Hy) by nia.
  unfold stored, rasterVia. split; [now destruct (equirect face _ _)|].
  intros Hvalid Hface.
  pose proof (equirect_valid_face face (cornerCoord x size) (cornerCoord y size) Hface) as Heq.
  destruct (Server.faceDirection face _ _) as [[dx dy] dz].
  rewrite Heq. cbn [fst snd].
  destruct (sample_bytes img (eqU_of dx dz) (eqV_of dx dy dz) Hvalid)
    as (r & g & b & -> & Hr & Hg & Hb).
  cbn [fst snd toUint8Clamp]. now rewrite !clamp8_byte.
Qed.

Lemma rasterizer_pixel_witness :
  exists faceData,
    Server.generateCubeFace seamImage 4 1 = Return faceData /\
    Z.of_nat (length faceData) = 1 * 1 * 4.
Proof.
  assert (H : 0 <= 0 < 1) by lia.
  destruct (rasterizer_pixel seamImage 4 1 0 0 H H) as (fd & u & v & Hrun & _ & Hlen & _).
  exists fd. split; [exact Hrun | exact Hlen].
Defined.

(** C2, as stated, fails on the 5 x 1 image [seamImage], front face, face
    size 1, pixel (0, 0): the rasterizer stores 50 where sampling at the
    pixel centre [u = v = 0.5] gives 0. *)
Lemma rasterizer_not_pixel_centre :
  exists faceData,
    Server.generateCubeFace seamImage 4 1 = Return faceData /\
    rgbaAt faceData 1 0 0 = (Some 50, Some 50, Some 50, Some 255) /\
    stored (rasterVia centreCoord seamImage 4 1 0 0) = (Some 0, Some 0, Some 0, Some 255) /\
    rgbaAt faceData 1 0 0 <> stored (rasterVia centreCoord seamImage 4 1 0 0).
Proof.
  destruct (generateCubeFace_pixels seamImage 4 1) as (fd & Hrun & _ & Hpx); [lia|].
  exists fd. split; [exact Hrun|].
  assert (Hcode : rgbaAt fd 1 0 0 = (Some 50, Some 50, Some 50, Some 255)).
  { rewrite (Hpx 0 0) by lia. now rewrite seamImage_code_pixel. }
  assert (Hspec : stored (rasterVia centreCoord seamImage 4 1 0 0)
                  = (Some 0, Some 0, Some 0, Some 255)).
  { now rewrite seamImage_centre_pixel. }
  split; [exact Hcode|]. split; [exact Hspec|].
  rewrite Hcode, Hspec. discriminate.
Qed.

(** ** Client and server copies of the projection and the sampler *)

(** C10: the client and the server converters compute the same mapping
    and the same bilinear sample on every input (and hence rasterize the
    same faces). *)
Theorem client_server_equivalent :
  (forall (face : Z) (u v : R),
     Client.faceUVToEquirectangular face u v = Server.faceUVToEquirectangular face u v) /\
  (forall (imgData : buffer) (u v : number) (width height : Z),
     Client.sampleEquirectangularBilinear imgData u v width height
     = Server.sampleEquirectangularBilinear imgData u v width height) /\
  (forall (img : ImageBitmap) (face size : Z),
     Client.generateCubeFace img face size = Server.generateCubeFace img face size).
Proof.
  split; [|split].
  - exact client_faceUV_eq.
  - exact client_sample_eq.
  - intros img face size. reflexivity.
Qed.

(** ** Tile slicer *)

Lemma Zceil_div (a b : Z) : 0 < b -> Zceil (IZR a / IZR b) = ceilDiv a b.
Proof.
  intros Hb. unfold ceilDiv. apply Zceil_eq.
  pose proof (Z.div_mod (a + b - 1) b ltac:(lia)) as Hdm.
  pose proof (Z.mod_pos_bound (a + b - 1) b Hb) as Hm.
  set (q := (a + b - 1) / b) in *.
  assert (Hlo : (q - 1) * b < a) by nia.
  assert (Hhi : a <= q * b) by nia.
  apply IZR_lt in Hlo. apply IZR_le in Hhi. apply IZR_lt in Hb.
  rewrite mult_IZR in Hlo, Hhi. rewrite minus_IZR in Hlo.
  assert (Hquot : (IZR a / IZR b * IZR b = IZR a)%R) by (field; lra).
  split.
  - apply (Rmult_lt_reg_r (IZR b)); [exact Hb | lra].
  - apply (Rmult_le_reg_r (IZR b)); [exact Hb | lra].
Qed.

Lemma tilesPerSide_ceilDiv (config : TileConfig) :
  0 < tileSize config ->
  Server.tilesPerSide config = ceilDiv (size config) (tileSize config).
Proof. intros H. unfold Server.tilesPerSide. now apply Zceil_div. Qed.

Lemma ceilDiv_bound (a b : Z) :
  0 < b -> 0 < a -> 0 < ceilDiv a b /\ (ceilDiv a b - 1) * b < a <= ceilDiv a b * b.
Proof.
  intros Hb Ha. unfold ceilDiv.
  pose proof (Z.div_mod (a + b - 1) b ltac:(lia)) as Hdm.
  pose proof (Z.mod_pos_bound (a + b - 1) b Hb) as Hm.
  set (q := (a + b - 1) / b) in *. nia.
Qed.

Lemma stored_byte (face : buffer) (idx v : Z) :
  Forall is_byte face -> readIdx face idx = Some v ->
  Some (toUint8Clamp (readIdx face idx)) = Some v.
Proof.
  intros Hbytes Hread. rewrite Hread. simpl. f_equal.
  unfold readIdx in Hread. destruct (idx <? 0); [discriminate|].
  rewrite Forall_lookup in Hbytes. specialize (Hbytes _ _ Hread).
  unfold is_byte in Hbytes. unfold clamp8. lia.
Qed.

Lemma copied_face_pixel (face : buffer) (faceSize px py : Z) :
  face_buffer face faceSize ->
  0 <= px < faceSize -> 0 <= py < faceSize ->
  copied face faceSize px py = rgbaAt face faceSize px py.
Proof.
  intros [Hlen Hbytes] Hpx Hpy.
  pose proof (row_major_bound faceSize px py Hpx Hpy) as Hk.
  unfold copied, rgbaAt.
  destruct (readIdx_in_range face ((py * faceSize + px) * 4)) as [r Hr]; [lia|].
  destruct (readIdx_in_range face ((py * faceSize + px) * 4 + 1)) as [g Hg]; [lia|].
  destruct (readIdx_in_range face ((py * faceSize + px) * 4 + 2)) as [b Hb]; [lia|].
  destruct (readIdx_in_range face ((py * faceSize + px) * 4 + 3)) as [a Ha]; [lia|].
  rewrite (stored_byte face _ r Hbytes Hr), (stored_byte face _ g Hbytes Hg),
          (stored_byte face _ b Hbytes Hb), (stored_byte face _ a Hbytes Ha).
  now rewrite Hr, Hg, Hb, Ha.
Qed.

Lemma copyStep_inv (face init : buffer) (sourceX sourceY faceSize ts sw sh y x : Z)
    (tileData : buffer) :
  0 <= sw <= ts -> 0 <= sh <= ts ->
  Z.of_nat (length init) = ts * ts * 4 ->
  0 <= x < sw -> 0 <= y < sh ->
  copyInv face init sourceX sourceY faceSize ts sw sh (y * ts + x) tileData ->
  copyInv face init sourceX sourceY faceSize ts sw sh (y * ts + (x + 1))
    (copyStep face sourceX sourceY faceSize ts y x tileData).
Proof.
  intros Hsw Hsh Hinit Hx Hy (Hlen & Hdone & Hrest).
  assert (Hxt : 0 <= x < ts) by lia. assert (Hyt : 0 <= y < ts) by lia.
  pose proof (row_major_bound ts x y Hxt Hyt) as Hk.
  unfold copyStep. cbv zeta.
  split; [rewrite length_write4; exact Hlen|]. split.
  - intros x' y' Hx' Hy' Hlt.
    destruct (Z.eq_dec (y' * ts + x') (y * ts + x)) as [Heq|Hne].
    + destruct (row_major_inj ts x y x' y' Hxt ltac:(lia) Heq) as [-> ->].
      unfold rgbaAt, copied.
      match goal with
      | |- context [write4 tileData ?i ?r ?g ?b ?a] =>
          destruct (readIdx_write4 tileData i r g b a) as (H0 & H1 & H2 & H3); [lia | lia |]
      end.
      rewrite H0, H1, H2, H3. reflexivity.
    + unfold rgbaAt. rewrite !readIdx_write4_other by lia.
      apply Hdone; [exact Hx' | exact Hy' | lia].
  - intros x' y' Hx' Hy' Hout.
    assert (Hne : y' * ts + x' <> y * ts + x).
    { intros Heq. destruct (row_major_inj ts x y x' y' Hxt Hx' Heq) as [-> ->]. lia. }
    unfold rgbaAt. rewrite !readIdx_write4_other by lia.
    apply Hrest; [exact Hx' | exact Hy' | lia].
Qed.

Lemma copy_loops (body : Z -> Z -> buffer -> buffer) (face init : buffer)
    (sourceX sourceY faceSize ts sw sh : Z) :
  0 <= sw <= ts -> 0 <= sh <= ts ->
  Z.of_nat (length init) = ts * ts * 4 ->
  (forall y x td, 0 <= x < sw -> 0 <= y < sh ->
     body y x td = copyStep face sourceX sourceY faceSize ts y x td) ->
  copyInv face init sourceX sourceY faceSize ts sw sh (sh * ts)
    (for_range sh (fun y td => for_range sw (fun x td' => body y x td') td) init).
Proof.
  intros Hsw Hsh Hinit Hbody.
  apply (for_range_inv
           (fun y td => copyInv face init sourceX sourceY faceSize ts sw sh (y * ts) td)).
  - lia.
  - split; [reflexivity|]. split; [intros x y Hx Hy Hlt; nia | reflexivity].
  - intros y td Hy Hinv.
    assert (Hrow : copyInv face init sourceX sourceY faceSize ts sw sh (y * ts + sw)
                     (for_range sw (fun x td' => body y x td') td)).
    { apply (for_range_inv
               (fun x td' =>
                  copyInv face init sourceX sourceY faceSize ts sw sh (y * ts + x) td')).
      - lia.
      - now rewrite Z.add_0_r.
      - intros x t Hx Ht. rewrite Hbody by assumption.
        now apply copyStep_inv. }
    destruct Hrow as (Hlen & Hdone & Hrest).
    split; [exact Hlen|]. split.
    + intros x' y' Hx' Hy' Hlt.
      assert (Hrow : y' <= y) by nia.
      apply Hdone; [exact Hx' | exact Hy' | nia].
    + intros x' y' Hx' Hy' Hout. apply Hrest; [exact Hx' | exact Hy' | lia].
Qed.

Lemma fillBlack_inv (tileData : buffer) (n : Z) :
  0 <= n -> Z.of_nat (length tileData) = n * 4 ->
  fillInv tileData n (ServerV0.fillBlack tileData).
Proof.
  intros Hn Hlen. unfold ServerV0.fillBlack, for_step.
  rewrite Hlen. replace ((n * 4 + 4 - 1) / 4) with n
    by (apply Z.div_unique with (r := 3); lia).
  pose proof (loop_by_inv (fillInv tileData)
                (fun i td => write (write (write (write td i (Some 0)) (i + 1) (Some 0))
                                      (i + 2) (Some 0)) (i + 3) (Some 255))
                4 (Z.to_nat n) 0 tileData) as H.
  rewrite Z2Nat.id, Z.add_0_l in H by exact Hn. apply H.
  - split; [reflexivity | intros p c Hp; lia].
  - intros j t Hj (Hl & Hdone).
    fold (write4 t (j * 4) (Some 0) (Some 0) (Some 0) (Some 255)).
    split; [now rewrite length_write4|].
    intros p c Hp Hc.
    destruct (Z.eq_dec p j) as [->|Hne].
    + destruct (readIdx_write4 t (j * 4) (Some 0) (Some 0) (Some 0) (Some 255))
        as (H0 & H1 & H2 & H3); [lia | lia |].
      assert (Hcase : c = 0 \/ c = 1 \/ c = 2 \/ c = 3) by lia.
      destruct Hcase as [->|[->|[->| ->]]];
        [rewrite Z.add_0_r; exact H0 | exact H1 | exact H2 | exact H3].
    + rewrite readIdx_write4_other by lia. apply Hdone; lia.
Qed.

Lemma fillBlack_pixel (ts x y : Z) :
  0 <= x < ts -> 0 <= y < ts ->
  rgbaAt (ServerV0.fillBlack (createImageData ts ts)) ts x y
  = (Some 0, Some 0, Some 0, Some 255).
Proof.
  intros Hx Hy.
  pose proof (row_major_bound ts x y Hx Hy) as Hk.
  destruct (fillBlack_inv (createImageData ts ts) (ts * ts)) as (_ & Hfill);
    [nia | apply length_createImageData_square |].
  unfold rgbaAt.
  rewrite <- (Z.add_0_r ((y * ts + x) * 4)) at 1.
  now rewrite !Hfill by lia.
Qed.

Lemma createImageData_pixel (ts x y : Z) :
  0 <= x < ts -> 0 <= y < ts ->
  rgbaAt (createImageData ts ts) ts x y = (Some 0, Some 0, Some 0, Some 0).
Proof.
  intros Hx Hy.
  pose proof (row_major_bound ts x y Hx Hy) as Hk.
  unfold rgbaAt. now rewrite !readIdx_createImageData by lia.
Qed.

Lemma tileExtent_in_grid (t ts faceSize : Z) :
  0 < ts -> 0 < faceSize -> 0 <= t < ceilDiv faceSize ts ->
  0 < tileExtent t ts faceSize <= ts /\
  tileOffset t ts + tileExtent t ts faceSize <= faceSize.
Proof.
  intros Hts Hfs Ht.
  destruct (ceilDiv_bound faceSize ts Hts Hfs) as (Hn & Hlo & Hhi).
  unfold tileExtent, tileOffset. nia.
Qed.

(** The copy loop of the route: the valid region is copied, the rest of
    the tile keeps its initial transparent black. *)
Lemma server_tilePixels_copy (face : buffer) (tileX tileY faceSize : Z) (config : TileConfig) :
  let ts := tileSize config in
  let sw := tileExtent tileX ts faceSize in
  let sh := tileExtent tileY ts faceSize in
  0 < ts -> 0 <= sw -> 0 <= sh ->
  copyInv face (createImageData ts ts) (tileOffset tileX ts) (tileOffset tileY ts)
    faceSize ts sw sh (sh * ts)
    (Server.tilePixels face tileX tileY config faceSize).
Proof.
  intros ts sw sh. subst ts sw sh. intros Hts Hsw Hsh.
  unfold Server.tilePixels.
  apply (copy_loops
           (fun y x td =>
              copyStep face (tileOffset tileX (tileSize config))
                (tileOffset tileY (tileSize config)) faceSize (tileSize config) y x td)).
  - unfold tileExtent, tileOffset in *. lia.
  - unfold tileExtent, tileOffset in *. lia.
  - apply length_createImageData_square.
  - reflexivity.
Qed.

(** The copy loop of the logging variant: inside the face the guard holds,
    so the valid region is copied and the rest keeps the black fill. *)
Lemma serverV0_tilePixels_copy (face : buffer) (tileX tileY faceSize : Z)
    (config : TileConfig) :
  let ts := tileSize config in
  let sw := tileExtent tileX ts faceSize in
  let sh := tileExtent tileY ts faceSize in
  Z.of_nat (length face) = faceSize * faceSize * 4 ->
  0 < ts -> 0 <= tileX -> 0 <= tileY -> 0 <= sw -> 0 <= sh ->
  copyInv face (ServerV0.fillBlack (createImageData ts ts))
    (tileOffset tileX ts) (tileOffset tileY ts) faceSize ts sw sh (sh * ts)
    (ServerV0.tilePixels face tileX tileY config faceSize).
Proof.
  intros ts sw sh. subst ts sw sh. intros Hlen Hts HtX HtY Hsw Hsh.
  unfold ServerV0.tilePixels.
  apply (copy_loops
           (fun y x td =>
              let sourceIdx :=
                ((tileY * tileSize config + y) * faceSize + (tileX * tileSize config + x)) * 4 in
              if (0 <=? sourceIdx) && (sourceIdx <? Z.of_nat (length face) - 3)
              then copyStep face (tileOffset tileX (tileSize config))
                     (tileOffset tileY (tileSize config)) faceSize (tileSize config) y x td
              else td)).
  - unfold tileExtent, tileOffset in *. lia.
  - unfold tileExtent, tileOffset in *. lia.
  - destruct (fillBlack_inv (createImageData (tileSize config) (tileSize config))
                (tileSize config * tileSize config)) as (Hl & _);
      [nia | apply length_createImageData_square |].
    rewrite Hl. apply length_createImageData_square.
  - intros y x td Hx Hy. cbv zeta.
    unfold tileExtent, tileOffset in *.
    assert (Hpx : 0 <= tileX * tileSize config + x < faceSize) by nia.
    assert (Hpy : 0 <= tileY * tileSize config + y < faceSize) by nia.
    pose proof (row_major_bound faceSize _ _ Hpx Hpy) as Hk.
    destruct (Z.leb_spec 0 (((tileY * tileSize config + y) * faceSize
                              + (tileX * tileSize config + x)) * 4)); [|lia].
    destruct (Z.ltb_spec (((tileY * tileSize config + y) * faceSize
                              + (tileX * tileSize config + x)) * 4)
                         (Z.of_nat (length face) - 3)); [|lia].
    reflexivity.
Qed.

(** ** Slicing a face into its grid of tiles *)

Section Slicing.

Context {Blob : Type}.
Variable createTile : buffer -> Z -> Z -> TileConfig -> Z -> M Blob.

Lemma sliceInv_insert (z : Z) (faceName : string) (n x y : Z)
    (tiles0 tiles : gmap Server.tileKey Blob) (blob : Blob) :
  0 <= x < n -> 0 <= y < n ->
  sliceInv z faceName n tiles0 (y * n + x) tiles ->
  sliceInv z faceName n tiles0 (y * n + (x + 1)) (<[(z, faceName, y, x) := blob]> tiles).
Proof.
  intros Hx Hy [Hdone Hrest]. split.
  - intros x' y' Hx' Hy' Hlt.
    destruct (Z.eq_dec (y' * n + x') (y * n + x)) as [Heq|Hne].
    + destruct (row_major_inj n x y x' y' Hx Hx' Heq) as [-> ->].
      rewrite lookup_insert_eq. eauto.
    + rewrite lookup_insert_ne by (intros Hkey; inversion Hkey; lia).
      apply Hdone; [exact Hx' | exact Hy' | lia].
  - intros key Hout.
    rewrite lookup_insert_ne; [now apply Hrest|].
    intros <-. apply Hout. exists x, y. auto.
Qed.

Lemma sliceInv_row (z : Z) (faceName : string) (n y : Z)
    (tiles0 tiles : gmap Server.tileKey Blob) :
  0 <= y < n ->
  sliceInv z faceName n tiles0 (y * n + n) tiles ->
  sliceInv z faceName n tiles0 ((y + 1) * n) tiles.
Proof. intros Hy Hinv. now replace ((y + 1) * n) with (y * n + n) by lia. Qed.

(** If every call of the tile method returns, the slicing loops return and
    store one tile under each key of the grid, and nothing else. *)
Lemma sliceFace_returns (face : buffer) (config : TileConfig) (faceSize z : Z)
    (faceName : string) (n : Z) (tiles : gmap Server.tileKey Blob) (h : history) :
  0 <= n ->
  (forall x y g, exists blob g', createTile face x y config faceSize g = (Return blob, g')) ->
  exists tiles' h',
    Server.sliceFace createTile face config faceSize z faceName n tiles h
      = (Return tiles', h') /\
    sliceInv z faceName n tiles (n * n) tiles'.
Proof.
  intros Hn Hcall. unfold Server.sliceFace.
  apply (for_rangeM_inv (fun y t _ => sliceInv z faceName n tiles (y * n) t)); [exact Hn | |].
  - split; [intros x y Hx Hy Hlt; nia | reflexivity].
  - intros y t g Hy Hinv.
    destruct (for_rangeM_inv
                (fun x t' (_ : history) => sliceInv z faceName n tiles (y * n + x) t')
                (fun x t' =>
                   bind (createTile face x y config faceSize)
                     (fun tileBuffer => ret (<[(z, faceName, y, x) := tileBuffer]> t')))
                n t g Hn) as (t' & g' & Hrun & Hinv').
    + now rewrite Z.add_0_r.
    + intros x t1 g1 Hx Ht1.
      destruct (Hcall x y g1) as (blob & g2 & Hb).
      exists (<[(z, faceName, y, x) := blob]> t1), g2.
      split; [unfold bind; rewrite Hb; reflexivity|].
      now apply sliceInv_insert.
    + exists t', g'. split; [exact Hrun|]. now apply sliceInv_row.
Qed.

End Slicing.

Lemma length_gridAttempts (face : buffer) (config : TileConfig) (faceSize n k : Z) :
  length (gridAttempts face config faceSize n k) = Z.to_nat k.
Proof. unfold gridAttempts. now rewrite length_fmap, length_seqZ. Qed.

Lemma gridAttempts_snoc (face : buffer) (config : TileConfig) (faceSize n x y : Z) :
  0 <= x < n -> 0 <= y ->
  gridAttempts face config faceSize n (y * n + x)
    ++ [mkAttempt (Server.tilePixels face x y config faceSize) 1]
  = gridAttempts face config faceSize n (y * n + (x + 1)).
Proof.
  intros Hx Hy. unfold gridAttempts.
  replace (y * n + (x + 1)) with ((y * n + x) + 1) by lia.
  rewrite (seqZ_app 0 (y * n + x) 1) by nia. rewrite fmap_app. f_equal.
  rewrite seqZ_cons, seqZ_nil by lia.
  rewrite Z.add_0_l. simpl fmap.
  replace ((y * n + x) `mod` n) with x
    by (symmetry; rewrite Z.add_comm, Z.mod_add by lia; apply Z.mod_small; lia).
  replace ((y * n + x) `div` n) with y
    by (symmetry; rewrite Z.div_add_l by lia; rewrite Z.div_small by lia; lia).
  reflexivity.
Qed.

(** With an encoder that accepts maximum quality, the route slices a face
    by exactly one encoder call per tile of the grid, in row-major order. *)
Lemma sliceFace_server {Blob : Type}
    (convertToBlob : history -> buffer -> Q -> completion Blob)
    (face : buffer) (config : TileConfig) (faceSize z : Z) (faceName : string) (n : Z)
    (tiles : gmap Server.tileKey Blob) (h : history) :
  0 <= n ->
  (forall g px, exists blob, convertToBlob g px 1%Q = Return blob) ->
  exists tiles',
    Server.sliceFace (Server.createTile convertToBlob) face config faceSize z faceName n tiles h
      = (Return tiles', h ++ gridAttempts face config faceSize n (n * n)) /\
    sliceInv z faceName n tiles (n * n) tiles'.
Proof.
  intros Hn Henc. unfold Server.sliceFace.
  destruct (for_rangeM_inv
              (fun y t g => g = h ++ gridAttempts face config faceSize n (y * n) /\
                            sliceInv z faceName n tiles (y * n) t)
              (fun y t =>
                 for_rangeM n (fun x t' =>
                   bind (Server.createTile convertToBlob face x y config faceSize)
                     (fun tileBuffer => ret (<[(z, faceName, y, x) := tileBuffer]> t'))) t)
              n tiles h Hn) as (t' & g' & Hrun & -> & Hinv).
  - split; [unfold gridAttempts; simpl; now rewrite app_nil_r|].
    split; [intros x y Hx Hy Hlt; nia | reflexivity].
  - intros y t g Hy [-> Hinv].
    destruct (for_rangeM_inv
                (fun x t' g' => g' = h ++ gridAttempts face config faceSize n (y * n + x) /\
                                sliceInv z faceName n tiles (y * n + x) t')
                (fun x t' =>
                   bind (Server.createTile convertToBlob face x y config faceSize)
                     (fun tileBuffer => ret (<[(z, faceName, y, x) := tileBuffer]> t')))
                n t (h ++ gridAttempts face config faceSize n (y * n)) Hn)
      as (t' & g' & Hrun & -> & Hinv').
    + now rewrite Z.add_0_r.
    + intros x t1 g1 Hx [-> Ht1].
      destruct (Henc (h ++ gridAttempts face config faceSize n (y * n + x))
                  (Server.tilePixels face x y config faceSize)) as [blob Hb].
      exists (<[(z, faceName, y, x) := blob]> t1),
             (h ++ gridAttempts face config faceSize n (y * n + (x + 1))).
      split.
      * unfold bind, Server.createTile, Server.canvasConvertToBlob. rewrite Hb.
        unfold ret. now rewrite <- app_assoc, gridAttempts_snoc by lia.
      * split; [reflexivity | now apply sliceInv_insert].
    + exists t', (h ++ gridAttempts face config faceSize n (y * n + n)).
      split; [exact Hrun|].
      replace ((y + 1) * n) with (y * n + n) by lia. split; [reflexivity | exact Hinv'].
  - exists t'. split; [exact Hrun | exact Hinv].
Qed.

Lemma tileExtent_trailing (ts faceSize : Z) :
  0 < ts -> 0 < faceSize ->
  tileExtent (ceilDiv faceSize ts - 1) ts faceSize
  = if faceSize mod ts =? 0 then ts else faceSize mod ts.
Proof.
  intros Hts Hfs.
  destruct (ceilDiv_bound faceSize ts Hts Hfs) as (Hn & Hlo & Hhi).
  pose proof (Z.div_mod faceSize ts ltac:(lia)) as Hdm.
  pose proof (Z.mod_pos_bound faceSize ts Hts) as Hm.
  set (n := ceilDiv faceSize ts) in *.
  set (q := faceSize / ts) in *. set (r := faceSize mod ts) in *.
  unfold tileExtent, tileOffset.
  destruct (Z.eqb_spec r 0) as [Hr|Hr].
  - assert (q = n) by nia. nia.
  - assert (n = q + 1) by nia. nia.
Qed.

Lemma tileExtent_full (t ts faceSize : Z) :
  0 < ts -> 0 < faceSize -> 0 <= t < ceilDiv faceSize ts - 1 ->
  tileExtent t ts faceSize = ts.
Proof.
  intros Hts Hfs Ht.
  destruct (ceilDiv_bound faceSize ts Hts Hfs) as (Hn & Hlo & Hhi).
  unfold tileExtent, tileOffset. nia.
Qed.

(** Along one axis every face coordinate lies in the valid region of
    exactly one tile. *)
Lemma tile_axis_partition (ts faceSize p : Z) :
  0 < ts -> 0 < faceSize -> 0 <= p < faceSize ->
  (0 <= p / ts < ceilDiv faceSize ts /\
   0 <= p mod ts < tileExtent (p / ts) ts faceSize /\
   tileOffset (p / ts) ts + p mod ts = p) /\
  forall t x, 0 <= t -> 0 <= x < tileExtent t ts faceSize ->
    tileOffset t ts + x = p -> t = p / ts /\ x = p mod ts.
Proof.
  intros Hts Hfs Hp.
  destruct (ceilDiv_bound faceSize ts Hts Hfs) as (Hn & Hlo & Hhi).
  pose proof (Z.div_mod p ts ltac:(lia)) as Hdm.
  pose proof (Z.mod_pos_bound p ts Hts) as Hm.
  unfold tileExtent, tileOffset. split.
  - assert (0 <= p / ts) by (apply Z.div_pos; lia).
    assert (p / ts < ceilDiv faceSize ts) by nia.
    repeat split; try lia.
  - intros t x Ht Hx Heq.
    assert (Hq : t = p / ts) by (apply Z.div_unique with (r := x); lia).
    split; [exact Hq|]. subst t. lia.
Qed.

(** C5: for a face buffer of side [faceSize > 0] and [tileSize > 0],
    with [n = ceil(faceSize / tileSize)]:
    - the slicing loops make exactly one tile for each of the [n * n] grid
      positions (one encoder call per position, in row-major order; a key
      for every position and no other key touched);
    - tile [(row, col)] copies from source offset
      [(col * tileSize, row * tileSize)] a region of width and height
      [min(tileSize, faceSize - offset)], byte for byte (no resampling), and
      leaves the rest of the tile at its fill value, in both server variants;
    - the last tile along an axis has extent [faceSize mod tileSize] when
      that is non-zero and [tileSize] otherwise; the others are full;
    - every face pixel lies in the valid region of exactly one tile, and
      no valid region leaves the face. *)
Theorem tile_slicer_partition {Blob : Type}
    (convertToBlob : history -> buffer -> Q -> completion Blob)
    (face : buffer) (faceSize ts : Z) (fallback : option bool) :
  0 < faceSize -> 0 < ts -> face_buffer face faceSize ->
  let config := mkConfig ts faceSize fallback in
  let n := Server.tilesPerSide config in
  n = ceilDiv faceSize ts /\ 0 < n /\
  (forall z faceName tiles h,
     (forall g px, exists blob, convertToBlob g px 1%Q = Return blob) ->
     exists tiles',
       Server.sliceFace (Server.createTile convertToBlob)
         face config faceSize z faceName n tiles h
       = (Return tiles', h ++ gridAttempts face config faceSize n (n * n)) /\
       length (gridAttempts face config faceSize n (n * n)) = Z.to_nat (n * n) /\
       (forall row col, 0 <= row < n -> 0 <= col < n ->
          is_Some (tiles' !! (z, faceName, row, col))) /\
       (forall key, ~ inGrid z faceName n key -> tiles' !! key = tiles !! key)) /\
  (forall row col, 0 <= row < n -> 0 <= col < n ->
     let sw := Z.min ts (faceSize - col * ts) in
     let sh := Z.min ts (faceSize - row * ts) in
     (0 < sw <= ts /\ 0 < sh <= ts /\ col * ts + sw <= faceSize /\ row * ts + sh <= faceSize) /\
     (forall x y, 0 <= x < sw -> 0 <= y < sh ->
        rgbaAt (Server.tilePixels face col row config faceSize) ts x y
          = rgbaAt face faceSize (col * ts + x) (row * ts + y) /\
        rgbaAt (ServerV0.tilePixels face col row config faceSize) ts x y
          = rgbaAt face faceSize (col * ts + x) (row * ts + y)) /\
     (forall x y, 0 <= x < ts -> 0 <= y < ts -> sw <= x \/ sh <= y ->
        rgbaAt (Server.tilePixels face col row config faceSize) ts x y
          = (Some 0, Some 0, Some 0, Some 0) /\
        rgbaAt (ServerV0.tilePixels face col row config faceSize) ts x y
          = (Some 0, Some 0, Some 0, Some 255))) /\
  Z.min ts (faceSize - (n - 1) * ts)
    = (if faceSize mod ts =? 0 then ts else faceSize mod ts) /\
  (forall t, 0 <= t < n - 1 -> Z.min ts (faceSize - t * ts) = ts) /\
  (forall px py, 0 <= px < faceSize -> 0 <= py < faceSize ->
     exists row col x y,
       (0 <= row < n /\ 0 <= col < n /\
        0 <= x < Z.min ts (faceSize - col * ts) /\
        0 <= y < Z.min ts (faceSize - row * ts) /\
        col * ts + x = px /\ row * ts + y = py) /\
       forall row' col' x' y',
         0 <= row' < n -> 0 <= col' < n ->
         0 <= x' < Z.min ts (faceSize - col' * ts) ->
         0 <= y' < Z.min ts (faceSize - row' * ts) ->
         col' * ts + x' = px -> row' * ts + y' = py ->
         row' = row /\ col' = col /\ x' = x /\ y' = y).
Proof.
  intros Hfs Hts Hface config n.
  assert (Hn : n = ceilDiv faceSize ts) by (apply (tilesPerSide_ceilDiv config); exact Hts).
  destruct (ceilDiv_bound faceSize ts Hts Hfs) as (Hpos & Hlo & Hhi).
  split; [exact Hn|]. split; [lia|]. split; [|split; [|split; [|split]]].
  - intros z faceName tiles h Henc.
    destruct (sliceFace_server convertToBlob face config faceSize z faceName n tiles h)
      as (tiles' & Hrun & Hdone & Hrest); [lia | exact Henc |].
    exists tiles'. split; [exact Hrun|]. split; [apply length_gridAttempts|].
    split; [|exact Hrest].
    intros row col Hrow Hcol. apply Hdone; [exact Hcol | exact Hrow | nia].
  - intros row col Hrow Hcol sw sh.
    destruct (tileExtent_in_grid col ts faceSize Hts Hfs ltac:(lia)) as [Hsw Hswf].
    destruct (tileExtent_in_grid row ts faceSize Hts Hfs ltac:(lia)) as [Hsh Hshf].
    unfold tileExtent, tileOffset in Hsw, Hswf, Hsh, Hshf.
    fold sw in Hsw, Hswf. fold sh in Hsh, Hshf.
    pose proof (server_tilePixels_copy face col row faceSize config) as HS.
    pose proof (serverV0_tilePixels_copy face col row faceSize config) as HV.
    cbv zeta in HS, HV. unfold tileExtent, tileOffset in HS, HV.
    change (tileSize config) with ts in HS, HV.
    fold sw in HS, HV. fold sh in HS, HV.
    destruct HS as (_ & HSin & HSout); [lia | lia | lia |].
    destruct HV as (_ & HVin & HVout);
      [exact (proj1 Hface) | lia | lia | lia | lia | lia |].
    split; [lia|]. split.
    + intros x y Hx Hy.
      rewrite (HSin x y Hx Hy), (HVin x y Hx Hy) by nia.
      rewrite copied_face_pixel by (try exact Hface; lia). auto.
    + intros x y Hx Hy Hout.
      rewrite (HSout x y Hx Hy), (HVout x y Hx Hy) by lia.
      rewrite createImageData_pixel, fillBlack_pixel by lia. auto.
  - rewrite Hn. apply (tileExtent_trailing ts faceSize Hts Hfs).
  - intros t Ht. apply (tileExtent_full t ts faceSize Hts Hfs). lia.
  - intros px py Hpx Hpy.
    destruct (tile_axis_partition ts faceSize px Hts Hfs Hpx) as [(Hc & Hx & Hxe) Hxu].
    destruct (tile_axis_partition ts faceSize py Hts Hfs Hpy) as [(Hr & Hy & Hye) Hyu].
    unfold tileExtent, tileOffset in *.
    exists (py / ts), (px / ts), (px mod ts), (py mod ts).
    split; [repeat split; lia|].
    intros row' col' x' y' Hrow' Hcol' Hx' Hy' Hex Hey.
    destruct (Hxu col' x') as [-> ->]; [lia | exact Hx' | exact Hex |].
    destruct (Hyu row' y') as [-> ->]; [lia | exact Hy' | exact Hey |].
    auto.
Qed.

Lemma face33_buffer : face_buffer face33 3.
Proof.
  split; [reflexivity|].
  unfold face33. apply Forall_fmap, Forall_forall. intros k Hk.
  apply elem_of_seq in Hk. unfold is_byte. simpl. lia.
Qed.

Lemma tile_slicer_partition_witness :
  Server.tilesPerSide (mkConfig 2 3 None) = 2 /\
  rgbaAt (Server.tilePixels face33 1 1 (mkConfig 2 3 None) 3) 2 0 0 = rgbaAt face33 3 2 2 /\
  Z.min 2 (3 - (Server.tilesPerSide (mkConfig 2 3 None) - 1) * 2) = 1.
Proof.
  assert (H3 : 0 < 3) by lia. assert (H2 : 0 < 2) by lia.
  pose proof (tile_slicer_partition (fun _ _ _ => Return tt) face33 3 2 None
                H3 H2 face33_buffer) as H.
  cbv zeta in H.
  destruct H as (Hn & _ & _ & Hcopy & Htrail & _).
  assert (Hn2 : Server.tilesPerSide (mkConfig 2 3 None) = 2) by (rewrite Hn; reflexivity).
  split; [exact Hn2|]. split.
  - destruct (Hcopy 1 1) as (_ & Hin & _); [rewrite Hn2; lia | rewrite Hn2; lia |].
    destruct (Hin 0 0) as [Heq _]; [simpl; lia | simpl; lia |].
    exact Heq.
  - rewrite Htrail. reflexivity.
Defined.

(** ** Flat images stay flat *)

Lemma flat_image_bytes (img : ImageBitmap) (r g b : Z) :
  flat_image img r g b -> is_byte r /\ is_byte g /\ is_byte b.
Proof.
  intros [[Hw Hh Hlen Hbytes] Hflat].
  destruct (Hflat 0) as (Hr & Hg & Hb); [nia|].
  rewrite Forall_lookup in Hbytes.
  unfold readIdx in Hr, Hg, Hb. simpl in Hr, Hg, Hb.
  repeat split; eapply Hbytes; eassumption.
Qed.

Lemma getPixel_flat (img : ImageBitmap) (r g b x y : Z) :
  flat_image img r g b ->
  0 <= x <= img_width img - 1 -> 0 <= y <= img_height img - 1 ->
  Server.getPixel (img_data img) (img_width img) (Some x) (Some y)
  = (Some r, Some g, Some b).
Proof.
  intros [_ Hflat] Hx Hy.
  destruct (Hflat (y * img_width img + x)) as (Hr & Hg & Hb); [nia|].
  unfold Server.getPixel. simpl. now rewrite Hr, Hg, Hb.
Qed.

Lemma sample_flat (img : ImageBitmap) (r g b : Z) (u v : R) :
  flat_image img r g b ->
  Server.sampleEquirectangularBilinear (img_data img) (fin u) (fin v)
    (img_width img) (img_height img)
  = (Some r, Some g, Some b).
Proof.
  intros Hflat. pose proof Hflat as [[Hw Hh _ _] _].
  rewrite sample_finite.
  pose proof (cornerLo_bound u (img_width img) ltac:(lia)).
  pose proof (cornerHi_bound u (img_width img) ltac:(lia)).
  pose proof (cornerLo_bound v (img_height img) ltac:(lia)).
  pose proof (cornerHi_bound v (img_height img) ltac:(lia)).
  apply blend_constant; apply (getPixel_flat img r g b); assumption.
Qed.

Lemma raster_flat (img : ImageBitmap) (r g b face size x y : Z) :
  flat_image img r g b -> 0 <= face <= 5 ->
  rasterVia cornerCoord img face size x y = (Some r, Some g, Some b).
Proof.
  intros Hflat Hface. unfold rasterVia.
  pose proof (equirect_valid_face face (cornerCoord x size) (cornerCoord y size) Hface) as H.
  destruct (Server.faceDirection face _ _) as [[dx dy] dz].
  rewrite H. now apply sample_flat.
Qed.

Lemma flat42_flat : flat_image flat42 128 64 32.
Proof.
  split.
  - split; [reflexivity | reflexivity | reflexivity |].
    unfold flat42. simpl. repeat (constructor; [unfold is_byte; lia|]). constructor.
  - intros k Hk. simpl in Hk.
    assert (Hcase : k = 0 \/ k = 1 \/ k = 2 \/ k = 3 \/ k = 4 \/ k = 5 \/ k = 6 \/ k = 7)
      by lia.
    destruct Hcase as [->|[->|[->|[->|[->|[->|[->| ->]]]]]]]; repeat split; reflexivity.
Qed.

(** C9: when every pixel of a valid source image has the RGB value
    [(r, g, b)], every pixel of every face (ids 0..5) of every side, hence at
    every level of the table, is exactly [(r, g, b)] with alpha 255, and so is
    every pixel of the valid region of every tile cut from it, in both server
    variants. *)
Theorem flat_image_invariant (img : ImageBitmap) (r g b face faceSize : Z) :
  flat_image img r g b -> 0 <= face <= 5 -> 0 <= faceSize ->
  exists faceData,
    Server.generateCubeFace img face faceSize = Return faceData /\
    (forall x y, 0 <= x < faceSize -> 0 <= y < faceSize ->
       Server.sampleEquirectangularBilinear (img_data img)
         (equirect face (IZR x / IZR faceSize) (IZR y / IZR faceSize)).1
         (equirect face (IZR x / IZR faceSize) (IZR y / IZR faceSize)).2
         (img_width img) (img_height img) = (Some r, Some g, Some b) /\
       rgbaAt faceData faceSize x y = (Some r, Some g, Some b, Some 255)) /\
    (forall ts fallback row col x y,
       0 < ts ->
       0 <= row < ceilDiv faceSize ts -> 0 <= col < ceilDiv faceSize ts ->
       0 <= x < Z.min ts (faceSize - col * ts) ->
       0 <= y < Z.min ts (faceSize - row * ts) ->
       rgbaAt (Server.tilePixels faceData col row (mkConfig ts faceSize fallback) faceSize)
         ts x y = (Some r, Some g, Some b, Some 255) /\
       rgbaAt (ServerV0.tilePixels faceData col row (mkConfig ts faceSize fallback) faceSize)
         ts x y = (Some r, Some g, Some b, Some 255)).
Proof.
  intros Hflat Hface Hsize.
  destruct (flat_image_bytes img r g b Hflat) as (Hr & Hg & Hb).
  destruct (generateCubeFace_pixels img face faceSize Hsize) as (fd & Hrun & Hlen & Hpx).
  assert (Hface_px : forall x y, 0 <= x < faceSize -> 0 <= y < faceSize ->
            rgbaAt fd faceSize x y = (Some r, Some g, Some b, Some 255)).
  { intros x y Hx Hy. rewrite (Hpx x y Hx Hy) by nia.
    rewrite (raster_flat img r g b) by assumption.
    unfold stored. simpl. now rewrite !clamp8_byte. }
  exists fd. split; [exact Hrun|]. split.
  - intros x y Hx Hy. split; [|now apply Hface_px].
    pose proof (raster_flat img r g b face faceSize x y Hflat Hface) as H.
    unfold rasterVia, cornerCoord in H.
    now destruct (equirect face (IZR x / IZR faceSize) (IZR y / IZR faceSize)).
  - intros ts fallback row col x y Hts Hrow Hcol Hx Hy.
    assert (Hfs : 0 < faceSize) by lia.
    destruct (tileExtent_in_grid col ts faceSize Hts Hfs ltac:(lia)) as [Hsw Hswf].
    destruct (tileExtent_in_grid row ts faceSize Hts Hfs ltac:(lia)) as [Hsh Hshf].
    pose proof (server_tilePixels_copy fd col row faceSize (mkConfig ts faceSize fallback))
      as HS.
    pose proof (serverV0_tilePixels_copy fd col row faceSize (mkConfig ts faceSize fallback))
      as HV.
    cbv zeta in HS, HV. simpl tileSize in HS, HV.
    destruct HS as (_ & HSin & _); [lia | lia | lia |].
    destruct HV as (_ & HVin & _); [exact Hlen | lia | lia | lia | lia | lia |].
    unfold tileExtent, tileOffset in *.
    assert (Hcopied : copied fd faceSize (col * ts + x) (row * ts + y)
                      = (Some r, Some g, Some b, Some 255)).
    { pose proof (Hface_px (col * ts + x) (row * ts + y) ltac:(lia) ltac:(lia)) as Hp.
      unfold rgbaAt in Hp. injection Hp as H0 H1 H2 H3.
      unfold copied. rewrite H0, H1, H2, H3. simpl. now rewrite !clamp8_byte. }
    rewrite (HSin x y) by (try nia; lia). rewrite (HVin x y) by (try nia; lia).
    now rewrite Hcopied.
Qed.

Lemma flat_image_invariant_witness :
  exists faceData,
    Server.generateCubeFace flat42 4 256 = Return faceData /\
    rgbaAt faceData 256 255 255 = (Some 128, Some 64, Some 32, Some 255).
Proof.
  assert (Hface : 0 <= 4 <= 5) by lia. assert (Hsize : 0 <= 256) by lia.
  destruct (flat_image_invariant flat42 128 64 32 4 256 flat42_flat Hface Hsize)
    as (fd & Hrun & Hpx & _).
  exists fd. split; [exact Hrun|].
  apply Hpx; lia.
Defined.

(** ** Tile counts *)

Lemma bind_Return {A B : Type} (m : M A) (k : A -> M B) (h h' : history) (a : A) :
  m h = (Return a, h') -> bind m k h = k a h'.
Proof. intros H. unfold bind. now rewrite H. Qed.

Lemma bind_Throw {A B : Type} (m : M A) (k : A -> M B) (h h' : history) (e : error) :
  m h = (Throw e, h') -> bind m k h = (Throw e, h').
Proof. intros H. unfold bind. now rewrite H. Qed.

Lemma bind_inv {A B : Type} (m : M A) (k : A -> M B) (h h' : history) (b : B) :
  bind m k h = (Return b, h') ->
  exists a g, m h = (Return a, g) /\ k a g = (Return b, h').
Proof.
  unfold bind. destruct (m h) as [[a|e] g]; [eauto | discriminate].
Qed.

Lemma tilesPerSide_table :
  map Server.tilesPerSide Server.tileConfigs = [1; 1; 2; 4].
Proof.
  unfold Server.tileConfigs. simpl map.
  rewrite !tilesPerSide_ceilDiv by (simpl; lia). reflexivity.
Qed.

Lemma configAt_table (z : Z) (h : history) (config : TileConfig) :
  Server.tileConfigs !! Z.to_nat z = Some config ->
  Server.configAt z h = (Return config, h).
Proof. intros H. unfold Server.configAt. now rewrite H. Qed.

Lemma countTiles_table (h : history) : Server.countTiles 3 h = (Return 132, h).
Proof.
  pose proof tilesPerSide_table as Htps.
  unfold Server.tileConfigs in Htps. simpl map in Htps.
  injection Htps as H0 H1 H2 H3.
  unfold Server.countTiles, for_rangeM.
  change (Z.to_nat (3 + 1)) with 4%nat.
  cbn [loop_fromM].
  rewrite (bind_Return _ _ h h 6).
  2:{ rewrite (bind_Return _ _ h h _ (configAt_table 0 h _ eq_refl)).
      rewrite H0. reflexivity. }
  rewrite (bind_Return _ _ h h 12).
  2:{ rewrite (bind_Return _ _ h h _ (configAt_table (0 + 1) h _ eq_refl)).
      rewrite H1. reflexivity. }
  rewrite (bind_Return _ _ h h 36).
  2:{ rewrite (bind_Return _ _ h h _ (configAt_table (0 + 1 + 1) h _ eq_refl)).
      rewrite H2. reflexivity. }
  rewrite (bind_Return _ _ h h 132).
  2:{ rewrite (bind_Return _ _ h h _ (configAt_table (0 + 1 + 1 + 1) h _ eq_refl)).
      rewrite H3. reflexivity. }
  reflexivity.
Qed.

Lemma try_catch_rethrow {A : Type} (m : M A) (h : history) :
  try_catch m (fun error => throw error) h = m h.
Proof. unfold try_catch, throw. now destruct (m h) as [[a|e] g]. Qed.

Section Driver.

Context {Blob Zip : Type}.
Variable convertToBlob : history -> buffer -> Q -> completion Blob.
Variable generateAsync : gmap Server.tileKey Blob -> list TileConfig -> completion Zip.
Variable createTile : buffer -> Z -> Z -> TileConfig -> Z -> M Blob.

(** A conversion that returns reports the counts of the level table and
    the archive made from the tiles of the second loop nest. *)
Lemma processImageWith_result (img : ImageBitmap) (h h' : history)
    (r : Server.Result (Zip := Zip)) :
  Server.processImageWith generateAsync createTile img h = (Return r, h') ->
  exists tiles g,
    Server.generateTiles createTile img 3 h = (Return tiles, g) /\
    generateAsync tiles Server.tileConfigs = Return (Server.zipBuffer r) /\
    Server.totalTiles r = 132 /\ Server.zoomLevels r = 4 /\ Server.maxZoom r = 3.
Proof.
  unfold Server.processImageWith.
  change (Z.of_nat (length Server.tileConfigs) - 1) with 3.
  rewrite (bind_Return _ _ h h 132 (countTiles_table h)).
  intros Hrun.
  apply bind_inv in Hrun as (tiles & g & Htiles & Hrun).
  apply bind_inv in Hrun as (zb & g1 & Hzip & Hrun).
  unfold ret in Hrun. injection Hrun as <- <-.
  unfold Server.createZipFile, liftC in Hzip. injection Hzip as Hzip _.
  exists tiles, g. split; [exact Htiles|]. split; [exact Hzip|]. auto.
Qed.

Hypothesis createTile_returns :
  forall face x y config faceSize g,
    exists blob g', createTile face x y config faceSize g = (Return blob, g').
Hypothesis generateAsync_returns :
  forall tiles, exists zb, generateAsync tiles Server.tileConfigs = Return zb.

Lemma tilesPerSide_nonneg (z : Z) (config : TileConfig) :
  Server.tileConfigs !! Z.to_nat z = Some config ->
  0 <= Server.tilesPerSide config /\ 0 <= size config.
Proof.
  intros Hc.
  assert (Hin : In (Server.tilesPerSide config, size config)
                  (map (fun c => (Server.tilesPerSide c, size c)) Server.tileConfigs)).
  { apply in_map_iff. exists config. split; [reflexivity|].
    apply list_elem_of_In. eapply list_elem_of_lookup_2. exact Hc. }
  pose proof tilesPerSide_table as Htps.
  unfold Server.tileConfigs in Hin, Htps. simpl map in Hin, Htps.
  injection Htps as H0 H1 H2 H3. rewrite H0, H1, H2, H3 in Hin.
  simpl In in Hin.
  destruct Hin as [H|[H|[H|[H|[]]]]]; injection H as <- <-; lia.
Qed.

Lemma generateTiles_returns (img : ImageBitmap) (h : history) :
  exists tiles h', Server.generateTiles createTile img 3 h = (Return tiles, h').
Proof.
  unfold Server.generateTiles.
  destruct (for_rangeM_inv (fun _ (_ : gmap Server.tileKey Blob) (_ : history) => True)
              (fun z tiles =>
                 bind (Server.configAt z) (fun config =>
                   for_rangeM 6 (fun face tiles0 =>
                     bind (liftC (Server.generateCubeFace img face (size config)))
                       (fun faceImageData =>
                          Server.sliceFace createTile faceImageData config (size config) z
                            (Server.faceNameAt face) (Server.tilesPerSide config) tiles0))
                     tiles))
              (3 + 1) ∅ h) as (tiles & h' & Hrun & _); [lia | exact I | | eauto].
  intros z t g Hz _.
  destruct (lookup_lt_is_Some_2 Server.tileConfigs (Z.to_nat z)) as [config Hc];
    [simpl; lia|].
  destruct (tilesPerSide_nonneg z config Hc) as [Hn Hs].
  rewrite (bind_Return _ _ g g config (configAt_table z g config Hc)).
  destruct (for_rangeM_inv (fun _ (_ : gmap Server.tileKey Blob) (_ : history) => True)
              (fun face tiles0 =>
                 bind (liftC (Server.generateCubeFace img face (size config)))
                   (fun faceImageData =>
                      Server.sliceFace createTile faceImageData config (size config) z
                        (Server.faceNameAt face) (Server.tilesPerSide config) tiles0))
              6 t g) as (t' & g' & Hrun & _); [lia | exact I | | eauto].
  intros face t1 g1 Hface _.
  destruct (generateCubeFace_pixels img face (size config) Hs) as (fd & Hfd & _).
  rewrite (bind_Return _ _ g1 g1 fd) by (unfold liftC; now rewrite Hfd).
  destruct (sliceFace_returns createTile fd config (size config) z (Server.faceNameAt face)
              (Server.tilesPerSide config) t1 g1 Hn) as (t2 & g2 & Hslice & _).
  - intros x y g0. apply createTile_returns.
  - eauto.
Qed.

Lemma processImageWith_returns (img : ImageBitmap) (h : history) :
  exists r h', Server.processImageWith generateAsync createTile img h = (Return r, h').
Proof.
  unfold Server.processImageWith.
  change (Z.of_nat (length Server.tileConfigs) - 1) with 3.
  rewrite (bind_Return _ _ h h 132 (countTiles_table h)).
  destruct (generateTiles_returns img h) as (tiles & g & Htiles).
  rewrite (bind_Return _ _ h g tiles Htiles).
  destruct (generateAsync_returns tiles) as [zb Hzb].
  rewrite (bind_Return _ _ g g zb) by (unfold Server.createZipFile, liftC; now rewrite Hzb).
  unfold ret. eauto.
Qed.

End Driver.

(** ** No tile is left out of a conversion that returns *)

Lemma loop_fromM_post {St : Type} (P : Z -> St -> history -> Prop) (body : Z -> St -> M St) :
  forall (fuel : nat) (i : Z) (s s' : St) (h h' : history),
    P i s h ->
    (forall j t g t' g', i <= j < i + Z.of_nat fuel -> P j t g ->
       body j t g = (Return t', g') -> P (j + 1) t' g') ->
    loop_fromM fuel i body s h = (Return s', h') ->
    P (i + Z.of_nat fuel) s' h'.
Proof.
  induction fuel as [|k IH]; intros i s s' h h' Hs Hstep Hrun; simpl loop_fromM in Hrun.
  - unfold ret in Hrun. injection Hrun as <- <-.
    now replace (i + Z.of_nat 0) with i by lia.
  - apply bind_inv in Hrun as (t & g & Hbody & Hrest).
    replace (i + Z.of_nat (S k)) with ((i + 1) + Z.of_nat k) by lia.
    apply (IH (i + 1) t s' g h'); [| |exact Hrest].
    + apply (Hstep i s h); [lia | exact Hs | exact Hbody].
    + intros j t0 g0 t' g' Hj. apply Hstep. lia.
Qed.

Lemma for_rangeM_post {St : Type} (P : Z -> St -> history -> Prop) (body : Z -> St -> M St)
    (n : Z) (s s' : St) (h h' : history) :
  for_rangeM n body s h = (Return s', h') ->
  0 <= n ->
  P 0 s h ->
  (forall j t g t' g', 0 <= j < n -> P j t g ->
     body j t g = (Return t', g') -> P (j + 1) t' g') ->
  P n s' h'.
Proof.
  intros Hrun Hn Hs Hstep. unfold for_rangeM in Hrun.
  pose proof (loop_fromM_post P body (Z.to_nat n) 0 s s' h h' Hs) as H.
  rewrite Z2Nat.id, Z.add_0_l in H by exact Hn.
  apply H; [|exact Hrun]. intros j t g t' g' Hj. apply Hstep. lia.
Qed.

Lemma faceNameAt_inj (face face' : Z) :
  0 <= face < 6 -> 0 <= face' < 6 ->
  Server.faceNameAt face = Server.faceNameAt face' -> face = face'.
Proof.
  intros Hf Hf' Heq.
  assert (Hc : face = 0 \/ face = 1 \/ face = 2 \/ face = 3 \/ face = 4 \/ face = 5) by lia.
  assert (Hc' : face' = 0 \/ face' = 1 \/ face' = 2 \/ face' = 3 \/ face' = 4 \/ face' = 5)
    by lia.
  destruct Hc as [->|[->|[->|[->|[->| ->]]]]];
    destruct Hc' as [->|[->|[->|[->|[->| ->]]]]];
    try reflexivity; discriminate Heq.
Qed.

Section NoOmission.

Context {Blob : Type}.
Variable createTile : buffer -> Z -> Z -> TileConfig -> Z -> M Blob.

Lemma sliceFace_post (face : buffer) (config : TileConfig) (faceSize z : Z)
    (faceName : string) (n : Z) (tiles tiles' : gmap Server.tileKey Blob) (h h' : history) :
  0 <= n ->
  Server.sliceFace createTile face config faceSize z faceName n tiles h = (Return tiles', h') ->
  sliceInv z faceName n tiles (n * n) tiles'.
Proof.
  intros Hn Hrun. unfold Server.sliceFace in Hrun.
  apply (for_rangeM_post (fun y t _ => sliceInv z faceName n tiles (y * n) t)
           _ _ _ _ _ _ Hrun Hn).
  - split; [intros x y Hx Hy Hlt; nia | reflexivity].
  - intros y t g t' g' Hy Hinv Hrow.
    apply sliceInv_row; [exact Hy|].
    apply (for_rangeM_post (fun x t1 _ => sliceInv z faceName n tiles (y * n + x) t1)
             _ _ _ _ _ _ Hrow Hn).
    + now rewrite Z.add_0_r.
    + intros x t1 g1 t2 g2 Hx Ht1 Hstep.
      apply bind_inv in Hstep as (blob & g3 & _ & Hret).
      unfold ret in Hret. injection Hret as <- _.
      now apply sliceInv_insert.
Qed.

Lemma tilesDone_slice (z face : Z) (config : TileConfig)
    (tiles tiles' : gmap Server.tileKey Blob) :
  Server.tileConfigs !! Z.to_nat z = Some config ->
  0 <= z -> 0 <= face < 6 ->
  tilesDone z face tiles ->
  sliceInv z (Server.faceNameAt face) (Server.tilesPerSide config) tiles
    (Server.tilesPerSide config * Server.tilesPerSide config) tiles' ->
  tilesDone z (face + 1) tiles'.
Proof.
  intros Hc Hz Hface Hdone [Hgrid Hrest].
  intros z' config' face' x y Hc' Hz' Hface' Hbefore Hx Hy.
  destruct (Z.eq_dec z' z) as [->|Hzne].
  - assert (config' = config) by congruence. subst config'.
    destruct (Z.eq_dec face' face) as [->|Hfne].
    + apply Hgrid; [exact Hx | exact Hy | nia].
    + rewrite Hrest.
      * apply (Hdone z config face' x y); auto. lia.
      * intros (x0 & y0 & _ & _ & Hkey). inversion Hkey as [[Hname Hy0 Hx0]].
        apply Hfne. now apply faceNameAt_inj.
  - rewrite Hrest.
    + apply (Hdone z' config' face' x y); auto. lia.
    + intros (x0 & y0 & _ & _ & Hkey). inversion Hkey. contradiction.
Qed.

Lemma faces_post (img : ImageBitmap) (z : Z) (config : TileConfig)
    (t t' : gmap Server.tileKey Blob) (g g' : history) :
  Server.tileConfigs !! Z.to_nat z = Some config -> 0 <= z ->
  tilesDone z 0 t ->
  for_rangeM 6 (fun face tiles =>
    bind (liftC (Server.generateCubeFace img face (size config)))
      (fun faceImageData =>
         Server.sliceFace createTile faceImageData config (size config) z
           (Server.faceNameAt face) (Server.tilesPerSide config) tiles))
    t g = (Return t', g') ->
  tilesDone (z + 1) 0 t'.
Proof.
  intros Hc Hz Hinv Hfaces.
  destruct (tilesPerSide_nonneg z config Hc) as [Hn _].
  assert (Hdone6 : tilesDone z 6 t').
  { apply (for_rangeM_post (fun face t1 _ => tilesDone z face t1) _ _ _ _ _ _ Hfaces);
      [lia | exact Hinv |].
    intros face t1 g2 t2 g3 Hface Ht1 Hstep.
    apply bind_inv in Hstep as (fd & g4 & _ & Hslice).
    apply (tilesDone_slice z face config t1 t2 Hc ltac:(lia) Hface Ht1).
    exact (sliceFace_post fd config (size config) z (Server.faceNameAt face)
             (Server.tilesPerSide config) t1 t2 g4 g3 Hn Hslice). }
  intros z' config' face' x y Hc' Hz' Hface' Hbefore Hx Hy.
  apply (Hdone6 z' config' face' x y); auto. lia.
Qed.

Lemma level_post (img : ImageBitmap) (z : Z) (t t' : gmap Server.tileKey Blob)
    (g g' : history) :
  0 <= z ->
  tilesDone z 0 t ->
  bind (Server.configAt z) (fun config =>
    for_rangeM 6 (fun face tiles =>
      bind (liftC (Server.generateCubeFace img face (size config)))
        (fun faceImageData =>
           Server.sliceFace createTile faceImageData config (size config) z
             (Server.faceNameAt face) (Server.tilesPerSide config) tiles))
      t) g = (Return t', g') ->
  tilesDone (z + 1) 0 t'.
Proof.
  intros Hz Hinv Hlevel.
  apply bind_inv in Hlevel as (config & g1 & Hcfg & Hfaces).
  assert (Hc : Server.tileConfigs !! Z.to_nat z = Some config).
  { unfold Server.configAt in Hcfg.
    destruct (Server.tileConfigs !! Z.to_nat z) as [c|]; [|discriminate].
    unfold ret in Hcfg. now injection Hcfg as -> _. }
  exact (faces_post img z config t t' g1 g' Hc Hz Hinv Hfaces).
Qed.

Lemma generateTiles_unfold (img : ImageBitmap) (maxZoom : Z) :
  Server.generateTiles createTile img maxZoom =
  for_rangeM (maxZoom + 1) (fun z tiles =>
    bind (Server.configAt z) (fun config =>
      for_rangeM 6 (fun face tiles =>
        bind (liftC (Server.generateCubeFace img face (size config)))
          (fun faceImageData =>
             Server.sliceFace createTile faceImageData config (size config) z
               (Server.faceNameAt face) (Server.tilesPerSide config) tiles))
        tiles))
    ∅.
Proof. reflexivity. Qed.

Lemma generateTiles_post (img : ImageBitmap) (tiles : gmap Server.tileKey Blob)
    (h h' : history) :
  Server.generateTiles createTile img 3 h = (Return tiles, h') ->
  tilesDone 4 0 tiles.
Proof.
  intros Hrun. rewrite generateTiles_unfold in Hrun.
  change 4 with (3 + 1).
  apply (for_rangeM_post (fun z t _ => tilesDone z 0 t) _ _ _ _ _ _ Hrun); [lia | |].
  - intros z' config face' x y _ Hz' Hface' Hbefore. lia.
  - intros z t g t' g' Hz Hinv Hlevel.
    exact (level_post img z t t' g g' ltac:(lia) Hinv Hlevel).
Qed.

End NoOmission.

(** ** Counts reported by a conversion *)

Lemma processImage_unfold {Blob Zip : Type}
    (convertToBlob : history -> buffer -> Q -> completion Blob)
    (generateAsync : gmap Server.tileKey Blob -> list TileConfig -> completion Zip)
    (img : ImageBitmap) :
  Server.processImage convertToBlob generateAsync img
  = Server.processImageWith generateAsync (Server.createTile convertToBlob) img.
Proof. reflexivity. Qed.

Lemma processImageV0_unfold {Blob Zip : Type}
    (convertToBlob : history -> buffer -> Q -> completion Blob)
    (generateAsync : gmap Server.tileKey Blob -> list TileConfig -> completion Zip)
    (img : ImageBitmap) :
  ServerV0.processImage convertToBlob generateAsync img
  = try_catch
      (Server.processImageWith generateAsync (ServerV0.createTile convertToBlob) img)
      (fun error => throw error).
Proof. reflexivity. Qed.

(** C1: a conversion of a valid source image that returns, in either
    server variant, reports [totalTiles = 132], [zoomLevels = 4] and
    [maxZoom = 3]; the total is the sum over the four levels of the table
    of [6 * ceil(faceSize / tileSize)^2], with 1, 1, 2 and 4 tiles per side. *)
Theorem conversion_counts {Blob Zip : Type}
    (convertToBlob : history -> buffer -> Q -> completion Blob)
    (generateAsync : gmap Server.tileKey Blob -> list TileConfig -> completion Zip)
    (img : ImageBitmap) (h h' : history) (r : Server.Result (Zip := Zip)) :
  valid_image img ->
  Server.processImage convertToBlob generateAsync img h = (Return r, h') \/
  ServerV0.processImage convertToBlob generateAsync img h = (Return r, h') ->
  Server.totalTiles r = 132 /\ Server.zoomLevels r = 4 /\ Server.maxZoom r = 3 /\
  map Server.tilesPerSide Server.tileConfigs = [1; 1; 2; 4] /\
  map (fun c => ceilDiv (size c) (tileSize c)) Server.tileConfigs = [1; 1; 2; 4] /\
  Server.totalTiles r
    = foldr Z.add 0
        (map (fun c => 6 * Server.tilesPerSide c * Server.tilesPerSide c)
           Server.tileConfigs).
Proof.
  intros _ Hrun.
  assert (Hres : Server.processImageWith generateAsync
                   (Server.createTile convertToBlob) img h = (Return r, h') \/
                 Server.processImageWith generateAsync
                   (ServerV0.createTile convertToBlob) img h = (Return r, h')).
  { destruct Hrun as [Hrun|Hrun]; [left | right].
    - now rewrite processImage_unfold in Hrun.
    - now rewrite processImageV0_unfold, try_catch_rethrow in Hrun. }
  assert (Hcounts : Server.totalTiles r = 132 /\ Server.zoomLevels r = 4 /\
                    Server.maxZoom r = 3).
  { destruct Hres as [Hres|Hres];
      apply processImageWith_result in Hres as (tiles & g & _ & _ & Hc); exact Hc. }
  destruct Hcounts as (Ht & Hz & Hm).
  pose proof tilesPerSide_table as Htps.
  split; [exact Ht|]. split; [exact Hz|]. split; [exact Hm|].
  split; [exact Htps|]. split; [reflexivity|].
  rewrite Ht.
  rewrite <- (map_map Server.tilesPerSide (fun n => 6 * n * n)), Htps. reflexivity.
Qed.

Lemma flat42_valid : valid_image flat42.
Proof. exact (proj1 flat42_flat). Qed.

Lemma conversion_counts_witness :
  exists r h',
    Server.processImage anyEncoder anyArchive flat42 [] = (Return r, h') /\
    Server.totalTiles r = 132 /\ Server.zoomLevels r = 4 /\ Server.maxZoom r = 3.
Proof.
  destruct (processImageWith_returns anyArchive (Server.createTile anyEncoder))
    with (img := flat42) (h := @nil attempt) as (r & h' & Hrun).
  - intros face x y config faceSize g. eexists _, _. reflexivity.
  - intros tiles. eexists. reflexivity.
  - rewrite <- processImage_unfold in Hrun.
    exists r, h'. split; [exact Hrun|].
    destruct (conversion_counts anyEncoder anyArchive flat42 [] h' r flat42_valid
                (or_introl Hrun)) as (Ht & Hz & Hm & _).
    auto.
Defined.

(** ** Encoder failures *)

Lemma for_rangeM_throws_first {St : Type} (n : Z) (body : Z -> St -> M St) (s : St)
    (h h' : history) (e : error) :
  0 < n -> body 0 s h = (Throw e, h') -> for_rangeM n body s h = (Throw e, h').
Proof.
  intros Hn Hbody. unfold for_rangeM.
  destruct (Z.to_nat n) as [|k] eqn:Hk; [lia|].
  simpl loop_fromM. now apply bind_Throw.
Qed.

(** The route encodes once, at maximum quality, and lets a failure through. *)
Lemma createTile_route {Blob : Type}
    (convertToBlob : history -> buffer -> Q -> completion Blob)
    (face : buffer) (x y : Z) (config : TileConfig) (faceSize : Z) (h : history) :
  Server.createTile convertToBlob face x y config faceSize h
  = (convertToBlob h (Server.tilePixels face x y config faceSize) 1%Q,
     h ++ [mkAttempt (Server.tilePixels face x y config faceSize) 1]).
Proof. reflexivity. Qed.

(** The logging variant encodes at maximum quality first; when that call
    throws it makes one more call, at quality 0.9, whose outcome is the
    outcome of the method. *)
Lemma createTile_retry {Blob : Type}
    (convertToBlob : history -> buffer -> Q -> completion Blob)
    (face : buffer) (x y : Z) (config : TileConfig) (faceSize : Z) (h : history) :
  let pixels := ServerV0.tilePixels face x y config faceSize in
  let first := mkAttempt pixels 1 in
  let second := mkAttempt pixels (9 # 10) in
  ServerV0.createTile convertToBlob face x y config faceSize h
  = match convertToBlob h pixels 1%Q with
    | Return blob => (Return blob, h ++ [first])
    | Throw _ =>
        (convertToBlob (h ++ [first]) pixels (9 # 10)%Q, (h ++ [first]) ++ [second])
    end.
Proof.
  cbv zeta. unfold ServerV0.createTile.
  rewrite try_catch_rethrow.
  unfold try_catch, Server.canvasConvertToBlob.
  now destruct (convertToBlob h _ 1%Q).
Qed.

Section Fatal.

Context {Blob Zip : Type}.
Variable generateAsync : gmap Server.tileKey Blob -> list TileConfig -> completion Zip.
Variable createTile : buffer -> Z -> Z -> TileConfig -> Z -> M Blob.

Lemma sliceFace_throws (face : buffer) (config : TileConfig) (faceSize z : Z)
    (faceName : string) (n : Z) (tiles : gmap Server.tileKey Blob)
    (h h' : history) (e : error) :
  0 < n ->
  createTile face 0 0 config faceSize h = (Throw e, h') ->
  Server.sliceFace createTile face config faceSize z faceName n tiles h = (Throw e, h').
Proof.
  intros Hn Hthrow. unfold Server.sliceFace.
  apply for_rangeM_throws_first; [exact Hn|].
  apply for_rangeM_throws_first; [exact Hn|].
  now apply bind_Throw.
Qed.

(** When the tile method throws on the first tile, the conversion throws:
    nothing is returned. *)
Lemma processImageWith_throws (img : ImageBitmap) (h : history) (e : error) :
  (forall face g, exists g',
     createTile face 0 0 (mkConfig 256 256 (Some true)) 256 g = (Throw e, g')) ->
  exists h', Server.processImageWith generateAsync createTile img h = (Throw e, h').
Proof.
  intros Hthrow.
  destruct (generateCubeFace_pixels img 0 256) as (fd & Hfd & _); [lia|].
  destruct (Hthrow fd h) as [h' Hh'].
  exists h'.
  unfold Server.processImageWith.
  change (Z.of_nat (length Server.tileConfigs) - 1) with 3.
  rewrite (bind_Return _ _ h h 132 (countTiles_table h)).
  apply bind_Throw. rewrite generateTiles_unfold.
  apply for_rangeM_throws_first; [lia|].
  rewrite (bind_Return _ _ h h _ (configAt_table 0 h _ eq_refl)).
  apply for_rangeM_throws_first; [lia|].
  change (size (mkConfig 256 256 (Some true))) with 256.
  rewrite (bind_Return _ _ h h fd) by (unfold liftC; now rewrite Hfd).
  apply sliceFace_throws; [|exact Hh'].
  rewrite tilesPerSide_ceilDiv by (simpl; lia). reflexivity.
Qed.

(** A conversion that returns has stored every tile of every level and
    face in the table handed to the archive writer. *)
Lemma processImageWith_complete (img : ImageBitmap) (h h' : history)
    (r : Server.Result (Zip := Zip)) :
  Server.processImageWith generateAsync createTile img h = (Return r, h') ->
  exists tiles,
    generateAsync tiles Server.tileConfigs = Return (Server.zipBuffer r) /\
    tilesDone 4 0 tiles.
Proof.
  intros Hrun.
  apply processImageWith_result in Hrun as (tiles & g & Htiles & Hzip & _).
  exists tiles. split; [exact Hzip|].
  exact (generateTiles_post createTile img tiles h g Htiles).
Qed.

End Fatal.

(** C6 on the route of src/unnamed/part_000: with an encoder that
    refuses quality 1.0 and accepts 0.9, [createTile] throws after a single
    call and the whole conversion throws, where the logging variant retries
    once at 0.9 and the conversion returns. *)
Theorem route_gives_up_without_retry :
  Server.createTile pickyEncoder face33 0 0 (mkConfig 2 3 None) 3 []
  = (Throw (EncodeError 1),
     [mkAttempt (Server.tilePixels face33 0 0 (mkConfig 2 3 None) 3) 1]) /\
  ServerV0.createTile pickyEncoder face33 0 0 (mkConfig 2 3 None) 3 []
  = (Return tt,
     [mkAttempt (ServerV0.tilePixels face33 0 0 (mkConfig 2 3 None) 3) 1;
      mkAttempt (ServerV0.tilePixels face33 0 0 (mkConfig 2 3 None) 3) (9 # 10)]) /\
  (exists h',
     Server.processImage pickyEncoder anyArchive flat42 [] = (Throw (EncodeError 1), h')) /\
  (exists r h',
     ServerV0.processImage pickyEncoder anyArchive flat42 [] = (Return r, h')).
Proof.
  split; [|split; [|split]].
  - rewrite createTile_route. reflexivity.
  - rewrite createTile_retry. reflexivity.
  - rewrite processImage_unfold.
    apply processImageWith_throws.
    intros face g. eexists. rewrite createTile_route. reflexivity.
  - destruct (processImageWith_returns anyArchive (ServerV0.createTile pickyEncoder))
      with (img := flat42) (h := @nil attempt) as (r & h' & Hrun).
    + intros face x y config faceSize g. eexists _, _.
      rewrite createTile_retry. reflexivity.
    + intros tiles. eexists. reflexivity.
    + exists r, h'. now rewrite processImageV0_unfold, try_catch_rethrow.
Qed.

(** * Properties of the rest of the sources *)

(** ** The rasterizer always returns a well-formed face *)

Lemma toUint8Clamp_byte (v : option Z) : is_byte (toUint8Clamp v).
Proof. destruct v as [z|]; unfold is_byte, toUint8Clamp, clamp8; lia. Qed.

Lemma Forall_byte_write (data : buffer) (idx : Z) (v : option Z) :
  Forall is_byte data -> Forall is_byte (write data idx v).
Proof.
  intros H. unfold write. destruct (idx <? 0); [exact H|].
  apply Forall_insert; [exact H | apply toUint8Clamp_byte].
Qed.

Lemma Forall_byte_write4 (data : buffer) (idx : Z) (r g b a : option Z) :
  Forall is_byte data -> Forall is_byte (write4 data idx r g b a).
Proof. intros H. unfold write4. now do 4 apply Forall_byte_write. Qed.

Lemma Forall_byte_createImageData (w h : Z) : Forall is_byte (createImageData w h).
Proof. unfold createImageData. apply Forall_replicate. unfold is_byte. lia. Qed.

Lemma generateCubeFace_bytes (img : ImageBitmap) (face size : Z) :
  0 <= size ->
  exists faceData,
    Server.generateCubeFace img face size = Return faceData /\ Forall is_byte faceData.
Proof.
  intros Hsize. unfold Server.generateCubeFace.
  apply (for_rangeC_inv (fun _ fd => Forall is_byte fd)); [exact Hsize | |].
  - apply Forall_byte_createImageData.
  - intros y fd Hy Hfd.
    apply (for_rangeC_inv (fun _ fd' => Forall is_byte fd')); [exact Hsize | exact Hfd |].
    intros x t Hx Ht. rewrite rasterStep_eq. cbv zeta.
    eexists. split; [reflexivity|]. now apply Forall_byte_write4.
Qed.



(** ** The bilinear sample never overshoots its corners *)

Lemma interpolate_within (c1 c2 c3 c4 : Z) (fx fy : R) :
  (0 <= fx <= 1)%R -> (0 <= fy <= 1)%R ->
  exists c,
    Math_round (Server.interpolate (fin fx) (fin fy) (Some c1) (Some c2) (Some c3) (Some c4))
    = Some c /\ within4 c1 c2 c3 c4 c.
Proof.
  intros Hfx Hfy.
  unfold Server.interpolate, Math_round, nadd, nmul, nsub, ofInt, fin, lift2. simpl.
  eexists. split; [reflexivity|].
  set (lo := Z.min (Z.min c1 c2) (Z.min c3 c4)).
  set (hi := Z.max (Z.max c1 c2) (Z.max c3 c4)).
  assert (Hb : forall c, lo <= c <= hi -> (IZR lo <= IZR c <= IZR hi)%R).
  { intros c [Hl Hh]. split; now apply IZR_le. }
  pose proof (lerp_range (IZR c1) (IZR c2) fx (IZR lo) (IZR hi)
                (Hb c1 ltac:(lia)) (Hb c2 ltac:(lia)) Hfx) as Hi1.
  pose proof (lerp_range (IZR c3) (IZR c4) fx (IZR lo) (IZR hi)
                (Hb c3 ltac:(lia)) (Hb c4 ltac:(lia)) Hfx) as Hi2.
  pose proof (lerp_range _ _ fy (IZR lo) (IZR hi) Hi1 Hi2 Hfy) as Hv.
  set (v := (((IZR c1 * (1 - fx) + IZR c2 * fx) * (1 - fy)
             + (IZR c3 * (1 - fx) + IZR c4 * fx) * fy))%R) in *.
  pose proof (Zfloor_bound (v + / 2)) as Hfl.
  unfold within4. fold lo hi. split.
  - apply Zfloor_lub. lra.
  - assert (Hlt : Zfloor (v + / 2) < hi + 1).
    { apply lt_IZR. rewrite plus_IZR. lra. }
    lia.
Qed.

(** X2: on a [width * height] RGBA buffer, for all real [(u, v)], every
    channel of the bilinear sample is an integer between the least and the
    greatest of that channel at the four corner pixels: interpolation and
    rounding never overshoot the source values. *)
Theorem sampler_within_corners (imgData : buffer) (u v : R) (width height : Z) :
  1 <= width -> 1 <= height ->
  Z.of_nat (length imgData) = width * height * 4 ->
  exists r11 g11 b11 r21 g21 b21 r12 g12 b12 r22 g22 b22 r g b,
    Server.getPixel imgData width (Some (cornerLo u width)) (Some (cornerLo v height))
      = (Some r11, Some g11, Some b11) /\
    Server.getPixel imgData width (Some (cornerHi u width)) (Some (cornerLo v height))
      = (Some r21, Some g21, Some b21) /\
    Server.getPixel imgData width (Some (cornerLo u width)) (Some (cornerHi v height))
      = (Some r12, Some g12, Some b12) /\
    Server.getPixel imgData width (Some (cornerHi u width)) (Some (cornerHi v height))
      = (Some r22, Some g22, Some b22) /\
    Server.sampleEquirectangularBilinear imgData (fin u) (fin v) width height
      = (Some r, Some g, Some b) /\
    within4 r11 r21 r12 r22 r /\ within4 g11 g21 g12 g22 g /\ within4 b11 b21 b12 b22 b.
Proof.
  intros Hw Hh Hlen.
  pose proof (cornerLo_bound u width Hw) as Hx1.
  pose proof (cornerHi_bound u width Hw) as Hx2.
  pose proof (cornerLo_bound v height Hh) as Hy1.
  pose proof (cornerHi_bound v height Hh) as Hy2.
  pose proof (cornerFrac_bound u width) as Hfx.
  pose proof (cornerFrac_bound v height) as Hfy.
  destruct (getPixel_inside imgData width height _ _ Hlen Hx1 Hy1)
    as (_ & _ & _ & _ & r11 & g11 & b11 & H11).
  destruct (getPixel_inside imgData width height _ _ Hlen Hx2 Hy1)
    as (_ & _ & _ & _ & r21 & g21 & b21 & H21).
  destruct (getPixel_inside imgData width height _ _ Hlen Hx1 Hy2)
    as (_ & _ & _ & _ & r12 & g12 & b12 & H12).
  destruct (getPixel_inside imgData width height _ _ Hlen Hx2 Hy2)
    as (_ & _ & _ & _ & r22 & g22 & b22 & H22).
  destruct (interpolate_within r11 r21 r12 r22
              (cornerFrac u width) (cornerFrac v height) ltac:(lra) ltac:(lra))
    as (r & Hr & Hrw).
  destruct (interpolate_within g11 g21 g12 g22
              (cornerFrac u width) (cornerFrac v height) ltac:(lra) ltac:(lra))
    as (g & Hg & Hgw).
  destruct (interpolate_within b11 b21 b12 b22
              (cornerFrac u width) (cornerFrac v height) ltac:(lra) ltac:(lra))
    as (b & Hb & Hbw).
  exists r11, g11, b11, r21, g21, b21, r12, g12, b12, r22, g22, b22, r, g, b.
  split; [exact H11|]. split; [exact H21|]. split; [exact H12|]. split; [exact H22|].
  split; [|auto].
  rewrite sample_finite. unfold blend. rewrite H11, H21, H12, H22. cbn [fst snd].
  now rewrite Hr, Hg, Hb.
Qed.

Lemma sampler_within_corners_witness :
  exists r g b,
    Server.sampleEquirectangularBilinear (img_data twoPixels) (fin (1 / 3)) (fin 0) 2 1
    = (Some r, Some g, Some b).
Proof.
  assert (H1 : 1 <= 1) by lia. assert (H2 : 1 <= 2) by lia.
  assert (Hlen : Z.of_nat (length (img_data twoPixels)) = 2 * 1 * 4) by reflexivity.
  destruct (sampler_within_corners (img_data twoPixels) (1 / 3) 0 2 1 H2 H1 Hlen)
    as (r11 & g11 & b11 & r21 & g21 & b21 & r12 & g12 & b12 & r22 & g22 & b22
        & r & g & b & _ & _ & _ & _ & Hs & _).
  exists r, g, b. exact Hs.
Defined.

(** ** Which part of the panorama each face reads *)












(** ** The nearest-pixel sampler *)

Lemma nearest_axis (u : R) (n : Z) :
  1 <= n -> (0 <= u <= 1)%R ->
  irem (Math_floor (nmul (fin u) (fin (IZR n)))) (Some n) = Some (nearestIndex u n) /\
  0 <= nearestIndex u n <= n - 1.
Proof.
  intros Hn Hu.
  assert (Hn' : (1 <= IZR n)%R) by now apply (IZR_le 1).
  assert (Hfl : 0 <= Zfloor (u * IZR n)).
  { apply Zfloor_lub. change (IZR 0) with 0%R. nra. }
  unfold nearestIndex. split.
  - unfold irem, Math_floor, nmul, fin, lift2. simpl.
    destruct (Z.eqb_spec n 0) as [H0|_]; [lia|].
    f_equal. apply Z.rem_mod_nonneg; lia.
  - pose proof (Z.mod_pos_bound (Zfloor (u * IZR n)) n ltac:(lia)) as Hm. lia.
Qed.

Lemma nearestIndex_wrap (n : Z) : 1 <= n -> nearestIndex 1 n = 0 /\ nearestIndex 0 n = 0.
Proof.
  intros Hn. unfold nearestIndex.
  rewrite Rmult_1_l, Rmult_0_l, ZfloorZ, (ZfloorZ 0).
  split; [apply Z.mod_same; lia | apply Z.mod_0_l; lia].
Qed.

(** X4: on a [width * height] RGBA buffer the nearest-pixel sampler,
    for [(u, v)] in the closed unit square, reads inside the buffer the pixel
    at column [floor(u * width) mod width], row [floor(v * height) mod height];
    at [u = 1] the column wraps to 0, so the sample equals the one at
    [u = 0] (the bilinear sampler clamps to the last column instead). *)
Theorem nearest_sampler_wraps (imgData : buffer) (u v : R) (width height : Z) :
  1 <= width -> 1 <= height ->
  Z.of_nat (length imgData) = width * height * 4 ->
  (0 <= u <= 1)%R -> (0 <= v <= 1)%R ->
  (0 <= nearestIndex u width <= width - 1 /\ 0 <= nearestIndex v height <= height - 1) /\
  ClientRest.sampleEquirectangular imgData (fin u) (fin v) width height
    = Server.getPixel imgData width
        (Some (nearestIndex u width)) (Some (nearestIndex v height)) /\
  (exists r g b,
     ClientRest.sampleEquirectangular imgData (fin u) (fin v) width height
       = (Some r, Some g, Some b)) /\
  ClientRest.sampleEquirectangular imgData (fin 1) (fin v) width height
    = ClientRest.sampleEquirectangular imgData (fin 0) (fin v) width height /\
  Server.sampleEquirectangularBilinear imgData (fin 1) (fin 1) width height
    = Server.getPixel imgData width (Some (width - 1)) (Some (height - 1)).
Proof.
  intros Hw Hh Hlen Hu Hv.
  destruct (nearest_axis u width Hw Hu) as [Hx Hxb].
  destruct (nearest_axis v height Hh Hv) as [Hy Hyb].
  assert (Hsample : forall u', (0 <= u' <= 1)%R ->
            ClientRest.sampleEquirectangular imgData (fin u') (fin v) width height
            = Server.getPixel imgData width
                (Some (nearestIndex u' width)) (Some (nearestIndex v height))).
  { intros u' Hu'. destruct (nearest_axis u' width Hw Hu') as [Hx' _].
    unfold ClientRest.sampleEquirectangular. rewrite Hx', Hy. reflexivity. }
  split; [split; assumption|]. split; [now apply Hsample|]. split; [|split].
  - rewrite (Hsample u Hu).
    destruct (getPixel_inside imgData width height _ _ Hlen Hxb Hyb)
      as (_ & _ & _ & _ & Hpx). exact Hpx.
  - rewrite (Hsample 1%R), (Hsample 0%R) by lra.
    destruct (nearestIndex_wrap width Hw) as [-> ->]. reflexivity.
  - rewrite sample_finite.
    rewrite (cornerFrac_high 1 width), (cornerFrac_high 1 height) by lra.
    rewrite (cornerLo_high 1 width), (cornerLo_high 1 height) by lra.
    rewrite (cornerHi_high 1 width), (cornerHi_high 1 height) by lra.
    apply (blend_exact imgData width height); apply getPixel_inside; try assumption; lia.
Qed.

Lemma nearest_sampler_wraps_witness :
  ClientRest.sampleEquirectangular (img_data twoPixels) (fin 1) (fin 0) 2 1
  = (Some 10, Some 20, Some 30) /\
  Server.sampleEquirectangularBilinear (img_data twoPixels) (fin 1) (fin 1) 2 1
  = (Some 40, Some 50, Some 60).
Proof.
  assert (H1 : 1 <= 1) by lia. assert (H2 : 1 <= 2) by lia.
  assert (Hlen : Z.of_nat (length (img_data twoPixels)) = 2 * 1 * 4) by reflexivity.
  assert (Hu : (0 <= 1 <= 1)%R) by lra. assert (Hv : (0 <= 0 <= 1)%R) by lra.
  destruct (nearest_sampler_wraps (img_data twoPixels) 1 0 2 1 H2 H1 Hlen Hu Hv)
    as (_ & Hs & _ & _ & Hb).
  split.
  - rewrite Hs. destruct (nearestIndex_wrap 2 H2) as [-> _].
    destruct (nearestIndex_wrap 1 H1) as [_ ->]. reflexivity.
  - rewrite Hb. reflexivity.
Defined.

(** ** The tiles of the level table have no padding *)

Lemma table_config (z : Z) (config : TileConfig) :
  Server.tileConfigs !! Z.to_nat z = Some config ->
  0 < tileSize config /\ 0 < size config /\
  Server.tilesPerSide config * tileSize config = size config.
Proof.
  intros Hc.
  assert (Hts : 0 < tileSize config /\ 0 < size config /\
                ceilDiv (size config) (tileSize config) * tileSize config = size config).
  { destruct (Z.to_nat z) as [|[|[|[|k]]]]; simpl in Hc; [..|discriminate];
      injection Hc as <-; simpl; repeat split; try lia; reflexivity. }
  destruct Hts as (Hts & Hs & Hn).
  rewrite tilesPerSide_ceilDiv by exact Hts. auto.
Qed.

(** Two RGBA buffers of the same square size with the same pixels are equal. *)
Lemma rgba_ext (l1 l2 : buffer) (n : Z) :
  0 <= n -> Z.of_nat (length l1) = n * n * 4 -> length l2 = length l1 ->
  (forall x y, 0 <= x < n -> 0 <= y < n -> rgbaAt l1 n x y = rgbaAt l2 n x y) ->
  l1 = l2.
Proof.
  intros Hn0 Hlen Hlen2 Hpx. apply list_eq. intros i.
  destruct (Nat.lt_ge_cases i (length l1)) as [Hi|Hi].
  - assert (Hn : 0 < n) by (destruct (Z.eq_dec n 0) as [->|]; lia).
    set (k := Z.of_nat i / 4). set (c := Z.of_nat i mod 4).
    pose proof (Z.div_mod (Z.of_nat i) 4 ltac:(lia)) as Hdm.
    pose proof (Z.mod_pos_bound (Z.of_nat i) 4 ltac:(lia)) as Hc.
    fold k c in Hdm, Hc.
    assert (Hk : 0 <= k < n * n) by lia.
    pose proof (Z.div_mod k n ltac:(lia)) as Hdk.
    pose proof (Z.mod_pos_bound k n Hn) as Hx.
    set (y := k / n) in *. set (x := k mod n) in *.
    assert (Hy : 0 <= y < n) by nia.
    specialize (Hpx x y Hx Hy). unfold rgbaAt in Hpx.
    replace (y * n + x) with k in Hpx by lia.
    injection Hpx as H0 H1 H2 H3.
    assert (Hread : forall l, readIdx l (Z.of_nat i) = l !! i).
    { intros l. unfold readIdx. destruct (Z.ltb_spec (Z.of_nat i) 0) as [Hneg|_]; [lia|].
      now rewrite Nat2Z.id. }
    rewrite <- !Hread.
    assert (Hcase : c = 0 \/ c = 1 \/ c = 2 \/ c = 3) by lia.
    destruct Hcase as [Hc0|[Hc0|[Hc0|Hc0]]]; rewrite Hc0 in Hdm.
    + replace (Z.of_nat i) with (k * 4) by lia. exact H0.
    + replace (Z.of_nat i) with (k * 4 + 1) by lia. exact H1.
    + replace (Z.of_nat i) with (k * 4 + 2) by lia. exact H2.
    + replace (Z.of_nat i) with (k * 4 + 3) by lia. exact H3.
  - rewrite (lookup_ge_None_2 l1 i) by lia.
    rewrite (lookup_ge_None_2 l2 i) by lia. reflexivity.
Qed.

Lemma length_fillBlack (ts : Z) :
  0 <= ts ->
  length (ServerV0.fillBlack (createImageData ts ts)) = length (createImageData ts ts).
Proof.
  intros Hts.
  destruct (fillBlack_inv (createImageData ts ts) (ts * ts)) as (Hl & _);
    [nia | apply length_createImageData_square | exact Hl].
Qed.

(** A full tile inside a rasterized face: both copy loops give the pixels
    of the face, and so the same buffer. *)
Lemma full_tile_pixels (face : buffer) (tileX tileY : Z) (config : TileConfig) :
  let ts := tileSize config in
  let faceSize := size config in
  face_buffer face faceSize -> 0 < ts ->
  0 <= tileX -> 0 <= tileY -> (tileX + 1) * ts <= faceSize -> (tileY + 1) * ts <= faceSize ->
  Z.of_nat (length (Server.tilePixels face tileX tileY config faceSize)) = ts * ts * 4 /\
  (forall x y, 0 <= x < ts -> 0 <= y < ts ->
     rgbaAt (Server.tilePixels face tileX tileY config faceSize) ts x y
     = rgbaAt face faceSize (tileX * ts + x) (tileY * ts + y)) /\
  ServerV0.tilePixels face tileX tileY config faceSize
  = Server.tilePixels face tileX tileY config faceSize.
Proof.
  intros ts faceSize. subst ts faceSize. intros Hface Hts HtX HtY HfitX HfitY.
  assert (Hsw : tileExtent tileX (tileSize config) (size config) = tileSize config)
    by (unfold tileExtent, tileOffset; lia).
  assert (Hsh : tileExtent tileY (tileSize config) (size config) = tileSize config)
    by (unfold tileExtent, tileOffset; lia).
  pose proof (server_tilePixels_copy face tileX tileY (size config) config Hts
                ltac:(lia) ltac:(lia)) as (Hl1 & Hin1 & _).
  pose proof (serverV0_tilePixels_copy face tileX tileY (size config) config
                (proj1 Hface) Hts HtX HtY ltac:(lia) ltac:(lia)) as (Hl2 & Hin2 & _).
  rewrite Hsw, Hsh in Hin1, Hin2.
  assert (Hpx : forall x y, 0 <= x < tileSize config -> 0 <= y < tileSize config ->
            copied face (size config) (tileOffset tileX (tileSize config) + x)
              (tileOffset tileY (tileSize config) + y)
            = rgbaAt face (size config) (tileX * tileSize config + x)
                (tileY * tileSize config + y)).
  { intros x y Hx Hy. unfold tileOffset. apply copied_face_pixel; [exact Hface|nia|nia]. }
  assert (Hlen : Z.of_nat (length (Server.tilePixels face tileX tileY config (size config)))
                 = tileSize config * tileSize config * 4).
  { rewrite Hl1. apply length_createImageData_square. }
  split; [exact Hlen|]. split.
  - intros x y Hx Hy. rewrite Hin1 by nia. now apply Hpx.
  - symmetry. apply (rgba_ext _ _ (tileSize config)); [lia | exact Hlen | |].
    + rewrite Hl1, Hl2. apply length_fillBlack. lia.
    + intros x y Hx Hy. rewrite Hin1, Hin2 by nia. reflexivity.
Qed.

(** X5: rasterizer and slicer composed, on the level table.  For every
    level [z] of the table, every face and every tile of the grid, the buffer
    that [createTile] puts on the canvas holds [tileSize * tileSize] pixels,
    each of them the stored bilinear sample of the source at face pixel
    [(tileX * tileSize + x, tileY * tileSize + y)] with alpha 255: no tile of
    the table has padding, and the route and the logging variant put the same
    buffer on the canvas. *)
Theorem table_tiles_have_no_padding (img : ImageBitmap) (z face tileX tileY : Z)
    (config : TileConfig) :
  Server.tileConfigs !! Z.to_nat z = Some config ->
  0 <= tileX < Server.tilesPerSide config -> 0 <= tileY < Server.tilesPerSide config ->
  exists faceData,
    Server.generateCubeFace img face (size config) = Return faceData /\
    Z.of_nat (length (Server.tilePixels faceData tileX tileY config (size config)))
      = tileSize config * tileSize config * 4 /\
    (forall x y, 0 <= x < tileSize config -> 0 <= y < tileSize config ->
       rgbaAt (Server.tilePixels faceData tileX tileY config (size config))
         (tileSize config) x y
       = stored (rasterVia cornerCoord img face (size config)
                   (tileX * tileSize config + x) (tileY * tileSize config + y))) /\
    ServerV0.tilePixels faceData tileX tileY config (size config)
    = Server.tilePixels faceData tileX tileY config (size config).
Proof.
  intros Hc HtX HtY.
  destruct (table_config z config Hc) as (Hts & Hs & Hn).
  destruct (generateCubeFace_pixels img face (size config) ltac:(lia))
    as (fd & Hfd & Hlen & Hpx).
  destruct (generateCubeFace_bytes img face (size config) ltac:(lia))
    as (fd' & Hfd' & Hbytes).
  assert (fd' = fd) by congruence. subst fd'.
  destruct (full_tile_pixels fd tileX tileY config (conj Hlen Hbytes) Hts)
    as (Hl & Hin & Heq); [lia | lia | nia | nia |].
  exists fd. split; [exact Hfd|]. split; [exact Hl|]. split; [|exact Heq].
  intros x y Hx Hy. rewrite Hin by assumption.
  assert (HX : 0 <= tileX * tileSize config + x < size config) by nia.
  assert (HY : 0 <= tileY * tileSize config + y < size config) by nia.
  apply Hpx; [exact HX | exact HY |].
  pose proof (row_major_bound (size config) _ _ HX HY). lia.
Qed.

Lemma table_tiles_have_no_padding_witness :
  exists faceData,
    Server.generateCubeFace flat42 4 1024 = Return faceData /\
    ServerV0.tilePixels faceData 1 0 (mkConfig 512 1024 None) 1024
    = Server.tilePixels faceData 1 0 (mkConfig 512 1024 None) 1024.
Proof.
  assert (Hc : Server.tileConfigs !! Z.to_nat 2 = Some (mkConfig 512 1024 None))
    by reflexivity.
  assert (Hn : Server.tilesPerSide (mkConfig 512 1024 None) = 2).
  { rewrite tilesPerSide_ceilDiv by (simpl; lia). reflexivity. }
  assert (HtX : 0 <= 1 < Server.tilesPerSide (mkConfig 512 1024 None)) by (rewrite Hn; lia).
  assert (HtY : 0 <= 0 < Server.tilesPerSide (mkConfig 512 1024 None)) by (rewrite Hn; lia).
  destruct (table_tiles_have_no_padding flat42 2 4 1 0 _ Hc HtX HtY)
    as (fd & Hfd & _ & _ & Heq).
  exists fd. split; [exact Hfd | exact Heq].
Defined.

(** ** The logging variant returns whatever the route returns *)

Lemma loop_fromM_sim {St : Type} (body1 body2 : Z -> St -> M St) :
  forall (fuel : nat) (i : Z) (s s' : St) (h h' : history),
    (forall j t g t' g', i <= j < i + Z.of_nat fuel ->
       body1 j t g = (Return t', g') -> body2 j t g = (Return t', g')) ->
    loop_fromM fuel i body1 s h = (Return s', h') ->
    loop_fromM fuel i body2 s h = (Return s', h').
Proof.
  induction fuel as [|k IH]; intros i s s' h h' Hstep Hrun; simpl loop_fromM in *.
  - exact Hrun.
  - apply bind_inv in Hrun as (t & g & Hbody & Hrest).
    rewrite (bind_Return _ _ h g t (Hstep i s h t g ltac:(lia) Hbody)).
    apply IH; [|exact Hrest].
    intros j t0 g0 t' g' Hj. apply Hstep. lia.
Qed.

Lemma for_rangeM_sim {St : Type} (body1 body2 : Z -> St -> M St)
    (n : Z) (s s' : St) (h h' : history) :
  for_rangeM n body1 s h = (Return s', h') ->
  (forall j t g t' g', 0 <= j < n ->
     body1 j t g = (Return t', g') -> body2 j t g = (Return t', g')) ->
  for_rangeM n body2 s h = (Return s', h').
Proof.
  intros Hrun Hstep. unfold for_rangeM in *.
  apply (loop_fromM_sim body1 body2 (Z.to_nat n) 0 s s' h h'); [|exact Hrun].
  intros j t g t' g' Hj. apply Hstep. lia.
Qed.

Lemma generateCubeFace_face_buffer (img : ImageBitmap) (face size : Z) (faceData : buffer) :
  0 <= size ->
  Server.generateCubeFace img face size = Return faceData ->
  face_buffer faceData size.
Proof.
  intros Hsize Hrun.
  destruct (generateCubeFace_pixels img face size Hsize) as (fd & Hfd & Hlen & _).
  destruct (generateCubeFace_bytes img face size Hsize) as (fd' & Hfd' & Hbytes).
  assert (fd = faceData) by congruence. assert (fd' = faceData) by congruence.
  subst fd fd'. split; assumption.
Qed.

Lemma configAt_inv (z : Z) (config : TileConfig) (g g' : history) :
  Server.configAt z g = (Return config, g') ->
  Server.tileConfigs !! Z.to_nat z = Some config /\ g' = g.
Proof.
  unfold Server.configAt.
  destruct (Server.tileConfigs !! Z.to_nat z) as [c|]; [|discriminate].
  unfold ret. intros H. injection H as -> ->. auto.
Qed.

Section Variants.

Context {Blob Zip : Type}.
Variable convertToBlob : history -> buffer -> Q -> completion Blob.
Variable generateAsync : gmap Server.tileKey Blob -> list TileConfig -> completion Zip.

(** On a tile of the level table, a call of the route's tile method that
    returns is matched by the logging variant: same blob, same encoder call. *)
Lemma createTile_sim (face : buffer) (z x y : Z) (config : TileConfig)
    (blob : Blob) (g g' : history) :
  Server.tileConfigs !! Z.to_nat z = Some config ->
  face_buffer face (size config) ->
  0 <= x < Server.tilesPerSide config -> 0 <= y < Server.tilesPerSide config ->
  Server.createTile convertToBlob face x y config (size config) g = (Return blob, g') ->
  ServerV0.createTile convertToBlob face x y config (size config) g = (Return blob, g').
Proof.
  intros Hc Hface Hx Hy Hrun.
  destruct (table_config z config Hc) as (Hts & Hs & Hn).
  destruct (full_tile_pixels face x y config Hface Hts) as (_ & _ & Heq);
    [lia | lia | nia | nia |].
  rewrite createTile_route in Hrun. injection Hrun as Hblob Hg.
  rewrite createTile_retry. cbv zeta. rewrite Heq, Hblob, Hg. reflexivity.
Qed.

Lemma generateTiles_sim (img : ImageBitmap) (tiles : gmap Server.tileKey Blob)
    (h h' : history) :
  Server.generateTiles (Server.createTile convertToBlob) img 3 h = (Return tiles, h') ->
  Server.generateTiles (ServerV0.createTile convertToBlob) img 3 h = (Return tiles, h').
Proof.
  intros Hrun. rewrite generateTiles_unfold in *.
  apply (for_rangeM_sim _ _ _ _ _ _ _ Hrun).
  intros z t g t' g' Hz Hlevel.
  apply bind_inv in Hlevel as (config & g1 & Hcfg & Hfaces).
  rewrite (bind_Return _ _ g g1 config Hcfg).
  apply configAt_inv in Hcfg as [Hc ->].
  destruct (table_config z config Hc) as (Hts & Hs & Hn).
  apply (for_rangeM_sim _ _ _ _ _ _ _ Hfaces).
  intros face t1 g2 t2 g3 Hface Hstep.
  apply bind_inv in Hstep as (fd & g4 & Hfd & Hslice).
  rewrite (bind_Return _ _ g2 g4 fd Hfd).
  unfold liftC in Hfd. injection Hfd as Hfd _.
  pose proof (generateCubeFace_face_buffer img face (size config) fd ltac:(lia) Hfd) as Hbuf.
  unfold Server.sliceFace in *.
  apply (for_rangeM_sim _ _ _ _ _ _ _ Hslice).
  intros y t3 g5 t4 g6 Hy Hrow.
  apply (for_rangeM_sim _ _ _ _ _ _ _ Hrow).
  intros x t5 g7 t6 g8 Hx Htile.
  apply bind_inv in Htile as (blob & g9 & Hct & Hret).
  rewrite (bind_Return _ _ g7 g9 blob (createTile_sim fd z x y config blob g7 g9
                                          Hc Hbuf Hx Hy Hct)).
  exact Hret.
Qed.

Lemma processImageWith_sim (img : ImageBitmap) (h h' : history)
    (r : Server.Result (Zip := Zip)) :
  Server.processImageWith generateAsync (Server.createTile convertToBlob) img h
    = (Return r, h') ->
  Server.processImageWith generateAsync (ServerV0.createTile convertToBlob) img h
    = (Return r, h').
Proof.
  unfold Server.processImageWith.
  change (Z.of_nat (length Server.tileConfigs) - 1) with 3.
  rewrite !(bind_Return _ _ h h 132 (countTiles_table h)).
  intros Hrun.
  apply bind_inv in Hrun as (tiles & g & Htiles & Hrest).
  rewrite (bind_Return _ _ h g tiles (generateTiles_sim img tiles h g Htiles)).
  exact Hrest.
Qed.

(** X6: whatever a conversion of the route returns, the logging variant
    returns too, from the same state: the same result record and the same
    record of encoder calls.  (The converse fails when an encoder call at
    quality 1.0 throws: see [createTile_retry].) *)
Theorem logging_variant_extends_route (img : ImageBitmap) (h h' : history)
    (r : Server.Result (Zip := Zip)) :
  Server.processImage convertToBlob generateAsync img h = (Return r, h') ->
  ServerV0.processImage convertToBlob generateAsync img h = (Return r, h').
Proof.
  rewrite processImage_unfold, processImageV0_unfold, try_catch_rethrow.
  apply processImageWith_sim.
Qed.

End Variants.

Lemma logging_variant_extends_route_witness :
  exists r h',
    Server.processImage anyEncoder anyArchive flat42 [] = (Return r, h') /\
    ServerV0.processImage anyEncoder anyArchive flat42 [] = (Return r, h').
Proof.
  destruct (processImageWith_returns anyArchive (Server.createTile anyEncoder))
    with (img := flat42) (h := @nil attempt) as (r & h' & Hrun).
  - intros face x y config faceSize g. eexists _, _. reflexivity.
  - intros tiles. eexists. reflexivity.
  - rewrite <- processImage_unfold in Hrun.
    exists r, h'. split; [exact Hrun|].
    exact (logging_variant_extends_route anyEncoder anyArchive flat42 [] h' r Hrun).
Defined.

(** ** The tile table holds the tiles of the grid and no other *)

Lemma madeBefore_mono (z face n k k' : Z) (key : Server.tileKey) :
  k <= k' -> madeBefore z face n k key -> madeBefore z face n k' key.
Proof.
  intros Hk (z' & config & face' & x & y & Hc & Hz' & Hf' & Hx & Hy & Hkey & Hbefore).
  exists z', config, face', x, y. repeat (split; [assumption|]). lia.
Qed.

Lemma madeBefore_next_face (z face n n' : Z) (key : Server.tileKey) :
  madeBefore z face n (n * n) key -> madeBefore z (face + 1) n' 0 key.
Proof.
  intros (z' & config & face' & x & y & Hc & Hz' & Hf' & Hx & Hy & Hkey & Hbefore).
  exists z', config, face', x, y. repeat (split; [assumption|]). lia.
Qed.

Lemma madeBefore_next_level (z n n' : Z) (key : Server.tileKey) :
  madeBefore z 6 n 0 key -> madeBefore (z + 1) 0 n' 0 key.
Proof.
  intros (z' & config & face' & x & y & Hc & Hz' & Hf' & Hx & Hy & Hkey & Hbefore).
  exists z', config, face', x, y. repeat (split; [assumption|]). lia.
Qed.

Lemma madeBefore_gridKey (z face n k : Z) (key : Server.tileKey) :
  madeBefore z face n k key -> gridKey key.
Proof.
  intros (z' & config & face' & x & y & Hc & Hz' & Hf' & Hx & Hy & Hkey & _).
  exists z', config, face', x, y. auto 10.
Qed.

(** Storing tile [(y, x)] of the current face adds a new key. *)
Lemma tableInv_insert {Blob : Type} (z face x y count : Z) (config : TileConfig)
    (blob : Blob) (tiles : gmap Server.tileKey Blob) :
  let n := Server.tilesPerSide config in
  Server.tileConfigs !! Z.to_nat z = Some config ->
  0 <= z -> 0 <= face < 6 -> 0 <= x < n -> 0 <= y < n ->
  tableInv z face n (y * n + x) count tiles ->
  tableInv z face n (y * n + x + 1) (count + 1)
    (<[(z, Server.faceNameAt face, y, x) := blob]> tiles).
Proof.
  intros n Hc Hz Hface Hx Hy [Honly Hsize].
  assert (Hnew : tiles !! (z, Server.faceNameAt face, y, x) = None).
  { apply eq_None_not_Some. intros Hsome.
    destruct (Honly _ Hsome)
      as (z' & config' & face' & x' & y' & Hc' & Hz' & Hf' & Hx' & Hy' & Hkey & Hbefore).
    inversion Hkey as [[Hzz Hname Hyy Hxx]]. subst z' y' x'.
    assert (face' = face) by (symmetry; now apply faceNameAt_inj).
    assert (config' = config) by congruence. subst. fold n in Hx'. lia. }
  split.
  - intros key Hsome.
    destruct (decide (key = (z, Server.faceNameAt face, y, x))) as [->|Hne].
    + exists z, config, face, x, y. repeat (split; [assumption || reflexivity|]). lia.
    + rewrite lookup_insert_ne in Hsome by congruence.
      apply (madeBefore_mono z face n (y * n + x)); [lia | now apply Honly].
  - rewrite map_size_insert_None by exact Hnew. lia.
Qed.

Lemma foldr_add_snoc (l : list Z) (a : Z) : foldr Z.add 0 (l ++ [a]) = foldr Z.add 0 l + a.
Proof. induction l as [|b l IH]; simpl; lia. Qed.

Lemma tilesBefore_succ (z : Z) (config : TileConfig) :
  0 <= z -> Server.tileConfigs !! Z.to_nat z = Some config ->
  tilesBefore (z + 1)
  = tilesBefore z + 6 * Server.tilesPerSide config * Server.tilesPerSide config.
Proof.
  intros Hz Hc. unfold tilesBefore.
  replace (Z.to_nat (z + 1)) with (S (Z.to_nat z)) by lia.
  rewrite (take_S_r _ _ _ Hc), map_app.
  change (map (fun c => 6 * Server.tilesPerSide c * Server.tilesPerSide c) [config])
    with [6 * Server.tilesPerSide config * Server.tilesPerSide config].
  apply foldr_add_snoc.
Qed.

Lemma tilesBefore_all : tilesBefore 4 = 132.
Proof.
  unfold tilesBefore. change (take (Z.to_nat 4) Server.tileConfigs) with Server.tileConfigs.
  rewrite <- (map_map Server.tilesPerSide (fun n => 6 * n * n)), tilesPerSide_table.
  reflexivity.
Qed.

Section ExactTable.

Context {Blob : Type}.
Variable createTile : buffer -> Z -> Z -> TileConfig -> Z -> M Blob.

Lemma sliceFace_table (fd : buffer) (config : TileConfig) (z face count : Z)
    (tiles tiles' : gmap Server.tileKey Blob) (h h' : history) :
  let n := Server.tilesPerSide config in
  Server.tileConfigs !! Z.to_nat z = Some config ->
  0 <= z -> 0 <= face < 6 ->
  Server.sliceFace createTile fd config (size config) z (Server.faceNameAt face) n tiles h
    = (Return tiles', h') ->
  tableInv z face n 0 count tiles ->
  tableInv z face n (n * n) (count + n * n) tiles'.
Proof.
  intros n Hc Hz Hface Hrun Hinv.
  destruct (tilesPerSide_nonneg z config Hc) as [Hn _]. fold n in Hn.
  unfold Server.sliceFace in Hrun.
  apply (for_rangeM_post (fun y t _ => tableInv z face n (y * n) (count + y * n) t)
           _ _ _ _ _ _ Hrun Hn).
  - now rewrite Z.mul_0_l, Z.add_0_r.
  - intros y t g t' g' Hy Ht Hrow.
    replace ((y + 1) * n) with (y * n + n) by lia.
    rewrite Z.add_assoc.
    apply (for_rangeM_post
             (fun x t1 _ => tableInv z face n (y * n + x) (count + y * n + x) t1)
             _ _ _ _ _ _ Hrow Hn).
    + now rewrite !Z.add_0_r.
    + intros x t1 g1 t2 g2 Hx Ht1 Hstep.
      apply bind_inv in Hstep as (blob & g3 & _ & Hret).
      unfold ret in Hret. injection Hret as <- _.
      rewrite !Z.add_assoc.
      now apply tableInv_insert.
Qed.

Lemma generateTiles_table (img : ImageBitmap) (tiles : gmap Server.tileKey Blob)
    (h h' : history) :
  Server.generateTiles createTile img 3 h = (Return tiles, h') ->
  (forall key, is_Some (tiles !! key) -> gridKey key) /\ Z.of_nat (base.size tiles) = 132.
Proof.
  intros Hrun. rewrite generateTiles_unfold in Hrun.
  assert (Hfinal : tableInv (3 + 1) 0 0 0 (tilesBefore (3 + 1)) tiles).
  { apply (for_rangeM_post (fun z t _ => tableInv z 0 0 0 (tilesBefore z) t)
             _ _ _ _ _ _ Hrun); [lia | |].
    - split; [|reflexivity]. intros key [b Hb]. now rewrite lookup_empty in Hb.
    - intros z t g t' g' Hz Hinv Hlevel.
      apply bind_inv in Hlevel as (config & g1 & Hcfg & Hfaces).
      apply configAt_inv in Hcfg as [Hc ->].
      rewrite (tilesBefore_succ z config ltac:(lia) Hc).
      set (n := Server.tilesPerSide config) in *.
      assert (H6 : tableInv z 6 n 0 (tilesBefore z + 6 * (n * n)) t').
      { apply (for_rangeM_post
                 (fun face t1 _ => tableInv z face n 0 (tilesBefore z + face * (n * n)) t1)
                 _ _ _ _ _ _ Hfaces); [lia | |].
        - rewrite Z.mul_0_l, Z.add_0_r. destruct Hinv as [Honly Hsize].
          split; [|exact Hsize]. intros key Hsome.
          destruct (Honly key Hsome)
            as (z' & c' & f' & x & y & Hc' & Hz' & Hf' & Hx & Hy & Hkey & Hbefore).
          exists z', c', f', x, y. repeat (split; [assumption|]). lia.
        - intros face t1 g2 t2 g3 Hface Ht1 Hstep.
          apply bind_inv in Hstep as (fd & g4 & _ & Hslice).
          pose proof (sliceFace_table fd config z face _ t1 t2 g4 g3 Hc ltac:(lia) Hface
                        Hslice Ht1) as [Honly Hsize].
          fold n in Honly, Hsize.
          split; [|lia]. intros key Hsome.
          apply (madeBefore_next_face z face n n). now apply Honly. }
      destruct H6 as [Honly Hsize]. split; [|lia].
      intros key Hsome. apply (madeBefore_next_level z n 0). now apply Honly. }
  destruct Hfinal as [Honly Hsize]. split.
  - intros key Hsome. exact (madeBefore_gridKey _ _ _ _ key (Honly key Hsome)).
  - rewrite Hsize. exact tilesBefore_all.
Qed.

End ExactTable.

(** X7: the table that a returning conversion (either server variant)
    hands to the archive writer holds a tile under a key exactly when the
    key is [(z, faceName, y, x)] for a level of the table, one of the six face
    names and a position of that level's grid; the number of its entries is
    the reported [totalTiles], 132. *)
Theorem archive_tiles_exact {Blob Zip : Type}
    (convertToBlob : history -> buffer -> Q -> completion Blob)
    (generateAsync : gmap Server.tileKey Blob -> list TileConfig -> completion Zip)
    (img : ImageBitmap) (h h' : history) (r : Server.Result (Zip := Zip)) :
  Server.processImage convertToBlob generateAsync img h = (Return r, h') \/
  ServerV0.processImage convertToBlob generateAsync img h = (Return r, h') ->
  exists tiles g,
    (Server.generateTiles (Server.createTile convertToBlob) img 3 h = (Return tiles, g) \/
     Server.generateTiles (ServerV0.createTile convertToBlob) img 3 h = (Return tiles, g)) /\
    generateAsync tiles Server.tileConfigs = Return (Server.zipBuffer r) /\
    (forall key, is_Some (tiles !! key) <-> gridKey key) /\
    Z.of_nat (base.size tiles) = Server.totalTiles r /\
    Server.totalTiles r = 132.
Proof.
  intros Hrun.
  assert (Hgen : forall createTile,
            Server.processImageWith generateAsync createTile img h = (Return r, h') ->
            exists tiles g,
              Server.generateTiles createTile img 3 h = (Return tiles, g) /\
              generateAsync tiles Server.tileConfigs = Return (Server.zipBuffer r) /\
              (forall key, is_Some (tiles !! key) <-> gridKey key) /\
              Z.of_nat (base.size tiles) = Server.totalTiles r /\
              Server.totalTiles r = 132).
  { intros createTile Hwith.
    apply processImageWith_result in Hwith as (tiles & g & Htiles & Hzip & Htotal & _).
    destruct (generateTiles_table createTile img tiles h g Htiles) as [Honly Hsize].
    pose proof (generateTiles_post createTile img tiles h g Htiles) as Hdone.
    exists tiles, g. split; [exact Htiles|]. split; [exact Hzip|].
    split; [|split; [congruence | exact Htotal]].
    intros key. split; [apply Honly|].
    intros (z & config & face & x & y & Hc & Hz & Hface & Hx & Hy & ->).
    apply (Hdone z config face x y Hc Hz Hface); [|exact Hx|exact Hy].
    assert (Z.to_nat z < length Server.tileConfigs)%nat
      by (apply lookup_lt_is_Some; eauto).
    simpl in *. lia. }
  destruct Hrun as [Hrun|Hrun].
  - rewrite processImage_unfold in Hrun.
    destruct (Hgen _ Hrun) as (tiles & g & Htiles & Hrest). exists tiles, g.
    split; [left; exact Htiles | exact Hrest].
  - rewrite processImageV0_unfold, try_catch_rethrow in Hrun.
    destruct (Hgen _ Hrun) as (tiles & g & Htiles & Hrest). exists tiles, g.
    split; [right; exact Htiles | exact Hrest].
Qed.

Lemma archive_tiles_exact_witness :
  exists r h' (tiles : gmap Server.tileKey unit),
    Server.processImage anyEncoder anyArchive flat42 [] = (Return r, h') /\
    Z.of_nat (base.size tiles) = 132 /\
    is_Some (tiles !! (3, "b"%string, 3, 3)) /\
    tiles !! (1, "4"%string, 0, 0) = None.
Proof.
  destruct (processImageWith_returns anyArchive (Server.createTile anyEncoder))
    with (img := flat42) (h := @nil attempt) as (r & h' & Hrun).
  - intros face x y config faceSize g. eexists _, _. reflexivity.
  - intros tiles. eexists. reflexivity.
  - rewrite <- processImage_unfold in Hrun.
    destruct (archive_tiles_exact anyEncoder anyArchive flat42 [] h' r (or_introl Hrun))
      as (tiles & g & _ & _ & Hkeys & Hsize & Htotal).
    exists r, h', tiles. split; [exact Hrun|]. split; [congruence|]. split.
    + apply Hkeys. exists 3, (mkConfig 512 2048 None), 5, 3, 3.
      rewrite tilesPerSide_ceilDiv by (simpl; lia).
      repeat split; try reflexivity; try lia.
    + apply eq_None_not_Some. intros Hsome. apply Hkeys in Hsome.
      destruct Hsome as (z & config & face & x & y & _ & _ & Hface & _ & _ & Hkey).
      inversion Hkey as [[Hz Hname Hy Hx]].
      assert (Hcase : face = 0 \/ face = 1 \/ face = 2 \/ face = 3 \/ face = 4 \/ face = 5)
        by lia.
      destruct Hcase as [->|[->|[->|[->|[->| ->]]]]]; discriminate Hname.
Defined.

(** ** The encoder calls of a conversion that returns *)

Lemma callBlocks_nil (B : history -> Prop) : callBlocks B [] 0.
Proof. exists []. auto. Qed.

Lemma callBlocks_app (B : history -> Prop) (calls calls' : history) (n n' : Z) :
  callBlocks B calls n -> callBlocks B calls' n' -> callBlocks B (calls ++ calls') (n + n').
Proof.
  intros (bs & -> & Hn & HB) (bs' & -> & Hn' & HB').
  exists (bs ++ bs'). rewrite concat_app, length_app, Forall_app. split; [reflexivity|].
  split; [lia | auto].
Qed.

Lemma callBlocks_block (B : history -> Prop) (block : history) :
  B block -> callBlocks B block 1.
Proof.
  intros HB. exists [block]. simpl. rewrite app_nil_r. auto.
Qed.

Lemma callBlocks_route_length (calls : history) (n : Z) :
  callBlocks routeBlock calls n ->
  Z.of_nat (length calls) = n /\ Forall (fun a => att_quality a = 1%Q) calls.
Proof.
  intros (bs & -> & <- & HB).
  induction HB as [|b bs [px ->] _ IH]; [split; [reflexivity | constructor]|].
  destruct IH as [IHlen IHq]. simpl. split; [lia | now constructor].
Qed.

Lemma callBlocks_retry_length (calls : history) (n : Z) :
  callBlocks retryBlock calls n ->
  n <= Z.of_nat (length calls) <= 2 * n /\
  Forall (fun a => att_quality a = 1%Q \/ att_quality a = (9 # 10)%Q) calls.
Proof.
  intros (bs & -> & <- & HB).
  induction HB as [|b bs [px [-> | ->]] _ IH].
  - split; [simpl; lia | constructor].
  - destruct IH as [IHlen IHq]. simpl. split; [lia|].
    constructor; [left; reflexivity | exact IHq].
  - destruct IH as [IHlen IHq]. simpl. split; [lia|].
    constructor; [left; reflexivity|]. constructor; [right; reflexivity | exact IHq].
Qed.

Section EncoderRecord.

Context {Blob Zip : Type}.
Variable generateAsync : gmap Server.tileKey Blob -> list TileConfig -> completion Zip.
Variable createTile : buffer -> Z -> Z -> TileConfig -> Z -> M Blob.
Variable B : history -> Prop.

Hypothesis createTile_block :
  forall face x y config faceSize g blob g',
    createTile face x y config faceSize g = (Return blob, g') ->
    exists block, g' = g ++ block /\ B block.

Lemma sliceFace_calls (fd : buffer) (config : TileConfig) (faceSize z : Z)
    (faceName : string) (n : Z) (tiles tiles' : gmap Server.tileKey Blob) (h h' : history) :
  0 <= n ->
  Server.sliceFace createTile fd config faceSize z faceName n tiles h = (Return tiles', h') ->
  exists calls, h' = h ++ calls /\ callBlocks B calls (n * n).
Proof.
  intros Hn Hrun. unfold Server.sliceFace in Hrun.
  apply (for_rangeM_post
           (fun y (_ : gmap Server.tileKey Blob) g =>
              exists calls, g = h ++ calls /\ callBlocks B calls (y * n))
           _ _ _ _ _ _ Hrun Hn).
  - exists []. rewrite app_nil_r. split; [reflexivity | apply callBlocks_nil].
  - intros y t g t' g' Hy (calls & -> & Hcalls) Hrow.
    assert (Hinner : exists calls', g' = (h ++ calls) ++ calls' /\ callBlocks B calls' n).
    { apply (for_rangeM_post
               (fun x (_ : gmap Server.tileKey Blob) g1 =>
                  exists calls', g1 = (h ++ calls) ++ calls' /\ callBlocks B calls' x)
               _ _ _ _ _ _ Hrow Hn).
      - exists []. rewrite app_nil_r. split; [reflexivity | apply callBlocks_nil].
      - intros x t1 g1 t2 g2 Hx (calls1 & -> & Hcalls1) Hstep.
        apply bind_inv in Hstep as (blob & g3 & Hct & Hret).
        unfold ret in Hret. injection Hret as _ <-.
        destruct (createTile_block _ _ _ _ _ _ _ _ Hct) as (block & -> & Hblock).
        exists (calls1 ++ block). rewrite <- !app_assoc. split; [reflexivity|].
        apply callBlocks_app; [exact Hcalls1 | now apply callBlocks_block]. }
    destruct Hinner as (calls' & -> & Hcalls').
    exists (calls ++ calls'). rewrite <- app_assoc. split; [reflexivity|].
    replace ((y + 1) * n) with (y * n + n) by lia.
    now apply callBlocks_app.
Qed.

Lemma generateTiles_calls (img : ImageBitmap) (tiles : gmap Server.tileKey Blob)
    (h h' : history) :
  Server.generateTiles createTile img 3 h = (Return tiles, h') ->
  exists calls, h' = h ++ calls /\ callBlocks B calls 132.
Proof.
  intros Hrun. rewrite generateTiles_unfold in Hrun.
  rewrite <- tilesBefore_all. change 4 with (3 + 1).
  apply (for_rangeM_post
           (fun z (_ : gmap Server.tileKey Blob) g =>
              exists calls, g = h ++ calls /\ callBlocks B calls (tilesBefore z))
           _ _ _ _ _ _ Hrun); [lia | |].
  - exists []. rewrite app_nil_r. split; [reflexivity | apply callBlocks_nil].
  - intros z t g t' g' Hz (calls & -> & Hcalls) Hlevel.
    apply bind_inv in Hlevel as (config & g1 & Hcfg & Hfaces).
    apply configAt_inv in Hcfg as [Hc ->].
    rewrite (tilesBefore_succ z config ltac:(lia) Hc).
    destruct (tilesPerSide_nonneg z config Hc) as [Hn _].
    set (n := Server.tilesPerSide config) in *.
    assert (Hinner : exists calls', g' = (h ++ calls) ++ calls' /\
                                    callBlocks B calls' (6 * (n * n))).
    { apply (for_rangeM_post
               (fun face (_ : gmap Server.tileKey Blob) g1 =>
                  exists calls', g1 = (h ++ calls) ++ calls' /\
                                 callBlocks B calls' (face * (n * n)))
               _ _ _ _ _ _ Hfaces); [lia | |].
      - exists []. rewrite app_nil_r. split; [reflexivity | apply callBlocks_nil].
      - intros face t1 g2 t2 g3 Hface (calls1 & -> & Hcalls1) Hstep.
        apply bind_inv in Hstep as (fd & g4 & Hfd & Hslice).
        unfold liftC in Hfd. injection Hfd as _ <-.
        destruct (sliceFace_calls _ _ _ _ _ _ _ _ _ _ Hn Hslice) as (calls2 & -> & Hcalls2).
        exists (calls1 ++ calls2). rewrite <- !app_assoc. split; [reflexivity|].
        replace ((face + 1) * (n * n)) with (face * (n * n) + n * n) by lia.
        now apply callBlocks_app. }
    destruct Hinner as (calls' & -> & Hcalls').
    exists (calls ++ calls'). rewrite <- app_assoc. split; [reflexivity|].
    replace (6 * n * n) with (6 * (n * n)) by lia.
    now apply callBlocks_app.
Qed.

Lemma processImageWith_calls (img : ImageBitmap) (h h' : history)
    (r : Server.Result (Zip := Zip)) :
  Server.processImageWith generateAsync createTile img h = (Return r, h') ->
  exists calls, h' = h ++ calls /\ callBlocks B calls 132.
Proof.
  unfold Server.processImageWith.
  change (Z.of_nat (length Server.tileConfigs) - 1) with 3.
  rewrite (bind_Return _ _ h h 132 (countTiles_table h)).
  intros Hrun.
  apply bind_inv in Hrun as (tiles & g & Htiles & Hrun).
  apply bind_inv in Hrun as (zb & g1 & Hzip & Hrun).
  unfold ret in Hrun. injection Hrun as _ <-.
  unfold Server.createZipFile, liftC in Hzip. injection Hzip as _ <-.
  exact (generateTiles_calls img tiles h g Htiles).
Qed.

End EncoderRecord.

(** The encoder calls of one tile on the route. *)
Lemma createTile_routeBlock {Blob : Type}
    (convertToBlob : history -> buffer -> Q -> completion Blob)
    (face : buffer) (x y : Z) (config : TileConfig) (faceSize : Z)
    (g g' : history) (blob : Blob) :
  Server.createTile convertToBlob face x y config faceSize g = (Return blob, g') ->
  exists block, g' = g ++ block /\ routeBlock block.
Proof.
  intros Hct. rewrite createTile_route in Hct. injection Hct as _ <-.
  eexists. split; [reflexivity|]. eexists. reflexivity.
Qed.

(** The encoder calls of one tile in the logging variant. *)
Lemma createTile_retryBlock {Blob : Type}
    (convertToBlob : history -> buffer -> Q -> completion Blob)
    (face : buffer) (x y : Z) (config : TileConfig) (faceSize : Z)
    (g g' : history) (blob : Blob) :
  ServerV0.createTile convertToBlob face x y config faceSize g = (Return blob, g') ->
  exists block, g' = g ++ block /\ retryBlock block.
Proof.
  intros Hct. rewrite createTile_retry in Hct. cbv zeta in Hct.
  destruct (convertToBlob g _ 1%Q) as [b|e].
  - injection Hct as _ <-. eexists. split; [reflexivity|]. eexists. left. reflexivity.
  - injection Hct as _ <-. rewrite <- app_assoc.
    eexists. split; [reflexivity|]. eexists. right. reflexivity.
Qed.

(** X8: a conversion of the route that returns has called the encoder
    exactly 132 times, once for each tile and each time at quality 1.0; the
    calls are appended to the record and nothing of the record is lost. *)
Theorem route_encoder_calls {Blob Zip : Type}
    (convertToBlob : history -> buffer -> Q -> completion Blob)
    (generateAsync : gmap Server.tileKey Blob -> list TileConfig -> completion Zip)
    (img : ImageBitmap) (h h' : history) (r : Server.Result (Zip := Zip)) :
  Server.processImage convertToBlob generateAsync img h = (Return r, h') ->
  exists calls,
    h' = h ++ calls /\ callBlocks routeBlock calls 132 /\
    length calls = 132%nat /\ Forall (fun a => att_quality a = 1%Q) calls.
Proof.
  rewrite processImage_unfold. intros Hrun.
  destruct (processImageWith_calls generateAsync (Server.createTile convertToBlob) routeBlock
              (fun face x y config faceSize g blob g' =>
                 createTile_routeBlock convertToBlob face x y config faceSize g g' blob)
              img h h' r Hrun) as (calls & Hh' & Hcalls).
  destruct (callBlocks_route_length calls 132 Hcalls) as [Hlen Hq].
  exists calls. repeat split; [exact Hh' | exact Hcalls | lia | exact Hq].
Qed.

Lemma route_encoder_calls_witness :
  exists r h',
    Server.processImage anyEncoder anyArchive flat42 [] = (Return r, h') /\
    length h' = 132%nat.
Proof.
  destruct (processImageWith_returns anyArchive (Server.createTile anyEncoder))
    with (img := flat42) (h := @nil attempt) as (r & h' & Hrun).
  - intros face x y config faceSize g. eexists _, _. reflexivity.
  - intros tiles. eexists. reflexivity.
  - rewrite <- processImage_unfold in Hrun.
    destruct (route_encoder_calls anyEncoder anyArchive flat42 [] h' r Hrun)
      as (calls & -> & _ & Hlen & _).
    exists r, ([] ++ calls). split; [exact Hrun | exact Hlen].
Defined.

(** X9: a conversion of the logging variant that returns has made, for
    each of the 132 tiles in turn, either one encoder call at quality 1.0 or
    that call followed by one call at quality 0.9 with the same pixels: between
    132 and 264 calls, and never a third attempt for a tile. *)
Theorem logging_variant_encoder_calls {Blob Zip : Type}
    (convertToBlob : history -> buffer -> Q -> completion Blob)
    (generateAsync : gmap Server.tileKey Blob -> list TileConfig -> completion Zip)
    (img : ImageBitmap) (h h' : history) (r : Server.Result (Zip := Zip)) :
  ServerV0.processImage convertToBlob generateAsync img h = (Return r, h') ->
  exists calls,
    h' = h ++ calls /\ callBlocks retryBlock calls 132 /\
    (132 <= length calls <= 264)%nat /\
    Forall (fun a => att_quality a = 1%Q \/ att_quality a = (9 # 10)%Q) calls.
Proof.
  rewrite processImageV0_unfold, try_catch_rethrow. intros Hrun.
  destruct (processImageWith_calls generateAsync (ServerV0.createTile convertToBlob)
              retryBlock
              (fun face x y config faceSize g blob g' =>
                 createTile_retryBlock convertToBlob face x y config faceSize g g' blob)
              img h h' r Hrun) as (calls & Hh' & Hcalls).
  destruct (callBlocks_retry_length calls 132 Hcalls) as [Hlen Hq].
  exists calls. repeat split; [exact Hh' | exact Hcalls | lia | lia | exact Hq].
Qed.

Lemma logging_variant_encoder_calls_witness :
  exists r h',
    ServerV0.processImage pickyEncoder anyArchive flat42 [] = (Return r, h') /\
    (132 <= length h' <= 264)%nat.
Proof.
  destruct (processImageWith_returns anyArchive (ServerV0.createTile pickyEncoder))
    with (img := flat42) (h := @nil attempt) as (r & h' & Hrun).
  - intros face x y config faceSize g. eexists _, _.
    rewrite createTile_retry. reflexivity.
  - intros tiles. eexists. reflexivity.
  - assert (Hv0 : ServerV0.processImage pickyEncoder anyArchive flat42 [] = (Return r, h'))
      by now rewrite processImageV0_unfold, try_catch_rethrow.
    destruct (logging_variant_encoder_calls pickyEncoder anyArchive flat42 [] h' r Hv0)
      as (calls & -> & _ & Hlen & _).
    exists r, ([] ++ calls). split; [exact Hv0 | exact Hlen].
Defined.

(** ** Printed tile keys *)

Lemma slash_split (s1 s2 t1 t2 : string) :
  noSlash s1 = true -> noSlash s2 = true ->
  s1 +:+ "/" +:+ t1 = s2 +:+ "/" +:+ t2 -> s1 = s2 /\ t1 = t2.
Proof.
  revert s2. induction s1 as [|c s1 IH]; intros [|d s2] H1 H2 Heq;
    cbn [String.append noSlash] in *.
  - injection Heq as Heq. auto.
  - injection Heq as Hd _. subst d. discriminate H2.
  - injection Heq as Hc _. subst c. discriminate H1.
  - injection Heq as Hc Heq. subst d.
    apply andb_true_iff in H1 as [_ H1]. apply andb_true_iff in H2 as [_ H2].
    destruct (IH s2 H1 H2 Heq) as [Hs Ht]. subst. auto.
Qed.

Lemma noSlash_pretty_N_go (x : N) (s : string) :
  noSlash s = true -> noSlash (pretty_N_go x s) = true.
Proof.
  revert s. induction (N.lt_wf_0 x) as [x _ IH]. intros s Hs.
  destruct (N.eq_dec x 0%N) as [->|Hx].
  - now rewrite pretty_N_go_0.
  - rewrite pretty_N_go_step by lia.
    apply IH; [apply N.div_lt; lia|].
    simpl. rewrite Hs, andb_true_r.
    unfold pretty_N_char. repeat case_match; reflexivity.
Qed.

Lemma noSlash_pretty_N (x : N) : noSlash (pretty x) = true.
Proof.
  unfold pretty, pretty_N. destruct (decide (x = 0%N)); [reflexivity|].
  now apply noSlash_pretty_N_go.
Qed.

Lemma noSlash_pretty_Z (z : Z) : noSlash (pretty z) = true.
Proof.
  unfold pretty, pretty_Z. destruct z as [|p|p]; [reflexivity| |].
  - apply noSlash_pretty_N.
  - change (noSlash (String "-"%char (pretty p)) = true). simpl. apply noSlash_pretty_N.
Qed.

Lemma noSlash_numberToString (i : inum) : noSlash (numberToString i) = true.
Proof. destruct i as [z|]; [apply noSlash_pretty_Z | reflexivity]. Qed.

Lemma noSlash_faceNameAt (face : Z) : noSlash (Server.faceNameAt face) = true.
Proof.
  unfold Server.faceNameAt.
  destruct (Z.to_nat face) as [|[|[|[|[|[|k]]]]]]; reflexivity.
Qed.

Lemma faceNameAt_letter (face : Z) :
  0 <= face < 6 ->
  Server.faceNameAt face = "r"%string \/ Server.faceNameAt face = "l"%string \/
  Server.faceNameAt face = "u"%string \/ Server.faceNameAt face = "d"%string \/
  Server.faceNameAt face = "f"%string \/ Server.faceNameAt face = "b"%string.
Proof.
  intros Hface.
  assert (Hcase : face = 0 \/ face = 1 \/ face = 2 \/ face = 3 \/ face = 4 \/ face = 5)
    by lia.
  destruct Hcase as [->|[->|[->|[->|[->| ->]]]]]; auto 10.
Qed.

(** The four fields can be read back from a printed key. *)
Lemma tilePath_inj (z1 y1 x1 z2 y2 x2 : Z) (f1 f2 : string) :
  noSlash f1 = true -> noSlash f2 = true ->
  tilePath (z1, f1, y1, x1) = tilePath (z2, f2, y2, x2) ->
  (z1, f1, y1, x1) = (z2, f2, y2, x2).
Proof.
  intros Hf1 Hf2 Heq. unfold tilePath in Heq.
  apply slash_split in Heq as [Hz Heq]; [|apply noSlash_pretty_Z..].
  apply slash_split in Heq as [Hf Heq]; [|assumption..].
  apply slash_split in Heq as [Hy Hx]; [|apply noSlash_pretty_Z..].
  apply (inj pretty) in Hz, Hy, Hx. now subst.
Qed.

Lemma tilePath_inj_grid (k1 k2 : Server.tileKey) :
  gridKey k1 -> gridKey k2 -> tilePath k1 = tilePath k2 -> k1 = k2.
Proof.
  intros (z1 & c1 & f1 & x1 & y1 & _ & _ & _ & _ & _ & ->)
         (z2 & c2 & f2 & x2 & y2 & _ & _ & _ & _ & _ & ->).
  apply tilePath_inj; apply noSlash_faceNameAt.
Qed.

Section Printed.

Context {A : Type}.
Variable tiles : gmap Server.tileKey A.
Hypothesis tiles_grid : forall key, is_Some (tiles !! key) -> gridKey key.

Lemma printed_NoDup :
  NoDup (((fun entry : Server.tileKey * A => (tilePath entry.1, entry.2))
            <$> map_to_list tiles).*1).
Proof.
  rewrite <- list_fmap_compose.
  apply NoDup_fmap_2_strong; [|apply NoDup_map_to_list].
  intros [k1 a1] [k2 a2] H1 H2 Heq. simpl in Heq.
  apply elem_of_map_to_list in H1, H2.
  assert (k1 = k2) by (apply tilePath_inj_grid; eauto). subst k2.
  congruence.
Qed.

Lemma printed_lookup (key : Server.tileKey) :
  gridKey key -> printed tiles !! tilePath key = tiles !! key.
Proof.
  intros Hkey. unfold printed.
  destruct (tiles !! key) as [a|] eqn:Hk.
  - apply elem_of_list_to_map_1; [apply printed_NoDup|].
    apply list_elem_of_fmap. exists (key, a). split; [reflexivity|].
    now apply elem_of_map_to_list.
  - apply not_elem_of_list_to_map_1. rewrite <- list_fmap_compose.
    intros Hin. apply list_elem_of_fmap in Hin as ([k a] & Heq & Hin).
    apply elem_of_map_to_list in Hin. simpl in Heq.
    assert (key = k) by (apply tilePath_inj_grid; eauto). subst k. congruence.
Qed.

Lemma printed_only (name : string) :
  is_Some (printed tiles !! name) ->
  exists key, name = tilePath key /\ is_Some (tiles !! key).
Proof.
  intros [a Ha]. unfold printed in Ha.
  apply elem_of_list_to_map_2, list_elem_of_fmap in Ha as ([k b] & Heq & Hin).
  apply elem_of_map_to_list in Hin. injection Heq as -> ->.
  exists k. eauto.
Qed.

Lemma printed_size : base.size (printed tiles) = base.size tiles.
Proof.
  unfold printed. rewrite map_size_list_to_map by apply printed_NoDup.
  now rewrite length_fmap, length_map_to_list.
Qed.

End Printed.

(** X10: printing the keys loses no tile.  For a table whose keys are
    keys of the grid, the object keyed by the strings [z/faceName/y/x] holds
    under each printed key the tile of that key, holds nothing under any other
    name, and has as many properties as the table has tiles: two tiles never
    share a printed key. *)
Theorem printed_keys_faithful {A : Type} (tiles : gmap Server.tileKey A) :
  (forall key, is_Some (tiles !! key) -> gridKey key) ->
  (forall k1 k2, gridKey k1 -> gridKey k2 -> tilePath k1 = tilePath k2 -> k1 = k2) /\
  (forall key, gridKey key -> printed tiles !! tilePath key = tiles !! key) /\
  (forall name, is_Some (printed tiles !! name) ->
     exists key, name = tilePath key /\ is_Some (tiles !! key)) /\
  base.size (printed tiles) = base.size tiles.
Proof.
  intros Hgrid. split; [exact tilePath_inj_grid|]. split; [|split].
  - now apply printed_lookup.
  - apply printed_only.
  - now apply printed_size.
Qed.

Lemma printed_keys_faithful_witness :
  printed (<[(0, "r"%string, 0, 0) := 7]> (∅ : gmap Server.tileKey Z)) !! "0/r/0/0"%string
  = Some 7.
Proof.
  assert (Hkey : gridKey (0, "r"%string, 0, 0)).
  { exists 0, (mkConfig 256 256 (Some true)), 0, 0, 0.
    rewrite tilesPerSide_ceilDiv by (simpl; lia).
    repeat split; try reflexivity; try lia. }
  assert (Hgrid : forall key,
            is_Some ((<[(0, "r"%string, 0, 0) := 7]> (∅ : gmap Server.tileKey Z)) !! key) ->
            gridKey key).
  { intros key [a Ha]. apply lookup_insert_Some in Ha as [[<- _]|[_ Ha]].
    - exact Hkey.
    - now rewrite lookup_empty in Ha. }
  destruct (printed_keys_faithful _ Hgrid) as (_ & Hlookup & _ & _).
  change "0/r/0/0"%string with (tilePath (0, "r"%string, 0, 0)).
  rewrite (Hlookup _ Hkey). apply lookup_insert_eq.
Defined.

(** ** Names of the archive entries *)

Lemma length_append (s t : string) :
  String.length (s +:+ t) = (String.length s + String.length t)%nat.
Proof.
  induction s as [|c s IH]; [reflexivity|].
  change (S (String.length (s +:+ t)) = S (String.length s + String.length t)).
  now rewrite IH.
Qed.

Lemma append_inj_l (s1 s2 t : string) : s1 +:+ t = s2 +:+ t -> s1 = s2.
Proof.
  revert s2. induction s1 as [|c s1 IH]; intros [|d s2] Heq.
  - reflexivity.
  - apply (f_equal String.length) in Heq.
    rewrite (length_append (String d s2) t) in Heq.
    change (String.length ("" +:+ t)) with (String.length t) in Heq.
    change (String.length (String d s2)) with (S (String.length s2)) in Heq. lia.
  - apply (f_equal String.length) in Heq.
    rewrite (length_append (String c s1) t) in Heq.
    change (String.length ("" +:+ t)) with (String.length t) in Heq.
    change (String.length (String c s1)) with (S (String.length s1)) in Heq. lia.
  - cbn [String.append] in Heq. injection Heq as -> Heq. f_equal. now apply IH.
Qed.

Lemma noSlash_app_slash (s t : string) : noSlash (s +:+ "/" +:+ t) = false.
Proof.
  induction s as [|c s IH]; [reflexivity|].
  change (negb (Ascii.eqb c "/"%char) && noSlash (s +:+ "/" +:+ t) = false).
  rewrite IH. apply andb_false_r.
Qed.

Lemma noSlash_app_l (s t : string) : noSlash s = false -> noSlash (s +:+ t) = false.
Proof.
  induction s as [|c s IH]; [discriminate|].
  change (negb (Ascii.eqb c "/"%char) && noSlash s = false ->
          negb (Ascii.eqb c "/"%char) && noSlash (s +:+ t) = false).
  destruct (negb (Ascii.eqb c "/"%char)); [exact IH | reflexivity].
Qed.

Lemma tilePath_has_slash (key : Server.tileKey) (ext : string) :
  noSlash (tilePath key +:+ ext) = false.
Proof.
  destruct key as [[[z f] y] x]. unfold tilePath.
  apply noSlash_app_l, noSlash_app_slash.
Qed.

(** X11: the names under which [createZipFile] stores the files.  For a
    table whose keys are keys of the grid, the names passed to [zip.file] are
    pairwise distinct, [config.json] is none of the tile names (no tile is
    overwritten by the description of the levels), every tile has its entry
    [z/faceName/y/x.jpg], and there is one name more than there are tiles. *)
Theorem zip_entries_distinct {A : Type} (tiles : gmap Server.tileKey A) :
  (forall key, is_Some (tiles !! key) -> gridKey key) ->
  NoDup (zipFileNames tiles) /\
  length (zipFileNames tiles) = S (base.size tiles) /\
  (forall key, is_Some (tiles !! key) ->
     (tilePath key +:+ ".jpg")%string ∈ zipFileNames tiles /\
     (tilePath key +:+ ".jpg")%string <> "config.json"%string) /\
  (forall name, name ∈ zipFileNames tiles ->
     name = "config.json"%string \/
     exists key, is_Some (tiles !! key) /\ name = (tilePath key +:+ ".jpg")%string).
Proof.
  intros Hgrid. unfold zipFileNames.
  assert (Hne : forall key, (tilePath key +:+ ".jpg")%string <> "config.json"%string).
  { intros key Heq. pose proof (tilePath_has_slash key ".jpg") as Hs.
    rewrite Heq in Hs. discriminate Hs. }
  split; [|split; [|split]].
  - apply NoDup_app. split; [|split].
    + apply NoDup_fmap_2_strong; [|apply NoDup_map_to_list].
      intros [k1 a1] [k2 a2] H1 H2 Heq. simpl in Heq.
      apply elem_of_map_to_list in H1, H2. apply append_inj_l in Heq.
      assert (k1 = k2) by (apply tilePath_inj_grid; eauto). subst k2. congruence.
    + intros name Hin Hcfg. apply list_elem_of_fmap in Hin as ([k a] & -> & _).
      apply list_elem_of_singleton in Hcfg. now apply (Hne k).
    + apply NoDup_singleton.
  - rewrite length_app, length_fmap, length_map_to_list. simpl. lia.
  - intros key [a Ha]. split; [|apply Hne].
    apply elem_of_app. left. apply list_elem_of_fmap. exists (key, a).
    split; [reflexivity | now apply elem_of_map_to_list].
  - intros name Hin. apply elem_of_app in Hin as [Hin|Hin].
    + right. apply list_elem_of_fmap in Hin as ([k a] & -> & Hin).
      apply elem_of_map_to_list in Hin. exists k. eauto.
    + left. now apply list_elem_of_singleton in Hin.
Qed.

Lemma zip_entries_distinct_witness :
  NoDup (zipFileNames (<[(0, "r"%string, 0, 0) := 7]> (∅ : gmap Server.tileKey Z))) /\
  "0/r/0/0.jpg"%string
    ∈ zipFileNames (<[(0, "r"%string, 0, 0) := 7]> (∅ : gmap Server.tileKey Z)).
Proof.
  assert (Hkey : gridKey (0, "r"%string, 0, 0)).
  { exists 0, (mkConfig 256 256 (Some true)), 0, 0, 0.
    rewrite tilesPerSide_ceilDiv by (simpl; lia).
    repeat split; try reflexivity; try lia. }
  assert (Hgrid : forall key,
            is_Some ((<[(0, "r"%string, 0, 0) := 7]> (∅ : gmap Server.tileKey Z)) !! key) ->
            gridKey key).
  { intros key [a Ha]. apply lookup_insert_Some in Ha as [[<- _]|[_ Ha]].
    - exact Hkey.
    - now rewrite lookup_empty in Ha. }
  destruct (zip_entries_distinct _ Hgrid) as (Hnodup & _ & Hin & _).
  split; [exact Hnodup|].
  apply (Hin (0, "r"%string, 0, 0)). exists 7. apply lookup_insert_eq.
Defined.

(** ** The preview never finds its tile *)

Lemma frontTileKey_not_grid (maxZoom : number) (key : Server.tileKey) :
  gridKey key -> MarzipanoViewer.frontTileKey maxZoom <> tilePath key.
Proof.
  intros (z & c & face & x & y & _ & _ & Hface & _ & _ & ->) Heq.
  unfold MarzipanoViewer.frontTileKey, tilePath in Heq.
  change "/4/0/0"%string with ("/" +:+ "4" +:+ "/" +:+ "0/0")%string in Heq.
  apply slash_split in Heq as [_ Heq];
    [|apply noSlash_numberToString | apply noSlash_pretty_Z].
  apply slash_split in Heq as [Hname _]; [|reflexivity | apply noSlash_faceNameAt].
  destruct (faceNameAt_letter face Hface) as [H|[H|[H|[H|[H|H]]]]];
    rewrite H in Hname; discriminate Hname.
Qed.

(** ** The client conversion *)

Lemma bindC_inv {A B : Type} (c : completion A) (k : A -> completion B) (b : B) :
  bindC c k = Return b -> exists a, c = Return a /\ k a = Return b.
Proof. destruct c as [a|e]; simpl; [eauto | discriminate]. Qed.

Lemma loop_fromC_post {St : Type} (P : Z -> St -> Prop) (body : Z -> St -> completion St) :
  forall (fuel : nat) (i : Z) (s s' : St),
    P i s ->
    (forall j t t', i <= j < i + Z.of_nat fuel -> P j t -> body j t = Return t' ->
       P (j + 1) t') ->
    loop_fromC fuel i body s = Return s' ->
    P (i + Z.of_nat fuel) s'.
Proof.
  induction fuel as [|k IH]; intros i s s' Hs Hstep Hrun; simpl loop_fromC in Hrun.
  - injection Hrun as <-. now replace (i + Z.of_nat 0) with i by lia.
  - destruct (body i s) as [t|e] eqn:Hbody; [|discriminate].
    replace (i + Z.of_nat (S k)) with ((i + 1) + Z.of_nat k) by lia.
    apply (IH (i + 1) t s'); [| |exact Hrun].
    + apply (Hstep i s t); [lia | exact Hs | exact Hbody].
    + intros j t0 t' Hj. apply Hstep. lia.
Qed.

Lemma for_rangeC_post {St : Type} (P : Z -> St -> Prop) (body : Z -> St -> completion St)
    (n : Z) (s s' : St) :
  for_rangeC n body s = Return s' ->
  0 <= n ->
  P 0 s ->
  (forall j t t', 0 <= j < n -> P j t -> body j t = Return t' -> P (j + 1) t') ->
  P n s'.
Proof.
  intros Hrun Hn Hs Hstep. unfold for_rangeC in Hrun.
  pose proof (loop_fromC_post P body (Z.to_nat n) 0 s s' Hs) as H.
  rewrite Z2Nat.id, Z.add_0_l in H by exact Hn.
  apply H; [|exact Hrun]. intros j t t' Hj. apply Hstep. lia.
Qed.

Lemma madeBefore_step (z face x y : Z) (config : TileConfig) (key : Server.tileKey) :
  let n := Server.tilesPerSide config in
  Server.tileConfigs !! Z.to_nat z = Some config ->
  0 <= z -> 0 <= face < 6 -> 0 <= x < n -> 0 <= y < n ->
  madeBefore z face n (y * n + x + 1) key <->
  key = (z, Server.faceNameAt face, y, x) \/ madeBefore z face n (y * n + x) key.
Proof.
  intros n Hc Hz Hface Hx Hy. split.
  - intros (z' & c' & f' & x' & y' & Hc' & Hz' & Hf' & Hx' & Hy' & Hkey & Hbefore).
    destruct (Z.eq_dec z' z) as [->|Hzne].
    + assert (c' = config) by congruence. subst c'. fold n in Hx', Hy'.
      destruct (Z.eq_dec f' face) as [->|Hfne].
      * destruct (Z.eq_dec (y' * n + x') (y * n + x)) as [Heq|Hne].
        -- left. destruct (row_major_inj n x y x' y' Hx Hx' Heq) as [-> ->]. exact Hkey.
        -- right. exists z, config, face, x', y'. repeat (split; [assumption|]). lia.
      * right. exists z, config, f', x', y'. repeat (split; [assumption|]). lia.
    + right. exists z', c', f', x', y'. repeat (split; [assumption|]). lia.
  - intros [->|Hmade].
    + exists z, config, face, x, y. repeat (split; [assumption || reflexivity|]). lia.
    + apply (madeBefore_mono z face n (y * n + x)); [lia | exact Hmade].
Qed.

Lemma madeBefore_not_yet (z face x y : Z) (config : TileConfig) :
  let n := Server.tilesPerSide config in
  Server.tileConfigs !! Z.to_nat z = Some config ->
  0 <= face < 6 ->
  ~ madeBefore z face n (y * n + x) (z, Server.faceNameAt face, y, x).
Proof.
  intros n Hc Hface
    (z' & c' & f' & x' & y' & Hc' & Hz' & Hf' & Hx' & Hy' & Hkey & Hbefore).
  inversion Hkey as [[Hzz Hname Hyy Hxx]]. subst z' y' x'.
  assert (f' = face) by (symmetry; now apply faceNameAt_inj). lia.
Qed.

Lemma madeBefore_face_end (z face : Z) (config : TileConfig) (key : Server.tileKey) :
  let n := Server.tilesPerSide config in
  Server.tileConfigs !! Z.to_nat z = Some config ->
  madeBefore z (face + 1) n 0 key -> madeBefore z face n (n * n) key.
Proof.
  intros n Hc (z' & c' & f' & x' & y' & Hc' & Hz' & Hf' & Hx' & Hy' & Hkey & Hbefore).
  exists z', c', f', x', y'. repeat (split; [assumption|]).
  destruct (Z.eq_dec z' z) as [->|Hzne]; [|lia].
  assert (c' = config) by congruence. subst c'. fold n in Hx', Hy'.
  assert (Hlin : 0 <= y' * n + x' < n * n) by nia.
  destruct (Z.eq_dec f' face) as [->|Hfne]; lia.
Qed.

Lemma madeBefore_level_end (z n : Z) (key : Server.tileKey) :
  madeBefore (z + 1) 0 0 0 key -> madeBefore z 6 n 0 key.
Proof.
  intros (z' & c' & f' & x' & y' & Hc' & Hz' & Hf' & Hx' & Hy' & Hkey & Hbefore).
  exists z', c', f', x', y'. repeat (split; [assumption|]). lia.
Qed.

Lemma madeBefore_level_start (z n : Z) (key : Server.tileKey) :
  0 <= n -> madeBefore z 0 0 0 key <-> madeBefore z 0 n 0 key.
Proof.
  intros Hn.
  split; intros (z' & c' & f' & x' & y' & Hc' & Hz' & Hf' & Hx' & Hy' & Hkey & Hbefore);
    exists z', c', f', x', y'; repeat (split; [assumption|]).
  - lia.
  - assert (0 <= y' * n + x') by nia. lia.
Qed.

Lemma gridKey_madeBefore (n : Z) (key : Server.tileKey) :
  gridKey key -> madeBefore 4 0 n 0 key.
Proof.
  intros (z & c & f & x & y & Hc & Hz & Hf & Hx & Hy & Hkey).
  exists z, c, f, x, y. repeat (split; [assumption|]).
  assert (Z.to_nat z < length Server.tileConfigs)%nat by (apply lookup_lt_is_Some; eauto).
  change (length Server.tileConfigs) with 4%nat in *. lia.
Qed.

Lemma progress_report (count : Z) (reports : list number) (onProgress : bool) :
  0 <= count ->
  reports = (if onProgress then progressValue <$> seqZ 1 count else []) ->
  PanoramaConverter.report onProgress (count + 1) 132 reports
  = (if onProgress then progressValue <$> seqZ 1 (count + 1) else []).
Proof.
  intros Hcount ->. unfold PanoramaConverter.report.
  destruct onProgress; [|reflexivity].
  rewrite (seqZ_app 1 count 1) by lia.
  rewrite fmap_app. f_equal.
  rewrite seqZ_cons, seqZ_nil by lia.
  unfold nmul, ndiv, lift2, fin, progressValue.
  destruct (Req_dec_T (IZR 132) 0) as [H0|_]; [apply eq_IZR in H0; discriminate|].
  simpl. now rewrite Z.add_comm.
Qed.

Section ClientConversion.

Variable toDataURL : buffer -> Z -> Z -> Z -> Z -> Z -> completion string.
Variable createZipFile : gmap Server.tileKey string -> completion string.

Lemma client_configAt (z : Z) (config : TileConfig) :
  PanoramaConverter.configAt z = Return config ->
  Server.tileConfigs !! Z.to_nat z = Some config.
Proof.
  unfold PanoramaConverter.configAt.
  change Client.tileConfigs with Server.tileConfigs.
  destruct (Server.tileConfigs !! Z.to_nat z) as [c|]; [|discriminate].
  now intros [= ->].
Qed.

Lemma client_countTiles : PanoramaConverter.countTiles 3 = Return 132.
Proof.
  unfold PanoramaConverter.countTiles.
  destruct (for_rangeC_inv (fun z t => t = tilesBefore z)
              (fun z totalTiles =>
                 bindC (PanoramaConverter.configAt z) (fun config =>
                   Return (totalTiles + 6 * Server.tilesPerSide config
                                          * Server.tilesPerSide config)))
              (3 + 1) 0) as (t & Hrun & Ht); [lia | reflexivity | |].
  - intros z t Hz ->.
    destruct (lookup_lt_is_Some_2 Server.tileConfigs (Z.to_nat z)) as [config Hc];
      [simpl; lia|].
    exists (tilesBefore z + 6 * Server.tilesPerSide config * Server.tilesPerSide config).
    split; [|now rewrite (tilesBefore_succ z config) by (lia || exact Hc)].
    unfold PanoramaConverter.configAt. change Client.tileConfigs with Server.tileConfigs.
    now rewrite Hc.
  - rewrite Hrun, Ht. f_equal. exact tilesBefore_all.
Qed.

Lemma client_tileStep (onProgress : bool) (fd : buffer) (config : TileConfig)
    (z face x y count : Z) (st st' : PanoramaConverter.State) :
  let n := Server.tilesPerSide config in
  Server.tileConfigs !! Z.to_nat z = Some config ->
  0 <= z -> 0 <= face < 6 -> 0 <= x < n -> 0 <= y < n ->
  clientInv onProgress z face n (y * n + x) count st ->
  PanoramaConverter.tileStep toDataURL onProgress 132 fd config (size config) z
    (Server.faceNameAt face) y x st = Return st' ->
  clientInv onProgress z face n (y * n + x + 1) (count + 1) st'.
Proof.
  intros n. subst n. intros Hc Hz Hface Hx Hy (Hkeys & Hsize & Hdone & Hreports) Hstep.
  unfold PanoramaConverter.tileStep in Hstep.
  apply bindC_inv in Hstep as (dataUrl & _ & Hret). injection Hret as <-.
  assert (Hnew : PanoramaConverter.st_tiles st !! (z, Server.faceNameAt face, y, x) = None).
  { apply eq_None_not_Some. intros Hsome. apply Hkeys in Hsome.
    exact (madeBefore_not_yet z face x y config Hc Hface Hsome). }
  split; [|split; [|split]]; cbn [PanoramaConverter.st_tiles
    PanoramaConverter.st_processedTiles PanoramaConverter.st_reports].
  - intros key. rewrite (madeBefore_step z face x y config key Hc Hz Hface Hx Hy).
    rewrite lookup_insert_is_Some, <- Hkeys.
    destruct (decide ((z, Server.faceNameAt face, y, x) = key)) as [Heq|Hne].
    + split; intros _; left; congruence.
    + split; (intros [Heq|H]; [congruence|]); [right; tauto | right; auto].
  - rewrite map_size_insert_None by exact Hnew. lia.
  - lia.
  - rewrite Hdone. apply progress_report; [lia | exact Hreports].
Qed.

Lemma client_generateTiles_unfold (onProgress : bool) (totalTiles : Z)
    (img : ImageBitmap) (maxZoom : Z) :
  PanoramaConverter.generateTiles toDataURL onProgress totalTiles img maxZoom
  = for_rangeC (maxZoom + 1) (fun z st =>
      bindC (PanoramaConverter.configAt z) (fun config =>
        for_rangeC 6 (fun face st =>
          bindC (Client.generateCubeFace img face (size config)) (fun faceCanvas =>
            for_rangeC (Server.tilesPerSide config) (fun y st =>
              for_rangeC (Server.tilesPerSide config) (fun x st =>
                PanoramaConverter.tileStep toDataURL onProgress totalTiles faceCanvas
                  config (size config) z (Server.faceNameAt face) y x st)
                st)
              st))
          st))
      (PanoramaConverter.mkState ∅ 0 []).
Proof. reflexivity. Qed.

Lemma client_generateTiles_post (onProgress : bool) (img : ImageBitmap)
    (st : PanoramaConverter.State) :
  PanoramaConverter.generateTiles toDataURL onProgress 132 img 3 = Return st ->
  clientInv onProgress 4 0 0 0 132 st.
Proof.
  intros Hrun. rewrite client_generateTiles_unfold in Hrun.
  rewrite <- tilesBefore_all. change 4 with (3 + 1).
  apply (for_rangeC_post (fun z st => clientInv onProgress z 0 0 0 (tilesBefore z) st)
           _ _ _ _ Hrun); [lia | |].
  - split; [|split; [reflexivity | split; [reflexivity|]]].
    + intros key. cbn [PanoramaConverter.st_tiles]. rewrite lookup_empty. split.
      * intros [a Ha]. discriminate Ha.
      * intros (z' & c' & f' & x' & y' & _ & Hz' & Hf' & Hx' & _ & _ & Hbefore). lia.
    + cbn [PanoramaConverter.st_reports]. now destruct onProgress.
  - intros z s0 s1 Hz Hinv Hlevel.
    apply bindC_inv in Hlevel as (config & Hcfg & Hfaces).
    apply client_configAt in Hcfg as Hc.
    rewrite (tilesBefore_succ z config ltac:(lia) Hc).
    destruct (tilesPerSide_nonneg z config Hc) as [Hn _].
    set (n := Server.tilesPerSide config) in *.
    assert (H6 : clientInv onProgress z 6 n 0 (tilesBefore z + 6 * (n * n)) s1).
    { apply (for_rangeC_post
               (fun face st => clientInv onProgress z face n 0
                                 (tilesBefore z + face * (n * n)) st)
               _ _ _ _ Hfaces); [lia | |].
      - rewrite Z.mul_0_l, Z.add_0_r.
        destruct Hinv as (Hkeys & Hrest). split; [|exact Hrest].
        intros key. rewrite Hkeys. now apply madeBefore_level_start.
      - intros face s2 s3 Hface Hs2 Hstep.
        apply bindC_inv in Hstep as (fd & _ & Hslice).
        assert (Hend : clientInv onProgress z face n (n * n)
                         (tilesBefore z + face * (n * n) + n * n) s3).
        { apply (for_rangeC_post
                   (fun y st => clientInv onProgress z face n (y * n)
                                  (tilesBefore z + face * (n * n) + y * n) st)
                   _ _ _ _ Hslice Hn).
          - now rewrite Z.mul_0_l, Z.add_0_r.
          - intros y s4 s5 Hy Hs4 Hrow.
            replace ((y + 1) * n) with (y * n + n) by lia. rewrite Z.add_assoc.
            apply (for_rangeC_post
                     (fun x st => clientInv onProgress z face n (y * n + x)
                                    (tilesBefore z + face * (n * n) + y * n + x) st)
                     _ _ _ _ Hrow Hn).
            + now rewrite !Z.add_0_r.
            + intros x s6 s7 Hx Hs6 Htile. rewrite !Z.add_assoc.
              exact (client_tileStep onProgress fd config z face x y _ s6 s7
                       Hc ltac:(lia) Hface Hx Hy Hs6 Htile). }
        destruct Hend as (Hkeys & Hrest).
        replace (tilesBefore z + (face + 1) * (n * n))
          with (tilesBefore z + face * (n * n) + n * n) by lia.
        split; [|exact Hrest].
        intros key. rewrite Hkeys. split.
        + apply madeBefore_next_face.
        + apply (madeBefore_face_end z face config key Hc). }
    destruct H6 as (Hkeys & Hrest).
    replace (tilesBefore z + 6 * n * n) with (tilesBefore z + 6 * (n * n)) by lia.
    split; [|exact Hrest].
    intros key. rewrite Hkeys. split.
    + apply madeBefore_next_level.
    + apply madeBefore_level_end.
Qed.

Lemma client_processImage_inv (img : ImageBitmap) (onProgress : bool)
    (data : PanoramaConverter.CubemapData) (reports : list number) :
  PanoramaConverter.processImage toDataURL createZipFile img onProgress
    = Return (data, reports) ->
  exists st,
    PanoramaConverter.generateTiles toDataURL onProgress 132 img 3 = Return st /\
    createZipFile (PanoramaConverter.st_tiles st) = Return (PanoramaConverter.zipUrl data) /\
    data = PanoramaConverter.mkCubemap (PanoramaConverter.st_tiles st)
             (PanoramaConverter.zipUrl data) 132 4 3 Client.tileConfigs /\
    reports = PanoramaConverter.st_reports st.
Proof.
  unfold PanoramaConverter.processImage.
  change (Z.of_nat (length Client.tileConfigs) - 1) with 3.
  rewrite client_countTiles. cbn [bindC].
  intros Hrun.
  apply bindC_inv in Hrun as (st & Hst & Hrun).
  apply bindC_inv in Hrun as (url & Hurl & Hret).
  injection Hret as <- <-.
  exists st. cbn [PanoramaConverter.zipUrl]. auto.
Qed.

Lemma client_processImage_returns (img : ImageBitmap) (onProgress : bool) :
  (forall fd sx sy sw sh ts, exists url, toDataURL fd sx sy sw sh ts = Return url) ->
  (forall tiles, exists url, createZipFile tiles = Return url) ->
  exists data reports,
    PanoramaConverter.processImage toDataURL createZipFile img onProgress
      = Return (data, reports).
Proof.
  intros Hurl Hzip.
  unfold PanoramaConverter.processImage.
  change (Z.of_nat (length Client.tileConfigs) - 1) with 3.
  rewrite client_countTiles. cbn [bindC].
  rewrite client_generateTiles_unfold.
  destruct (for_rangeC_inv (fun _ (_ : PanoramaConverter.State) => True)
              (fun z st =>
                 bindC (PanoramaConverter.configAt z) (fun config =>
                   for_rangeC 6 (fun face st =>
                     bindC (Client.generateCubeFace img face (size config))
                       (fun faceCanvas =>
                          for_rangeC (Server.tilesPerSide config) (fun y st =>
                            for_rangeC (Server.tilesPerSide config) (fun x st =>
                              PanoramaConverter.tileStep toDataURL onProgress 132
                                faceCanvas config (size config) z
                                (Server.faceNameAt face) y x st)
                              st)
                            st))
                     st))
              (3 + 1) (PanoramaConverter.mkState ∅ 0 []))
    as (st & Hst & _); [lia | exact I | |].
  - intros z s0 Hz _.
    destruct (lookup_lt_is_Some_2 Server.tileConfigs (Z.to_nat z)) as [config Hc];
      [simpl; lia|].
    destruct (tilesPerSide_nonneg z config Hc) as [Hn Hs].
    unfold PanoramaConverter.configAt at 1.
    change Client.tileConfigs with Server.tileConfigs. rewrite Hc. cbn [bindC].
    destruct (for_rangeC_inv (fun _ (_ : PanoramaConverter.State) => True)
                (fun face st =>
                   bindC (Client.generateCubeFace img face (size config))
                     (fun faceCanvas =>
                        for_rangeC (Server.tilesPerSide config) (fun y st =>
                          for_rangeC (Server.tilesPerSide config) (fun x st =>
                            PanoramaConverter.tileStep toDataURL onProgress 132
                              faceCanvas config (size config) z
                              (Server.faceNameAt face) y x st)
                            st)
                          st))
                6 s0) as (s1 & Hs1 & _); [lia | exact I | | eauto].
    intros face s2 Hface _.
    destruct (generateCubeFace_pixels img face (size config) Hs) as (fd & Hfd & _).
    change (Client.generateCubeFace img face (size config))
      with (Server.generateCubeFace img face (size config)).
    rewrite Hfd. cbn [bindC].
    destruct (for_rangeC_inv (fun _ (_ : PanoramaConverter.State) => True)
                (fun y st =>
                   for_rangeC (Server.tilesPerSide config) (fun x st =>
                     PanoramaConverter.tileStep toDataURL onProgress 132
                       fd config (size config) z (Server.faceNameAt face) y x st)
                     st)
                (Server.tilesPerSide config) s2) as (s3 & Hs3 & _);
      [exact Hn | exact I | | eauto].
    intros y s4 Hy _.
    destruct (for_rangeC_inv (fun _ (_ : PanoramaConverter.State) => True)
                (fun x st =>
                   PanoramaConverter.tileStep toDataURL onProgress 132
                     fd config (size config) z (Server.faceNameAt face) y x st)
                (Server.tilesPerSide config) s4) as (s5 & Hs5 & _);
      [exact Hn | exact I | | eauto].
    intros x s6 Hx _. unfold PanoramaConverter.tileStep.
    destruct (Hurl fd (x * tileSize config) (y * tileSize config)
                (Z.min (tileSize config) (size config - x * tileSize config))
                (Z.min (tileSize config) (size config - y * tileSize config))
                (tileSize config)) as [url ->].
    cbn [bindC]. eauto.
  - rewrite Hst. cbn [bindC].
    destruct (Hzip (PanoramaConverter.st_tiles st)) as [url ->]. cbn [bindC]. eauto.
Qed.

End ClientConversion.

Lemma gridKey_front_tile : gridKey (1, "f"%string, 0, 0).
Proof.
  exists 1, (mkConfig 512 512 None), 4, 0, 0.
  rewrite tilesPerSide_ceilDiv by (simpl; lia).
  repeat split; try reflexivity; try lia.
Qed.

(** What a client conversion that returns has computed. *)
Lemma client_processImage_post
    (toDataURL : buffer -> Z -> Z -> Z -> Z -> Z -> completion string)
    (createZipFile : gmap Server.tileKey string -> completion string)
    (img : ImageBitmap) (onProgress : bool)
    (data : PanoramaConverter.CubemapData) (reports : list number) :
  PanoramaConverter.processImage toDataURL createZipFile img onProgress
    = Return (data, reports) ->
  data = PanoramaConverter.mkCubemap (PanoramaConverter.tiles data)
           (PanoramaConverter.zipUrl data) 132 4 3 Client.tileConfigs /\
  createZipFile (PanoramaConverter.tiles data) = Return (PanoramaConverter.zipUrl data) /\
  (forall key, is_Some (PanoramaConverter.tiles data !! key) <-> gridKey key) /\
  Z.of_nat (base.size (PanoramaConverter.tiles data)) = 132 /\
  reports = (if onProgress then progressValue <$> seqZ 1 132 else []).
Proof.
  intros Hrun.
  apply client_processImage_inv in Hrun as (st & Hst & Hzip & Hdata & Hreports).
  apply client_generateTiles_post in Hst as (Hkeys & Hsize & _ & Hlog).
  rewrite Hdata. cbn [PanoramaConverter.tiles PanoramaConverter.zipUrl].
  split; [reflexivity|]. split; [exact Hzip|]. split; [|split; [exact Hsize | congruence]].
  intros key. rewrite Hkeys. split.
  - apply madeBefore_gridKey.
  - apply gridKey_madeBefore.
Qed.

(** X12: the object that a client conversion returns.  Whenever
    [processImage] returns, it reports 132 tiles, 4 zoom levels, maximum zoom
    3 and the level table; its tile table holds a data URL under a key exactly
    when the key is a key of the grid, and so holds as many tiles as the
    reported [totalTiles]: the count of the first loop and the work of the
    second agree. *)
Theorem client_conversion_table
    (toDataURL : buffer -> Z -> Z -> Z -> Z -> Z -> completion string)
    (createZipFile : gmap Server.tileKey string -> completion string)
    (img : ImageBitmap) (onProgress : bool)
    (data : PanoramaConverter.CubemapData) (reports : list number) :
  PanoramaConverter.processImage toDataURL createZipFile img onProgress
    = Return (data, reports) ->
  PanoramaConverter.totalTiles data = 132 /\
  PanoramaConverter.zoomLevels data = 4 /\
  PanoramaConverter.maxZoom data = 3 /\
  PanoramaConverter.tileConfigs data = Client.tileConfigs /\
  createZipFile (PanoramaConverter.tiles data) = Return (PanoramaConverter.zipUrl data) /\
  (forall key, is_Some (PanoramaConverter.tiles data !! key) <-> gridKey key) /\
  Z.of_nat (base.size (PanoramaConverter.tiles data)) = PanoramaConverter.totalTiles data.
Proof.
  intros Hrun.
  apply client_processImage_post in Hrun as (Hdata & Hzip & Hkeys & Hsize & _).
  rewrite Hdata at 1 2 3 4 8.
  cbn [PanoramaConverter.totalTiles PanoramaConverter.zoomLevels
    PanoramaConverter.maxZoom PanoramaConverter.tileConfigs].
  repeat (split; [reflexivity || assumption|]). exact Hsize.
Qed.

Lemma client_conversion_table_witness :
  exists data reports,
    PanoramaConverter.processImage anyDataURL anyZipUrl flat42 true = Return (data, reports) /\
    PanoramaConverter.totalTiles data = 132 /\
    is_Some (PanoramaConverter.tiles data !! (1, "f"%string, 0, 0)).
Proof.
  destruct (client_processImage_returns anyDataURL anyZipUrl flat42 true)
    as (data & reports & Hrun).
  - intros fd sx sy sw sh ts. eexists. reflexivity.
  - intros tiles. eexists. reflexivity.
  - exists data, reports. split; [exact Hrun|].
    destruct (client_conversion_table anyDataURL anyZipUrl flat42 true data reports Hrun)
      as (Htotal & _ & _ & _ & _ & Hkeys & _).
    split; [exact Htotal|]. apply Hkeys. exact gridKey_front_tile.
Defined.

Lemma progressValue_lookup (i : nat) (a : R) :
  (progressValue <$> seqZ 1 132) !! i = Some (fin a) ->
  (Z.of_nat i < 132) /\ a = (IZR (1 + Z.of_nat i) / 132 * 100)%R.
Proof.
  rewrite list_lookup_fmap. intros Hi.
  destruct (seqZ 1 132 !! i) as [k|] eqn:Hk; [|discriminate].
  apply lookup_seqZ in Hk as [-> Hlt]. injection Hi as <-. auto.
Qed.

(** X13: the progress that a client conversion reports.  With a
    callback, a conversion that returns has called it once after each of the
    132 tiles, with [k / 132 * 100] after tile [k]: the values are positive,
    strictly increasing and end at exactly 100.  Without a callback nothing
    is reported. *)
Theorem client_progress_reports
    (toDataURL : buffer -> Z -> Z -> Z -> Z -> Z -> completion string)
    (createZipFile : gmap Server.tileKey string -> completion string)
    (img : ImageBitmap) (onProgress : bool)
    (data : PanoramaConverter.CubemapData) (reports : list number) :
  PanoramaConverter.processImage toDataURL createZipFile img onProgress
    = Return (data, reports) ->
  reports = (if onProgress then progressValue <$> seqZ 1 132 else []) /\
  (onProgress = true ->
     length reports = 132%nat /\
     last reports = Some (fin 100) /\
     forall i a b, reports !! i = Some (fin a) -> reports !! S i = Some (fin b) ->
       (0 < a < b /\ b <= 100)%R).
Proof.
  intros Hrun.
  apply client_processImage_post in Hrun as (_ & _ & _ & _ & ->).
  split; [reflexivity|].
  intros ->. split; [|split].
  - now rewrite length_fmap, length_seqZ.
  - assert (Hs : seqZ 1 (131 + 1) = seqZ 1 131 ++ [132]).
    { rewrite seqZ_app by lia. reflexivity. }
    change (131 + 1) with 132 in Hs.
    rewrite Hs, fmap_app.
    change (progressValue <$> [132]) with [progressValue 132].
    rewrite last_snoc. unfold progressValue, fin. do 2 f_equal. lra.
  - intros i a b Ha Hb.
    apply progressValue_lookup in Ha as [Hi ->].
    apply progressValue_lookup in Hb as [HSi ->].
    rewrite Nat2Z.inj_succ in *.
    assert (H1 : (1 <= IZR (1 + Z.of_nat i))%R) by (apply (IZR_le 1); lia).
    assert (H2 : (IZR (1 + Z.succ (Z.of_nat i)) = IZR (1 + Z.of_nat i) + 1)%R).
    { rewrite <- (plus_IZR _ 1). f_equal. lia. }
    assert (H3 : (IZR (1 + Z.succ (Z.of_nat i)) <= 132)%R) by (apply (IZR_le _ 132); lia).
    rewrite H2 in *. lra.
Qed.

Lemma client_progress_reports_witness :
  exists data reports,
    PanoramaConverter.processImage anyDataURL anyZipUrl flat42 true = Return (data, reports) /\
    last reports = Some (fin 100).
Proof.
  destruct (client_processImage_returns anyDataURL anyZipUrl flat42 true)
    as (data & reports & Hrun).
  - intros fd sx sy sw sh ts. eexists. reflexivity.
  - intros tiles. eexists. reflexivity.
  - exists data, reports. split; [exact Hrun|].
    destruct (client_progress_reports anyDataURL anyZipUrl flat42 true data reports Hrun)
      as (_ & Hlast).
    exact (proj1 (proj2 (Hlast eq_refl))).
Defined.

(** X14: the preview never finds its tile.  [MarzipanoViewer] looks up
    the key [floor(maxZoom / 2)/4/0/0], whose face field is the number 4,
    in the tile table of the client conversion, whose keys carry the face
    letters: for every returned conversion the lookup is [undefined], for the
    returned [maxZoom] and for any other, so no image is drawn; the front
    tile of level 1 is in the table, under the letter [f]. *)
Theorem preview_never_finds_tile
    (toDataURL : buffer -> Z -> Z -> Z -> Z -> Z -> completion string)
    (createZipFile : gmap Server.tileKey string -> completion string)
    (img : ImageBitmap) (onProgress : bool)
    (data : PanoramaConverter.CubemapData) (reports : list number) :
  PanoramaConverter.processImage toDataURL createZipFile img onProgress
    = Return (data, reports) ->
  MarzipanoViewer.frontTileKey (fin (IZR (PanoramaConverter.maxZoom data))) = "1/4/0/0"%string /\
  (forall maxZoom,
     MarzipanoViewer.tileData (printed (PanoramaConverter.tiles data)) maxZoom = None) /\
  is_Some (printed (PanoramaConverter.tiles data) !! "1/f/0/0"%string).
Proof.
  intros Hrun.
  apply client_processImage_post in Hrun as (Hdata & _ & Hkeys & _ & _).
  assert (Hmax : PanoramaConverter.maxZoom data = 3) by now rewrite Hdata.
  assert (Hgrid : forall key,
            is_Some (PanoramaConverter.tiles data !! key) -> gridKey key)
    by (intros key; apply Hkeys).
  split; [|split].
  - rewrite Hmax. unfold MarzipanoViewer.frontTileKey, ndiv, fin.
    destruct (Req_dec_T 2 0) as [H0|_]; [lra|].
    unfold Math_floor, option_map, numberToString.
    replace (Zfloor (3 / 2)) with 1; [reflexivity|].
    symmetry. apply Zfloor_eq. change (IZR 1) with 1%R. lra.
  - intros maxZoom. unfold MarzipanoViewer.tileData.
    apply eq_None_not_Some. intros Hsome.
    apply (printed_only _ _) in Hsome as (key & Heq & Hkey).
    exact (frontTileKey_not_grid maxZoom key (Hgrid key Hkey) Heq).
  - change "1/f/0/0"%string with (tilePath (1, "f"%string, 0, 0)).
    rewrite (printed_lookup _ Hgrid _ gridKey_front_tile).
    apply Hkeys. exact gridKey_front_tile.
Qed.

Lemma preview_never_finds_tile_witness :
  exists data reports,
    PanoramaConverter.processImage anyDataURL anyZipUrl flat42 true = Return (data, reports) /\
    MarzipanoViewer.tileData (printed (PanoramaConverter.tiles data)) (fin 3) = None.
Proof.
  destruct (client_processImage_returns anyDataURL anyZipUrl flat42 true)
    as (data & reports & Hrun).
  - intros fd sx sy sw sh ts. eexists. reflexivity.
  - intros tiles. eexists. reflexivity.
  - exists data, reports. split; [exact Hrun|].
    destruct (preview_never_finds_tile anyDataURL anyZipUrl flat42 true data reports Hrun)
      as (_ & Hnone & _).
    apply Hnone.
Defined.

(** ** The route handler *)

Lemma bindP_inv {A B : Type} (m : Route.P A) (k : A -> Route.P B) (h h' : history) (b : B) :
  Route.bindP m k h = (Route.Fulfilled b, h') ->
  exists a g, m h = (Route.Fulfilled a, g) /\ k a g = (Route.Fulfilled b, h').
Proof.
  unfold Route.bindP. destruct (m h) as [[a|t] g]; [eauto | discriminate].
Qed.

Lemma liftP_inv {A : Type} (o : Route.outcome A) (h h' : history) (a : A) :
  Route.liftP o h = (Route.Fulfilled a, h') -> o = Route.Fulfilled a /\ h' = h.
Proof. unfold Route.liftP. intros [= -> ->]. auto. Qed.

Section RouteHandler.

Context {Blob Zip Bytes : Type}.
Variable env : Route.Env Bytes.
Variable processImage : ImageBitmap -> M (Server.Result (Zip := Zip)).

Lemma ofM_inv {A : Type} (m : M A) (h h' : history) (a : A) :
  Route.ofM env m h = (Route.Fulfilled a, h') -> m h = (Return a, h').
Proof.
  unfold Route.ofM. destruct (m h) as [[x|e] g]; [|discriminate].
  now intros [= -> ->].
Qed.

Lemma convertFromUrlWith_inv (url : Route.json) (h h' : history)
    (r : Server.Result (Zip := Zip)) :
  Route.convertFromUrlWith env processImage url h = (Route.Fulfilled r, h') ->
  exists img, fetched env url img /\ processImage img h = (Return r, h').
Proof.
  unfold Route.convertFromUrlWith. intros Hrun.
  apply bindP_inv in Hrun as (response & g & Hfetch & Hrun).
  apply liftP_inv in Hfetch as [Hfetch ->].
  destruct (Route.ok response) eqn:Hok; [|discriminate]. cbn [negb] in Hrun.
  apply bindP_inv in Hrun as (bytes & g & Hbuf & Hrun).
  apply liftP_inv in Hbuf as [Hbuf ->].
  destruct (Route.hasOffscreenCanvas env) eqn:Hcanvas; [|discriminate]. cbn [negb] in Hrun.
  apply bindP_inv in Hrun as (img & g & Himg & Hrun).
  apply liftP_inv in Himg as [Himg ->].
  destruct (Route.has2dContext env) eqn:Hctx; [|discriminate]. cbn [negb] in Hrun.
  apply ofM_inv in Hrun.
  exists img. split; [|exact Hrun]. exists response, bytes. auto 10.
Qed.

Lemma convertFromUrlWith_fetched (url : Route.json) (img : ImageBitmap) (h : history) :
  fetched env url img ->
  Route.convertFromUrlWith env processImage url h = Route.ofM env (processImage img) h.
Proof.
  intros (response & bytes & Hfetch & Hok & Hbuf & Hcanvas & Himg & Hctx).
  unfold Route.convertFromUrlWith, Route.bindP, Route.liftP.
  now rewrite Hfetch, Hok, Hbuf, Hcanvas, Himg, Hctx.
Qed.

Lemma convertFromUrlV0With_fetched (url : Route.json) (img : ImageBitmap) (h : history) :
  fetched env url img ->
  Route.convertFromUrlV0With env processImage url h = Route.ofM env (processImage img) h.
Proof.
  intros (response & bytes & Hfetch & Hok & Hbuf & Hcanvas & Himg & Hctx).
  unfold Route.convertFromUrlV0With, Route.try_catchP, Route.bindP, Route.liftP.
  rewrite Hfetch, Hok, Hbuf, Hcanvas, Hctx, Himg. cbn [negb].
  unfold Route.failP. now destruct (Route.ofM env (processImage img) h) as [[r|t] g].
Qed.

Lemma convertFromUrlV0With_inv (url : Route.json) (h h' : history)
    (r : Server.Result (Zip := Zip)) :
  Route.convertFromUrlV0With env processImage url h = (Route.Fulfilled r, h') ->
  exists img, fetched env url img /\ processImage img h = (Return r, h').
Proof.
  unfold Route.convertFromUrlV0With, Route.try_catchP at 1. intros Hrun.
  match type of Hrun with
  | match ?m with _ => _ end = _ => destruct m as [[r0|t] g] eqn:Hinner
  end; [|discriminate].
  injection Hrun as -> ->.
  apply bindP_inv in Hinner as (response & g & Hfetch & Hrun).
  apply liftP_inv in Hfetch as [Hfetch ->].
  destruct (Route.ok response) eqn:Hok; [|discriminate]. cbn [negb] in Hrun.
  apply bindP_inv in Hrun as (bytes & g & Hbuf & Hrun).
  apply liftP_inv in Hbuf as [Hbuf ->].
  destruct (Route.hasOffscreenCanvas env) eqn:Hcanvas; [|discriminate]. cbn [negb] in Hrun.
  destruct (Route.has2dContext env) eqn:Hctx; [|discriminate]. cbn [negb] in Hrun.
  apply bindP_inv in Hrun as (img & g & Himg & Hrun).
  unfold Route.try_catchP, Route.liftP in Himg.
  destruct (Route.createImageBitmap env bytes) as [img0|t] eqn:Hbitmap; [|discriminate].
  injection Himg as -> ->.
  apply ofM_inv in Hrun.
  exists img. split; [|exact Hrun]. exists response, bytes. auto 10.
Qed.

Variable convertFromUrl : Route.json -> Route.P (Server.Result (Zip := Zip)).

Lemma POST_refused (request : Route.outcome Route.json) (resp : Route.Response Zip)
    (h : history) :
  refused env request resp ->
  Route.POSTWith env convertFromUrl request h = (Route.Fulfilled resp, h) /\
  Route.POSTV0With env convertFromUrl request h = (Route.Fulfilled resp, h).
Proof.
  intros (body & imageUrl & -> & Hd & Hcase).
  unfold Route.POSTWith, Route.POSTV0With, Route.try_catchP, Route.bindP, Route.liftP,
    Route.retP.
  rewrite Hd.
  destruct Hcase as [[-> [-> | (url & -> & Ht)]] | [-> (url & -> & Ht & Hv)]].
  - auto.
  - rewrite Ht. auto.
  - rewrite Ht, Hv. auto.
Qed.

Lemma POST_accepted (request : Route.outcome Route.json) (url : Route.json) (h : history) :
  accepted env request url ->
  Route.POSTWith env convertFromUrl request h
  = match convertFromUrl url h with
    | (Route.Fulfilled r, h') => (Route.Fulfilled (Route.okResponse r), h')
    | (Route.Rejected t, h') => (Route.Fulfilled failedResponse, h')
    end /\
  Route.POSTV0With env convertFromUrl request h
  = match convertFromUrl url h with
    | (Route.Fulfilled r, h') => (Route.Fulfilled (Route.okResponse r), h')
    | (Route.Rejected t, h') =>
        (Route.Fulfilled
           (Route.jsonResponse
              [("error", "Failed to convert panorama image");
               ("details", Route.messageOr "Unknown error occurred" t)]%string 500), h')
    end.
Proof.
  intros (body & -> & Hd & Ht & Hv).
  unfold Route.POSTWith, Route.POSTV0With, Route.try_catchP, Route.bindP, Route.liftP,
    Route.retP.
  rewrite Hd, Ht, Hv. cbn [negb].
  destruct (convertFromUrl url h) as [[r|t] h']; auto.
Qed.

(** What the request is to the handler: refused by a check, accepted
    with an image URL, or neither (the body is not JSON or is [null]). *)
Lemma request_cases (request : Route.outcome Route.json) :
  (exists resp : Route.Response Zip, refused env request resp) \/
  (exists url, accepted env request url) \/
  ((exists t, request = Route.Rejected t) \/
   (exists body t, request = Route.Fulfilled body /\
      Route.destructure env body = Route.Rejected t)).
Proof.
  destruct request as [body|t]; [|right; right; left; eauto].
  destruct (Route.destructure env body) as [imageUrl|t] eqn:Hd;
    [|right; right; right; eauto].
  destruct imageUrl as [url|].
  2:{ left. eexists. exists body, None. repeat split; eauto. }
  destruct (Route.truthy url) eqn:Ht.
  2:{ left. eexists. exists body, (Some url). repeat split; eauto 10. }
  destruct (Route.urlValid env url) eqn:Hv.
  - right. left. exists url, body. auto.
  - left. eexists. exists body, (Some url). split; [reflexivity|].
    split; [exact Hd|]. right. eauto 10.
Qed.

Lemma POST_unparsed (t : Route.thrown) (h : history) :
  Route.POSTWith env convertFromUrl (Route.Rejected t) h
    = (Route.Fulfilled failedResponse, h) /\
  Route.POSTV0With env convertFromUrl (Route.Rejected t) h
    = (Route.Fulfilled
         (Route.jsonResponse [("error", "Invalid JSON in request body")]%string 400), h).
Proof. split; reflexivity. Qed.

Lemma POST_undestructured (body : Route.json) (t : Route.thrown) (h : history) :
  Route.destructure env body = Route.Rejected t ->
  Route.POSTWith env convertFromUrl (Route.Fulfilled body) h
    = (Route.Fulfilled failedResponse, h) /\
  Route.POSTV0With env convertFromUrl (Route.Fulfilled body) h
    = (Route.Fulfilled
         (Route.jsonResponse
            [("error", "Failed to convert panorama image");
             ("details", Route.messageOr "Unknown error occurred" t)]%string 500), h).
Proof.
  intros Hd.
  unfold Route.POSTWith, Route.POSTV0With, Route.try_catchP, Route.bindP, Route.liftP,
    Route.retP.
  rewrite Hd. auto.
Qed.

Lemma refused_status (request : Route.outcome Route.json) (resp : Route.Response Zip) :
  refused env request resp -> Route.res_status resp = 400.
Proof.
  intros (body & imageUrl & _ & _ & [[-> _]|[-> _]]); reflexivity.
Qed.

(** Both handlers are always fulfilled, with status 200, 400 or 500. *)
Lemma POSTWith_responds (request : Route.outcome Route.json) (h : history) :
  (exists resp h',
     Route.POSTWith env convertFromUrl request h = (Route.Fulfilled resp, h') /\
     (Route.res_status resp = 200 \/ Route.res_status resp = 400 \/
      Route.res_status resp = 500)) /\
  (exists resp h',
     Route.POSTV0With env convertFromUrl request h = (Route.Fulfilled resp, h') /\
     (Route.res_status resp = 200 \/ Route.res_status resp = 400 \/
      Route.res_status resp = 500)).
Proof.
  destruct (request_cases request) as [[resp Hr]|[[url Ha]|[[t ->]|(body & t & -> & Hd)]]].
  - destruct (POST_refused request resp h Hr) as [H1 H2].
    pose proof (refused_status request resp Hr) as Hs.
    split; exists resp, h; auto.
  - destruct (POST_accepted request url h Ha) as [H1 H2]. rewrite H1, H2.
    destruct (convertFromUrl url h) as [[r|t] h'];
      split; eexists _, _; (split; [reflexivity|]); cbn; auto.
  - destruct (POST_unparsed t h) as [H1 H2]. rewrite H1, H2.
    split; eexists _, _; (split; [reflexivity|]); cbn; auto.
  - destruct (POST_undestructured body t h Hd) as [H1 H2]. rewrite H1, H2.
    split; eexists _, _; (split; [reflexivity|]); cbn; auto.
Qed.

(** A 200 answer comes from an accepted request and a fulfilled
    conversion, and from nothing else. *)
Lemma POSTWith_200 (request : Route.outcome Route.json) (h h' : history)
    (resp : Route.Response Zip) :
  Route.POSTWith env convertFromUrl request h = (Route.Fulfilled resp, h') \/
  Route.POSTV0With env convertFromUrl request h = (Route.Fulfilled resp, h') ->
  Route.res_status resp = 200 ->
  exists url r,
    accepted env request url /\
    convertFromUrl url h = (Route.Fulfilled r, h') /\
    resp = Route.okResponse r.
Proof.
  intros Hrun Hstatus.
  destruct (request_cases request) as [[resp0 Hr]|[[url Ha]|[[t ->]|(body & t & -> & Hd)]]].
  - destruct (POST_refused request resp0 h Hr) as [H1 H2].
    pose proof (refused_status request resp0 Hr) as Hs.
    rewrite H1, H2 in Hrun.
    assert (resp = resp0) by (destruct Hrun as [Hrun|Hrun]; congruence).
    subst resp0. lia.
  - destruct (POST_accepted request url h Ha) as [H1 H2]. rewrite H1, H2 in Hrun.
    destruct (convertFromUrl url h) as [[r|t] g] eqn:Hc.
    + exists url, r. split; [exact Ha|].
      destruct Hrun as [Hrun|Hrun]; injection Hrun as <- <-; auto.
    + destruct Hrun as [Hrun|Hrun]; injection Hrun as <- _; discriminate Hstatus.
  - destruct (POST_unparsed t h) as [H1 H2]. rewrite H1, H2 in Hrun.
    destruct Hrun as [Hrun|Hrun]; injection Hrun as <- _; discriminate Hstatus.
  - destruct (POST_undestructured body t h Hd) as [H1 H2]. rewrite H1, H2 in Hrun.
    destruct Hrun as [Hrun|Hrun]; injection Hrun as <- _; discriminate Hstatus.
Qed.

End RouteHandler.

(** The encoder calls that a returning conversion has added. *)
Lemma route_calls {Blob Zip : Type}
    (convertToBlob : history -> buffer -> Q -> completion Blob)
    (generateAsync : gmap Server.tileKey Blob -> list TileConfig -> completion Zip)
    (img : ImageBitmap) (h h' : history) (r : Server.Result (Zip := Zip)) :
  Server.processImageWith generateAsync (Server.createTile convertToBlob) img h
    = (Return r, h') ->
  exists calls, h' = h ++ calls /\ length calls = 132%nat.
Proof.
  intros Hrun.
  destruct (processImageWith_calls generateAsync (Server.createTile convertToBlob) routeBlock
              (fun face x y config faceSize g blob g' =>
                 createTile_routeBlock convertToBlob face x y config faceSize g g' blob)
              img h h' r Hrun) as (calls & Hh' & Hcalls).
  destruct (callBlocks_route_length calls 132 Hcalls) as [Hlen _].
  exists calls. split; [exact Hh' | lia].
Qed.

Lemma logging_calls {Blob Zip : Type}
    (convertToBlob : history -> buffer -> Q -> completion Blob)
    (generateAsync : gmap Server.tileKey Blob -> list TileConfig -> completion Zip)
    (img : ImageBitmap) (h h' : history) (r : Server.Result (Zip := Zip)) :
  Server.processImageWith generateAsync (ServerV0.createTile convertToBlob) img h
    = (Return r, h') ->
  exists calls, h' = h ++ calls /\ (132 <= length calls <= 264)%nat.
Proof.
  intros Hrun.
  destruct (processImageWith_calls generateAsync (ServerV0.createTile convertToBlob)
              retryBlock
              (fun face x y config faceSize g blob g' =>
                 createTile_retryBlock convertToBlob face x y config faceSize g g' blob)
              img h h' r Hrun) as (calls & Hh' & Hcalls).
  destruct (callBlocks_retry_length calls 132 Hcalls) as [Hlen _].
  exists calls. split; [exact Hh' | lia].
Qed.

Section RouteTheorems.

Context {Blob Zip Bytes : Type}.
Variable env : Route.Env Bytes.
Variable convertToBlob : history -> buffer -> Q -> completion Blob.
Variable generateAsync : gmap Server.tileKey Blob -> list TileConfig -> completion Zip.

Lemma POST_unfold :
  Route.POST env convertToBlob generateAsync
  = Route.POSTWith env
      (Route.convertFromUrlWith env (Server.processImage convertToBlob generateAsync)).
Proof. reflexivity. Qed.

Lemma POSTV0_unfold :
  Route.POSTV0 env convertToBlob generateAsync
  = Route.POSTV0With env
      (Route.convertFromUrlV0With env (ServerV0.processImage convertToBlob generateAsync)).
Proof. reflexivity. Qed.

Lemma okResponse_counts (r : Server.Result (Zip := Zip)) :
  Server.totalTiles r = 132 -> Server.zoomLevels r = 4 -> Server.maxZoom r = 3 ->
  Route.okResponse r
  = Route.mkResponse Zip 200 (Route.ZipBody (Server.zipBuffer r))
      [ ("Content-Type", "application/zip");
        ("Content-Disposition",
         "attachment; filename=" +:+ Route.dquote +:+ "cubemap-tiles.zip" +:+ Route.dquote);
        ("X-Total-Tiles", "132"); ("X-Zoom-Levels", "4"); ("X-Max-Zoom", "3") ]%string.
Proof. intros Ht Hz Hm. unfold Route.okResponse. rewrite Ht, Hz, Hm. reflexivity. Qed.

(** An accepted request whose image is fetched and converted is answered
    with the archive. *)
Lemma POST_fulfilled (request : Route.outcome Route.json) (url : Route.json)
    (img : ImageBitmap) (r : Server.Result (Zip := Zip)) (h h' : history) :
  accepted env request url -> fetched env url img ->
  Server.processImage convertToBlob generateAsync img h = (Return r, h') ->
  Route.POST env convertToBlob generateAsync request h
  = (Route.Fulfilled (Route.okResponse r), h').
Proof.
  intros Ha Hf Hrun. rewrite POST_unfold.
  destruct (POST_accepted env
              (Route.convertFromUrlWith env
                 (Server.processImage convertToBlob generateAsync))
              request url h Ha) as [-> _].
  rewrite (convertFromUrlWith_fetched env _ url img h Hf).
  unfold Route.ofM. now rewrite Hrun.
Qed.

Lemma POSTV0_fulfilled (request : Route.outcome Route.json) (url : Route.json)
    (img : ImageBitmap) (r : Server.Result (Zip := Zip)) (h h' : history) :
  accepted env request url -> fetched env url img ->
  ServerV0.processImage convertToBlob generateAsync img h = (Return r, h') ->
  Route.POSTV0 env convertToBlob generateAsync request h
  = (Route.Fulfilled (Route.okResponse r), h').
Proof.
  intros Ha Hf Hrun. rewrite POSTV0_unfold.
  destruct (POST_accepted env
              (Route.convertFromUrlV0With env
                 (ServerV0.processImage convertToBlob generateAsync))
              request url h Ha) as [_ ->].
  rewrite (convertFromUrlV0With_fetched env _ url img h Hf).
  unfold Route.ofM. now rewrite Hrun.
Qed.

(** X15: both handlers always answer.  Whatever the request, the
    environment, the image and the encoder do, [POST] of the route and [POST]
    of the logging variant are fulfilled, never rejected, and the status of the
    answer is 200, 400 or 500. *)
Theorem post_always_responds (request : Route.outcome Route.json) (h : history) :
  (exists resp h',
     Route.POST env convertToBlob generateAsync request h = (Route.Fulfilled resp, h') /\
     (Route.res_status resp = 200 \/ Route.res_status resp = 400 \/
      Route.res_status resp = 500)) /\
  (exists resp h',
     Route.POSTV0 env convertToBlob generateAsync request h = (Route.Fulfilled resp, h') /\
     (Route.res_status resp = 200 \/ Route.res_status resp = 400 \/
      Route.res_status resp = 500)).
Proof.
  rewrite POST_unfold, POSTV0_unfold. split.
  - exact (proj1 (POSTWith_responds env
                    (Route.convertFromUrlWith env
                       (Server.processImage convertToBlob generateAsync)) request h)).
  - exact (proj2 (POSTWith_responds env
                    (Route.convertFromUrlV0With env
                       (ServerV0.processImage convertToBlob generateAsync)) request h)).
Qed.

(** X16: what a 200 answer means.  When either handler answers 200, the
    body had a truthy [imageUrl] that parses as a URL, the image was fetched
    with [response.ok], decoded, and converted by a conversion that returned;
    the answer carries the archive of that conversion and the headers
    [X-Total-Tiles: 132], [X-Zoom-Levels: 4], [X-Max-Zoom: 3]; and between
    132 and 264 encoder calls were added to the record (exactly 132 on the
    route). *)
Theorem post_success (request : Route.outcome Route.json) (h h' : history)
    (resp : Route.Response Zip) :
  Route.POST env convertToBlob generateAsync request h = (Route.Fulfilled resp, h') \/
  Route.POSTV0 env convertToBlob generateAsync request h = (Route.Fulfilled resp, h') ->
  Route.res_status resp = 200 ->
  exists url img r calls,
    accepted env request url /\ fetched env url img /\
    (Server.processImage convertToBlob generateAsync img h = (Return r, h') \/
     ServerV0.processImage convertToBlob generateAsync img h = (Return r, h')) /\
    resp = Route.mkResponse Zip 200 (Route.ZipBody (Server.zipBuffer r))
             [ ("Content-Type", "application/zip");
               ("Content-Disposition",
                "attachment; filename=" +:+ Route.dquote +:+ "cubemap-tiles.zip"
                +:+ Route.dquote);
               ("X-Total-Tiles", "132"); ("X-Zoom-Levels", "4");
               ("X-Max-Zoom", "3") ]%string /\
    h' = h ++ calls /\ (132 <= length calls <= 264)%nat /\
    (Route.POST env convertToBlob generateAsync request h = (Route.Fulfilled resp, h') ->
     length calls = 132%nat).
Proof.
  intros Hrun Hstatus.
  assert (Hcounts : forall createTile r g g',
            Server.processImageWith generateAsync createTile r g = (Return g', h') ->
            Server.totalTiles g' = 132 /\ Server.zoomLevels g' = 4 /\ Server.maxZoom g' = 3).
  { intros createTile img r g Hwith.
    apply processImageWith_result in Hwith as (tiles & g0 & _ & _ & Hc). exact Hc. }
  destruct Hrun as [Hrun|Hrun].
  - pose proof Hrun as Hpost. rewrite POST_unfold in Hrun.
    destruct (POSTWith_200 env _ request h h' resp (or_introl Hrun) Hstatus)
      as (url & r & Ha & Hconv & ->).
    apply convertFromUrlWith_inv in Hconv as (img & Hf & Himg).
    pose proof Himg as Hwith. rewrite processImage_unfold in Hwith.
    destruct (route_calls convertToBlob generateAsync img h h' r Hwith)
      as (calls & Hh' & Hlen).
    destruct (Hcounts _ _ _ _ Hwith) as (Ht & Hz & Hm).
    exists url, img, r, calls.
    split; [exact Ha|]. split; [exact Hf|]. split; [left; exact Himg|].
    split; [now apply okResponse_counts|]. split; [exact Hh'|]. split; [lia|].
    intros _. exact Hlen.
  - rewrite POSTV0_unfold in Hrun.
    destruct (POSTWith_200 env _ request h h' resp (or_intror Hrun) Hstatus)
      as (url & r & Ha & Hconv & ->).
    apply convertFromUrlV0With_inv in Hconv as (img & Hf & Himg).
    pose proof Himg as Hwith.
    rewrite processImageV0_unfold, try_catch_rethrow in Hwith.
    destruct (logging_calls convertToBlob generateAsync img h h' r Hwith)
      as (calls & Hh' & Hlen).
    destruct (Hcounts _ _ _ _ Hwith) as (Ht & Hz & Hm).
    exists url, img, r, calls.
    split; [exact Ha|]. split; [exact Hf|]. split; [right; exact Himg|].
    split; [now apply okResponse_counts|]. split; [exact Hh'|]. split; [exact Hlen|].
    intros Hpost.
    assert (Hroute : Route.POST env convertToBlob generateAsync request h
                     = (Route.Fulfilled (Route.okResponse r), h')) by exact Hpost.
    rewrite POST_unfold in Hroute.
    destruct (POSTWith_200 env _ request h h' _ (or_introl Hroute) Hstatus)
      as (url' & r' & Ha' & Hconv' & _).
    apply convertFromUrlWith_inv in Hconv' as (img' & _ & Himg').
    rewrite processImage_unfold in Himg'.
    destruct (route_calls convertToBlob generateAsync img' h h' r' Himg')
      as (calls' & Hh'' & Hlen').
    rewrite Hh' in Hh''. apply app_inv_head in Hh''. now subst calls'.
Qed.

(** X17: requests that are answered without fetching anything.  A body
    that is not an object, or has no [imageUrl], or has one that is falsy
    ([null], [false], 0 or the empty string), gets 400 "Image URL is required"
    from both handlers; a truthy [imageUrl] that is no URL gets 400 "Invalid
    URL format"; in both cases the record of encoder calls is untouched and
    the answer depends on nothing else.  A body that is not JSON gets the
    generic 500 from the route but 400 "Invalid JSON in request body" from
    the logging variant; the body [null] gets 500 from both. *)
Theorem post_validation (h : history) :
  (forall body,
     match body with
     | Route.JNull => False
     | Route.JObject fields =>
         match Route.getProp "imageUrl" fields with
         | Some url => Route.truthy url = false
         | None => True
         end
     | _ => True
     end ->
     Route.POST env convertToBlob generateAsync (Route.Fulfilled body) h
       = (Route.Fulfilled
            (Route.jsonResponse [("error", "Image URL is required")]%string 400), h) /\
     Route.POSTV0 env convertToBlob generateAsync (Route.Fulfilled body) h
       = (Route.Fulfilled
            (Route.jsonResponse [("error", "Image URL is required")]%string 400), h)) /\
  (forall fields url,
     Route.getProp "imageUrl" fields = Some url ->
     Route.truthy url = true -> Route.urlValid env url = false ->
     Route.POST env convertToBlob generateAsync (Route.Fulfilled (Route.JObject fields)) h
       = (Route.Fulfilled
            (Route.jsonResponse [("error", "Invalid URL format")]%string 400), h) /\
     Route.POSTV0 env convertToBlob generateAsync (Route.Fulfilled (Route.JObject fields)) h
       = (Route.Fulfilled
            (Route.jsonResponse [("error", "Invalid URL format")]%string 400), h)) /\
  (forall t,
     Route.POST env convertToBlob generateAsync (Route.Rejected t) h
       = (Route.Fulfilled failedResponse, h) /\
     Route.POSTV0 env convertToBlob generateAsync (Route.Rejected t) h
       = (Route.Fulfilled
            (Route.jsonResponse [("error", "Invalid JSON in request body")]%string 400),
          h)) /\
  (Route.POST env convertToBlob generateAsync (Route.Fulfilled Route.JNull) h
     = (Route.Fulfilled failedResponse, h) /\
   Route.POSTV0 env convertToBlob generateAsync (Route.Fulfilled Route.JNull) h
     = (Route.Fulfilled
          (Route.jsonResponse
             [("error", "Failed to convert panorama image");
              ("details",
               Route.messageOr "Unknown error occurred" (Route.typeError env))]%string
             500), h)).
Proof.
  assert (Href : forall request (resp : Route.Response Zip),
            refused env request resp ->
            Route.POST env convertToBlob generateAsync request h
              = (Route.Fulfilled resp, h) /\
            Route.POSTV0 env convertToBlob generateAsync request h
              = (Route.Fulfilled resp, h)).
  { intros request resp Hr. rewrite POST_unfold, POSTV0_unfold. split.
    - exact (proj1 (POST_refused env _ request resp h Hr)).
    - exact (proj2 (POST_refused env _ request resp h Hr)). }
  split; [|split; [|split]].
  - intros body Hbody. apply Href.
    destruct body as [|b|n|s|items|fields]; try contradiction.
    + eexists _, None. repeat split; eauto.
    + eexists _, None. repeat split; eauto.
    + eexists _, None. repeat split; eauto.
    + eexists _, None. repeat split; eauto.
    + eexists _, (Route.getProp "imageUrl" fields). split; [reflexivity|].
      split; [reflexivity|]. left. split; [reflexivity|].
      destruct (Route.getProp "imageUrl" fields) as [url|]; eauto.
  - intros fields url Hget Ht Hv. apply Href.
    eexists _, (Some url). split; [reflexivity|].
    split; [cbn; now rewrite Hget|]. right. eauto 10.
  - intros t. rewrite POST_unfold, POSTV0_unfold. split.
    + exact (proj1 (POST_unparsed env _ t h)).
    + exact (proj2 (POST_unparsed env _ t h)).
  - rewrite POST_unfold, POSTV0_unfold. split.
    + exact (proj1 (POST_undestructured env _ Route.JNull (Route.typeError env) h eq_refl)).
    + exact (proj2 (POST_undestructured env _ Route.JNull (Route.typeError env) h eq_refl)).
Qed.

(** X18: the two handlers differ only on failures.  Every answer of the
    route other than the generic 500 is also the answer of the logging
    variant to the same request, with the same record of encoder calls. *)
Theorem post_variants_agree (request : Route.outcome Route.json) (h h' : history)
    (resp : Route.Response Zip) :
  Route.POST env convertToBlob generateAsync request h = (Route.Fulfilled resp, h') ->
  Route.res_status resp <> 500 ->
  Route.POSTV0 env convertToBlob generateAsync request h = (Route.Fulfilled resp, h').
Proof.
  intros Hrun Hstatus.
  destruct (request_cases (Zip := Zip) env request)
    as [[resp0 Hr]|[[url Ha]|[[t ->]|(body & t & -> & Hd)]]].
  - rewrite POST_unfold in Hrun. rewrite POSTV0_unfold.
    destruct (POST_refused env
                (Route.convertFromUrlWith env
                   (Server.processImage convertToBlob generateAsync))
                request resp0 h Hr) as [H1 _].
    destruct (POST_refused env
                (Route.convertFromUrlV0With env
                   (ServerV0.processImage convertToBlob generateAsync))
                request resp0 h Hr) as [_ H2].
    rewrite H1 in Hrun. rewrite H2. exact Hrun.
  - pose proof Hrun as Hpost. rewrite POST_unfold in Hpost.
    destruct (POST_accepted env
                (Route.convertFromUrlWith env
                   (Server.processImage convertToBlob generateAsync))
                request url h Ha) as [H1 _].
    rewrite H1 in Hpost.
    destruct (Route.convertFromUrlWith env
                (Server.processImage convertToBlob generateAsync) url h)
      as [[r|t] g] eqn:Hconv.
    + injection Hpost as <- <-.
      apply convertFromUrlWith_inv in Hconv as (img & Hf & Himg).
      apply POSTV0_fulfilled with (url := url) (img := img); [exact Ha | exact Hf |].
      rewrite processImage_unfold in Himg.
      rewrite processImageV0_unfold, try_catch_rethrow.
      exact (processImageWith_sim convertToBlob generateAsync img h g r Himg).
    + injection Hpost as <- _. now destruct Hstatus.
  - rewrite POST_unfold in Hrun.
    destruct (POST_unparsed (Zip := Zip) env
                (Route.convertFromUrlWith env
                   (Server.processImage convertToBlob generateAsync)) t h) as [H1 _].
    rewrite H1 in Hrun. injection Hrun as <- _. now destruct Hstatus.
  - rewrite POST_unfold in Hrun.
    destruct (POST_undestructured env
                (Route.convertFromUrlWith env
                   (Server.processImage convertToBlob generateAsync)) body t h Hd)
      as [H1 _].
    rewrite H1 in Hrun. injection Hrun as <- _. now destruct Hstatus.
Qed.

End RouteTheorems.

Lemma goodBody_accepted : accepted goodEnv (Route.Fulfilled goodBody) 
                            (Route.JString "https://example.com/p.jpg").
Proof. exists goodBody. repeat split; reflexivity. Qed.

Lemma goodEnv_fetched (url : Route.json) : fetched goodEnv url flat42.
Proof. eexists _, tt. repeat split; reflexivity. Qed.

Lemma good_request_fulfilled :
  exists r h',
    Server.processImage anyEncoder anyArchive flat42 [] = (Return r, h') /\
    Route.POST goodEnv anyEncoder anyArchive (Route.Fulfilled goodBody) []
    = (Route.Fulfilled (Route.okResponse r), h').
Proof.
  destruct (processImageWith_returns anyArchive (Server.createTile anyEncoder))
    with (img := flat42) (h := @nil attempt) as (r & h' & Hrun).
  - intros face x y config faceSize g. eexists _, _. reflexivity.
  - intros tiles. eexists. reflexivity.
  - rewrite <- processImage_unfold in Hrun.
    exists r, h'. split; [exact Hrun|].
    exact (POST_fulfilled goodEnv anyEncoder anyArchive _ _ flat42 r [] h'
             goodBody_accepted (goodEnv_fetched _) Hrun).
Qed.

Lemma post_success_witness :
  exists resp h',
    Route.POST goodEnv anyEncoder anyArchive (Route.Fulfilled goodBody) []
    = (Route.Fulfilled resp, h') /\
    Route.res_headers resp !! 2%nat = Some ("X-Total-Tiles", "132")%string /\
    length h' = 132%nat.
Proof.
  destruct good_request_fulfilled as (r & h' & _ & Hpost).
  exists (Route.okResponse r), h'. split; [exact Hpost|].
  destruct (post_success goodEnv anyEncoder anyArchive _ [] h' _ (or_introl Hpost) eq_refl)
    as (url & img & r' & calls & _ & _ & _ & Hresp & Hh' & _ & Hlen).
  rewrite Hresp, Hh'. split; [reflexivity|]. exact (Hlen Hpost).
Defined.

Lemma post_validation_witness :
  Route.POST goodEnv anyEncoder anyArchive
    (Route.Fulfilled (Route.JObject [("imageUrl", Route.JString "")]%string)) []
  = (Route.Fulfilled
       (Route.jsonResponse [("error", "Image URL is required")]%string 400), []).
Proof.
  destruct (post_validation goodEnv anyEncoder anyArchive []) as (Hmissing & _).
  apply (Hmissing (Route.JObject [("imageUrl", Route.JString "")]%string)).
  reflexivity.
Defined.

Lemma post_variants_agree_witness :
  exists resp h',
    Route.POST goodEnv anyEncoder anyArchive (Route.Fulfilled goodBody) []
    = (Route.Fulfilled resp, h') /\
    Route.POSTV0 goodEnv anyEncoder anyArchive (Route.Fulfilled goodBody) []
    = (Route.Fulfilled resp, h').
Proof.
  destruct good_request_fulfilled as (r & h' & _ & Hpost).
  exists (Route.okResponse r), h'. split; [exact Hpost|].
  apply (post_variants_agree goodEnv anyEncoder anyArchive _ [] h' _ Hpost).
  discriminate.
Defined.

(** ** The alpha channel of the source is never read *)

Lemma loop_fromC_ext {St : Type} (body1 body2 : Z -> St -> completion St) :
  (forall i s, body1 i s = body2 i s) ->
  forall (fuel : nat) (i : Z) (s : St),
    loop_fromC fuel i body1 s = loop_fromC fuel i body2 s.
Proof.
  intros Hbody. induction fuel as [|k IH]; intros i s; simpl; [reflexivity|].
  rewrite Hbody. destruct (body2 i s); [apply IH | reflexivity].
Qed.

Lemma for_rangeC_ext {St : Type} (body1 body2 : Z -> St -> completion St) (n : Z) (s : St) :
  (forall i s, body1 i s = body2 i s) ->
  for_rangeC n body1 s = for_rangeC n body2 s.
Proof. intros Hbody. now apply loop_fromC_ext. Qed.

Lemma getPixel_rgb (d1 d2 : buffer) (width : Z) (px py : inum) :
  (forall k c, 0 <= c < 3 -> readIdx d1 (k * 4 + c) = readIdx d2 (k * 4 + c)) ->
  Server.getPixel d1 width px py = Server.getPixel d2 width px py.
Proof.
  intros Hrgb. unfold Server.getPixel.
  destruct py as [y|], px as [x|]; try reflexivity.
  simpl.
  pose proof (Hrgb (y * width + x) 0 ltac:(lia)) as H0. rewrite Z.add_0_r in H0.
  now rewrite H0, (Hrgb (y * width + x) 1), (Hrgb (y * width + x) 2) by lia.
Qed.

Lemma sample_rgb (d1 d2 : buffer) (u v : number) (width height : Z) :
  (forall k c, 0 <= c < 3 -> readIdx d1 (k * 4 + c) = readIdx d2 (k * 4 + c)) ->
  Server.sampleEquirectangularBilinear d1 u v width height
  = Server.sampleEquirectangularBilinear d2 u v width height.
Proof.
  intros Hrgb. unfold Server.sampleEquirectangularBilinear. cbv zeta.
  now rewrite !(getPixel_rgb d1 d2 width _ _ Hrgb).
Qed.

(** X19: the alpha channel of the source is ignored.  Two sources of
    the same dimensions whose buffers agree on the red, green and blue byte
    of every pixel, whatever their alpha bytes, give the same bilinear sample
    at every coordinate and the same rasterized face for every face id and
    side. *)
Theorem source_alpha_ignored (d1 d2 : buffer) (width height : Z) :
  (forall k c, 0 <= c < 3 -> readIdx d1 (k * 4 + c) = readIdx d2 (k * 4 + c)) ->
  (forall u v,
     Server.sampleEquirectangularBilinear d1 u v width height
     = Server.sampleEquirectangularBilinear d2 u v width height) /\
  (forall face size,
     Server.generateCubeFace (mkImage width height d1) face size
     = Server.generateCubeFace (mkImage width height d2) face size).
Proof.
  intros Hrgb. split; [intros u v; now apply sample_rgb|].
  intros face size. unfold Server.generateCubeFace.
  apply for_rangeC_ext. intros y fd. apply for_rangeC_ext. intros x fd'.
  unfold Server.rasterStep. cbn [img_data img_width img_height].
  destruct (Server.faceUVToEquirectangular face (IZR x / IZR size) (IZR y / IZR size))
    as [[u v]|e]; [|reflexivity].
  now rewrite (sample_rgb d1 d2 u v width height Hrgb).
Qed.

Lemma source_alpha_ignored_witness :
  Server.generateCubeFace (mkImage 1 1 [10; 20; 30; 255]) 4 2
  = Server.generateCubeFace (mkImage 1 1 [10; 20; 30; 0]) 4 2.
Proof.
  assert (Hrgb : forall k c, 0 <= c < 3 ->
            readIdx [10; 20; 30; 255] (k * 4 + c) = readIdx [10; 20; 30; 0] (k * 4 + c)).
  { intros k c Hc. unfold readIdx.
    destruct (Z.ltb_spec (k * 4 + c) 0) as [_|Hidx]; [reflexivity|].
    assert (Hk : k = 0 \/ 1 <= k) by lia. destruct Hk as [->|Hk].
    - assert (Hcase : c = 0 \/ c = 1 \/ c = 2) by lia.
      destruct Hcase as [->|[->| ->]]; reflexivity.
    - assert (Hn : (4 <= Z.to_nat (k * 4 + c))%nat) by lia.
      destruct (Z.to_nat (k * 4 + c)) as [|[|[|[|n]]]]; [lia..|reflexivity]. }
  exact (proj2 (source_alpha_ignored _ _ 1 1 Hrgb) 4 2).
Defined.

(** ** Opposite faces *)







(** ** Neighbouring faces *)





(** ** The API client against the route *)

Section ApiClient.

Context {Zip : Type}.
Variable trim : string -> string.
Variable parseInt : string -> inum.
Variable createObjectURL : Route.ResponseBody Zip -> string.
Variable fetchApi : string -> Route.outcome (Route.Response Zip).
Variable jsonError : Route.thrown.

Lemma handleConvert_blank (st : ApiConverter.State) :
  trim (ApiConverter.imageUrl st) = ""%string ->
  ApiConverter.handleConvert trim parseInt createObjectURL fetchApi jsonError st = (st, []).
Proof. intros Hblank. unfold ApiConverter.handleConvert. now rewrite Hblank. Qed.

(** A failure answer with a message is shown to the user. *)
Lemma handleConvert_failure (st : ApiConverter.State) (message : string)
    (rest : list (string * string)) (status : Z) :
  trim (ApiConverter.imageUrl st) <> ""%string ->
  fetchApi (trim (ApiConverter.imageUrl st))
    = Route.Fulfilled (Route.jsonResponse (("error", message) :: rest)%string status) ->
  status = 400 \/ status = 500 -> message <> ""%string ->
  ApiConverter.handleConvert trim parseInt createObjectURL fetchApi jsonError st
  = (ApiConverter.mkState (ApiConverter.imageUrl st) false 0 None, [message]).
Proof.
  intros Hurl Hfetch Hstatus Hmsg. unfold ApiConverter.handleConvert.
  apply String.eqb_neq in Hurl. rewrite Hurl, Hfetch.
  assert (Hok : ApiConverter.ok
                  (Route.jsonResponse (Zip := Zip) (("error", message) :: rest)%string
                     status) = false).
  { unfold ApiConverter.ok. cbn [Route.res_status Route.jsonResponse].
    destruct Hstatus as [-> | ->]; reflexivity. }
  rewrite Hok. cbn [negb Route.res_body Route.jsonResponse ApiConverter.member].
  change (String.eqb "error" "error") with true. cbn iota.
  unfold ApiConverter.orElse. apply String.eqb_neq in Hmsg. rewrite Hmsg. reflexivity.
Qed.

(** The counts of a 200 answer are read back from its headers. *)
Lemma handleConvert_success (st : ApiConverter.State) (zip : Zip) :
  trim (ApiConverter.imageUrl st) <> ""%string ->
  parseInt "132" = Some 132 -> parseInt "4" = Some 4 -> parseInt "3" = Some 3 ->
  fetchApi (trim (ApiConverter.imageUrl st))
    = Route.Fulfilled
        (Route.mkResponse Zip 200 (Route.ZipBody zip)
           [ ("Content-Type", "application/zip");
             ("Content-Disposition",
              "attachment; filename=" +:+ Route.dquote +:+ "cubemap-tiles.zip"
              +:+ Route.dquote);
             ("X-Total-Tiles", "132"); ("X-Zoom-Levels", "4");
             ("X-Max-Zoom", "3") ]%string) ->
  ApiConverter.handleConvert trim parseInt createObjectURL fetchApi jsonError st
  = (ApiConverter.mkState (ApiConverter.imageUrl st) false 100
       (Some (ApiConverter.mkResult (createObjectURL (Route.ZipBody zip))
                (Some 132) (Some 4) (Some 3))), []).
Proof.
  intros Hurl H132 H4 H3 Hfetch. unfold ApiConverter.handleConvert.
  apply String.eqb_neq in Hurl. rewrite Hurl, Hfetch.
  change (ApiConverter.ok _) with true. cbn [negb Route.res_headers Route.res_body].
  change (ApiConverter.orElse (ApiConverter.member "X-Total-Tiles" _) "0")
    with "132"%string.
  change (ApiConverter.orElse (ApiConverter.member "X-Zoom-Levels" _) "0")
    with "4"%string.
  change (ApiConverter.orElse (ApiConverter.member "X-Max-Zoom" _) "0")
    with "3"%string.
  now rewrite H132, H4, H3.
Qed.

End ApiClient.

Section ApiAgainstRoute.

Context {Blob Zip Bytes : Type}.
Variable env : Route.Env Bytes.
Variable convertToBlob : history -> buffer -> Q -> completion Blob.
Variable generateAsync : gmap Server.tileKey Blob -> list TileConfig -> completion Zip.

(** What either handler answers to the body [{ imageUrl }] with a
    non-empty string. *)
Lemma POST_answers_client (imageUrl : string) (h : history) :
  imageUrl <> ""%string ->
  let request :=
    Route.Fulfilled (Route.JObject [("imageUrl", Route.JString imageUrl)]%string) in
  (exists h1 h2,
     Route.POST env convertToBlob generateAsync request h
       = (Route.Fulfilled
            (Route.jsonResponse [("error", "Invalid URL format")]%string 400), h1) /\
     Route.POSTV0 env convertToBlob generateAsync request h
       = (Route.Fulfilled
            (Route.jsonResponse [("error", "Invalid URL format")]%string 400), h2)) \/
  ((exists r h1,
      Route.POST env convertToBlob generateAsync request h
        = (Route.Fulfilled (Route.okResponse r), h1) /\
      Server.totalTiles r = 132 /\ Server.zoomLevels r = 4 /\ Server.maxZoom r = 3) \/
   (exists h1,
      Route.POST env convertToBlob generateAsync request h
        = (Route.Fulfilled failedResponse, h1))) /\
  ((exists r h2,
      Route.POSTV0 env convertToBlob generateAsync request h
        = (Route.Fulfilled (Route.okResponse r), h2) /\
      Server.totalTiles r = 132 /\ Server.zoomLevels r = 4 /\ Server.maxZoom r = 3) \/
   (exists t h2,
      Route.POSTV0 env convertToBlob generateAsync request h
        = (Route.Fulfilled
             (Route.jsonResponse
                [("error", "Failed to convert panorama image");
                 ("details", Route.messageOr "Unknown error occurred" t)]%string 500),
           h2))).
Proof.
  intros Hurl request.
  assert (Htruthy : Route.truthy (Route.JString imageUrl) = true).
  { cbn. apply String.eqb_neq in Hurl. now rewrite Hurl. }
  rewrite POST_unfold, POSTV0_unfold.
  destruct (Route.urlValid env (Route.JString imageUrl)) eqn:Hvalid.
  - right.
    assert (Ha : accepted env request (Route.JString imageUrl)).
    { eexists. split; [reflexivity|]. split; [|auto].
      cbn. change (String.eqb "imageUrl" "imageUrl") with true. reflexivity. }
    split.
    + destruct (POST_accepted env
                  (Route.convertFromUrlWith env
                     (Server.processImage convertToBlob generateAsync))
                  request _ h Ha) as [-> _].
      destruct (Route.convertFromUrlWith env
                  (Server.processImage convertToBlob generateAsync)
                  (Route.JString imageUrl) h) as [[r|t] g] eqn:Hconv.
      * left. exists r, g. split; [reflexivity|].
        apply convertFromUrlWith_inv in Hconv as (img & _ & Hrun).
        rewrite processImage_unfold in Hrun.
        apply processImageWith_result in Hrun as (tiles & g0 & _ & _ & Hc). exact Hc.
      * right. exists g. reflexivity.
    + destruct (POST_accepted env
                  (Route.convertFromUrlV0With env
                     (ServerV0.processImage convertToBlob generateAsync))
                  request _ h Ha) as [_ ->].
      destruct (Route.convertFromUrlV0With env
                  (ServerV0.processImage convertToBlob generateAsync)
                  (Route.JString imageUrl) h) as [[r|t] g] eqn:Hconv.
      * left. exists r, g. split; [reflexivity|].
        apply convertFromUrlV0With_inv in Hconv as (img & _ & Hrun).
        rewrite processImageV0_unfold, try_catch_rethrow in Hrun.
        apply processImageWith_result in Hrun as (tiles & g0 & _ & _ & Hc). exact Hc.
      * right. exists t, g. reflexivity.
  - left.
    assert (Hr : refused (Zip := Zip) env request
                   (Route.jsonResponse [("error", "Invalid URL format")]%string 400)).
    { eexists _, (Some (Route.JString imageUrl)). split; [reflexivity|]. split.
      - cbn. change (String.eqb "imageUrl" "imageUrl") with true. reflexivity.
      - right. split; [reflexivity|]. eauto. }
    exists h, h. split.
    + exact (proj1 (POST_refused env _ request _ h Hr)).
    + exact (proj2 (POST_refused env _ request _ h Hr)).
Qed.

Variable trim : string -> string.
Variable parseInt : string -> inum.
Variable createObjectURL : Route.ResponseBody Zip -> string.
Variable jsonError : Route.thrown.

(** X21: what the API client shows after [handleConvert], against
    either handler.  With a blank URL nothing happens.  Otherwise, for any
    [parseInt] that reads the three printed counts, the component ends not
    converting, with its URL unchanged, and either with the download link of
    the returned archive, the counts 132, 4 and 3 read back from the headers,
    progress 100 and no alert, or with no result, progress 0 and one alert,
    "Invalid URL format" or "Failed to convert panorama image": the messages
    "Image URL is required" and "Invalid JSON in request body" are never
    shown. *)
Theorem api_client_outcome (h : history) (st st' : ApiConverter.State)
    (alerts : list string) :
  parseInt "132" = Some 132 -> parseInt "4" = Some 4 -> parseInt "3" = Some 3 ->
  ApiConverter.handleConvert trim parseInt createObjectURL
    (apiOf (Route.POST env convertToBlob generateAsync) h) jsonError st = (st', alerts) \/
  ApiConverter.handleConvert trim parseInt createObjectURL
    (apiOf (Route.POSTV0 env convertToBlob generateAsync) h) jsonError st = (st', alerts) ->
  (trim (ApiConverter.imageUrl st) = ""%string /\ st' = st /\ alerts = []) \/
  (trim (ApiConverter.imageUrl st) <> ""%string /\
   ApiConverter.isConverting st' = false /\
   ApiConverter.imageUrl st' = ApiConverter.imageUrl st /\
   ((exists r : Server.Result (Zip := Zip),
       ApiConverter.result st'
       = Some (ApiConverter.mkResult
                 (createObjectURL (Route.ZipBody (Server.zipBuffer r)))
                 (Some 132) (Some 4) (Some 3)) /\
       ApiConverter.progress st' = 100 /\ alerts = []) \/
    (ApiConverter.result st' = None /\ ApiConverter.progress st' = 0 /\
     (alerts = ["Invalid URL format"%string] \/
      alerts = ["Failed to convert panorama image"%string])))).
Proof.
  intros H132 H4 H3 Hrun.
  destruct (String.eqb_spec (trim (ApiConverter.imageUrl st)) "") as [Hblank|Hurl].
  - left. split; [exact Hblank|].
    rewrite !handleConvert_blank in Hrun by exact Hblank.
    destruct Hrun as [Hrun|Hrun]; injection Hrun as <- <-; auto.
  - right. split; [exact Hurl|].
    assert (Hfail : forall fetchApi message rest status (h1 : history),
              fetchApi (trim (ApiConverter.imageUrl st))
                = (Route.Fulfilled
                     (Route.jsonResponse (Zip := Zip) (("error", message) :: rest)%string
                        status), h1).1 ->
              status = 400 \/ status = 500 -> message <> ""%string ->
              ApiConverter.handleConvert trim parseInt createObjectURL fetchApi jsonError st
                = (st', alerts) ->
              st' = ApiConverter.mkState (ApiConverter.imageUrl st) false 0 None /\
              alerts = [message]).
    { intros fetchApi message rest status h1 Hfetch Hstatus Hmsg Hc.
      rewrite (handleConvert_failure trim parseInt createObjectURL fetchApi jsonError
                 st message rest status Hurl Hfetch Hstatus Hmsg) in Hc.
      injection Hc as <- <-. auto. }
    assert (Hok : forall fetchApi (r : Server.Result (Zip := Zip)) (h1 : history),
              Server.totalTiles r = 132 -> Server.zoomLevels r = 4 ->
              Server.maxZoom r = 3 ->
              fetchApi (trim (ApiConverter.imageUrl st))
                = (Route.Fulfilled (Route.okResponse r), h1).1 ->
              ApiConverter.handleConvert trim parseInt createObjectURL fetchApi jsonError st
                = (st', alerts) ->
              st' = ApiConverter.mkState (ApiConverter.imageUrl st) false 100
                      (Some (ApiConverter.mkResult
                               (createObjectURL (Route.ZipBody (Server.zipBuffer r)))
                               (Some 132) (Some 4) (Some 3))) /\
              alerts = []).
    { intros fetchApi r h1 Ht Hz Hm Hfetch Hc.
      rewrite (okResponse_counts r Ht Hz Hm) in Hfetch.
      rewrite (handleConvert_success trim parseInt createObjectURL fetchApi jsonError
                 st (Server.zipBuffer r) Hurl H132 H4 H3 Hfetch) in Hc.
      injection Hc as <- <-. auto. }
    destruct (POST_answers_client (trim (ApiConverter.imageUrl st)) h Hurl)
      as [(h1 & h2 & Hp & Hv) | [Hp Hv]].
    + assert (Hres : st' = ApiConverter.mkState (ApiConverter.imageUrl st) false 0 None /\
                     alerts = ["Invalid URL format"%string]).
      { destruct Hrun as [Hrun|Hrun].
        - apply (Hfail _ "Invalid URL format"%string [] 400 h1) in Hrun;
            [exact Hrun | | auto | discriminate].
          unfold apiOf. now rewrite Hp.
        - apply (Hfail _ "Invalid URL format"%string [] 400 h2) in Hrun;
            [exact Hrun | | auto | discriminate].
          unfold apiOf. now rewrite Hv. }
      destruct Hres as [-> ->]. cbn. auto 10.
    + destruct Hrun as [Hrun|Hrun].
      * destruct Hp as [(r & h1 & Hp & Ht & Hz & Hm) | (h1 & Hp)].
        -- apply (Hok _ r h1 Ht Hz Hm) in Hrun as [-> ->]; [|unfold apiOf; now rewrite Hp].
           cbn. split; [reflexivity|]. split; [reflexivity|]. left. eauto.
        -- apply (Hfail _ "Failed to convert panorama image"%string [] 500 h1)
             in Hrun as [-> ->];
             [| unfold apiOf; now rewrite Hp | auto | discriminate].
           cbn. auto 10.
      * destruct Hv as [(r & h2 & Hv & Ht & Hz & Hm) | (t & h2 & Hv)].
        -- apply (Hok _ r h2 Ht Hz Hm) in Hrun as [-> ->]; [|unfold apiOf; now rewrite Hv].
           cbn. split; [reflexivity|]. split; [reflexivity|]. left. eauto.
        -- apply (Hfail _ "Failed to convert panorama image"%string
                    [("details", Route.messageOr "Unknown error occurred" t)]%string
                    500 h2) in Hrun as [-> ->];
             [| unfold apiOf; now rewrite Hv | auto | discriminate].
           cbn. auto 10.
Qed.

End ApiAgainstRoute.

Lemma api_client_outcome_witness :
  exists st' alerts,
    ApiConverter.handleConvert (fun s => s) parseCounts (fun _ => "blob:zip"%string)
      (apiOf (Route.POST goodEnv anyEncoder anyArchive) []) Route.OtherValue
      (ApiConverter.mkState "https://example.com/p.jpg" false 0 None) = (st', alerts) /\
    ApiConverter.isConverting st' = false.
Proof.
  eexists _, _. split; [apply surjective_pairing|].
  destruct (api_client_outcome goodEnv anyEncoder anyArchive (fun s => s) parseCounts
              (fun _ => "blob:zip"%string) Route.OtherValue []
              (ApiConverter.mkState "https://example.com/p.jpg" false 0 None) _ _
              eq_refl eq_refl eq_refl (or_introl (surjective_pairing _)))
    as [(Hblank & _) | (_ & Hdone & _)].
  - discriminate Hblank.
  - exact Hdone.
Defined.
